(** * memory.js: session restore, retry engine and conversational pipeline

    A shallow embedding of [src/memory.js]: the session restore
    [initializeSymbiosisSession], the retry engine [fetchWithCognitiveRetry]
    and the pipeline entry point [processMemoryChat] (Director mode and
    Standard mode).

    Modelling conventions.
    - JavaScript values are the inductive type [value]; objects are
      association lists in property order.  Numbers are integers.  Two
      objects are never [===] (object identity is not tracked; parsed
      documents do not alias), so values that the code compares with [===]
      or keeps in a [Set] are taken to be primitives.  Parsed objects hold
      data fields only, so string coercion never fails.
    - Strings are sequences of 8-bit characters.  The case mappings and the
      white space are those of JavaScript on ASCII text: outside ASCII,
      JavaScript maps more letters and trims more characters.  Statements
      that depend on case mapping or trimming are made for ASCII data
      ([ascii_value]).
    - Arrays and primitives carry no named properties: a property written on
      one is not kept ([set_field]).  The entries and graph nodes that the
      code writes to are taken to be objects.
    - A JavaScript completion is [Normal], [Return], [Throw] or [Continue];
      effectful code is a state-passing function over [World].
    - The inference service and the storage service are oracles: the n-th
      awaited call receives the n-th outcome.  Prompt texts, the model name
      and the credential only travel to the inference service, whose answers
      are quantified over, so an inference call is recorded by its label.
      Console output is not modelled.
    - [JSON.parse] and the string-to-number coercion are built-ins of the
      host; they are parameters of the development.  [JSON.stringify] is
      defined. *)

From Stdlib Require Import String Ascii List ZArith Lia Bool DecimalString.
Import ListNotations.
Local Open Scope string_scope.
Local Open Scope Z_scope.
Set Warnings "-register-all".
Set Implicit Arguments.

(** ** Strings *)

Definition dquote : string := String (ascii_of_nat 34) EmptyString.
Definition newline : string := String (ascii_of_nat 10) EmptyString.

Definition is_upper_ascii (c : ascii) : bool :=
  let n := nat_of_ascii c in (65 <=? n)%nat && (n <=? 90)%nat.
Definition is_lower_ascii (c : ascii) : bool :=
  let n := nat_of_ascii c in (97 <=? n)%nat && (n <=? 122)%nat.
Definition is_letter (c : ascii) : bool := is_upper_ascii c || is_lower_ascii c.
Definition is_space (c : ascii) : bool :=
  let n := nat_of_ascii c in ((9 <=? n)%nat && (n <=? 13)%nat) || (n =? 32)%nat.

Definition upper_char (c : ascii) : ascii :=
  if is_lower_ascii c then ascii_of_nat (nat_of_ascii c - 32) else c.
Definition lower_char (c : ascii) : ascii :=
  if is_upper_ascii c then ascii_of_nat (nat_of_ascii c + 32) else c.

Fixpoint map_string (f : ascii -> ascii) (s : string) : string :=
  match s with
  | EmptyString => EmptyString
  | String c r => String (f c) (map_string f r)
  end.

Fixpoint filter_string (p : ascii -> bool) (s : string) : string :=
  match s with
  | EmptyString => EmptyString
  | String c r => if p c then String c (filter_string p r) else filter_string p r
  end.

Fixpoint forall_string (p : ascii -> bool) (s : string) : bool :=
  match s with
  | EmptyString => true
  | String c r => p c && forall_string p r
  end.

(** [s.toUpperCase()], [s.toLowerCase()] *)
Definition toUpperCase (s : string) : string := map_string upper_char s.
Definition toLowerCase (s : string) : string := map_string lower_char s.

Fixpoint trim_start (s : string) : string :=
  match s with
  | EmptyString => EmptyString
  | String c r => if is_space c then trim_start r else s
  end.

Fixpoint trim_end (s : string) : string :=
  match s with
  | EmptyString => EmptyString
  | String c r =>
      match trim_end r with
      | EmptyString => if is_space c then EmptyString else String c EmptyString
      | r' => String c r'
      end
  end.

(** [s.trim()] *)
Definition trim (s : string) : string := trim_end (trim_start s).

Definition strlen (s : string) : Z := Z.of_nat (String.length s).

(** [hay.includes(needle)] on strings *)
Fixpoint str_includes (hay needle : string) : bool :=
  if prefix needle hay then true
  else match hay with
       | EmptyString => false
       | String _ r => str_includes r needle
       end.

(** [s.split(sep)] for a one-character separator *)
Fixpoint split_aux (sep : ascii) (s : string) (cur : string) : list string :=
  match s with
  | EmptyString => [cur]
  | String c r =>
      if Ascii.eqb c sep then cur :: split_aux sep r EmptyString
      else split_aux sep r (cur ++ String c EmptyString)
  end.
Definition split (sep : ascii) (s : string) : list string := split_aux sep s EmptyString.

Definition space_char : ascii := ascii_of_nat 32.
Definition comma_char : ascii := ascii_of_nat 44.

(** [l.join(sep)] on strings *)
Fixpoint join (sep : string) (l : list string) : string :=
  match l with
  | [] => EmptyString
  | [x] => x
  | x :: r => x ++ sep ++ join sep r
  end.

Definition string_in (s : string) (l : list string) : bool :=
  existsb (String.eqb s) l.

(** [/^[a-zA-Z]+$/.test(w)] *)
Definition all_letters (w : string) : bool :=
  negb (String.eqb w EmptyString) && forall_string is_letter w.

Fixpoint take_letters (s : string) : string * string :=
  match s with
  | EmptyString => (EmptyString, EmptyString)
  | String c r =>
      if is_letter c then let '(w, rest) := take_letters r in (String c w, rest)
      else (EmptyString, s)
  end.

(** [s.match(/[A-Z][a-zA-Z]+/g)]: the list of matches, empty when the
    result is [null].  The fuel is the length of the string. *)
Fixpoint match_caps_aux (fuel : nat) (s : string) : list string :=
  match fuel with
  | O => []
  | S fuel' =>
      match s with
      | EmptyString => []
      | String c r =>
          if is_upper_ascii c then
            match take_letters r with
            | (EmptyString, _) => match_caps_aux fuel' r
            | (w, rest) => String c w :: match_caps_aux fuel' rest
            end
          else match_caps_aux fuel' r
      end
  end.
Definition match_caps (s : string) : list string :=
  match_caps_aux (S (String.length s)) s.

(** [/[A-Z][a-z]+/g]: the capital is followed by lower-case letters only *)
Fixpoint take_lower (s : string) : string * string :=
  match s with
  | EmptyString => (EmptyString, EmptyString)
  | String c r =>
      if is_lower_ascii c then let '(w, rest) := take_lower r in (String c w, rest)
      else (EmptyString, s)
  end.
Fixpoint match_cap_lower_aux (fuel : nat) (s : string) : list string :=
  match fuel with
  | O => []
  | S fuel' =>
      match s with
      | EmptyString => []
      | String c r =>
          if is_upper_ascii c then
            match take_lower r with
            | (EmptyString, _) => match_cap_lower_aux fuel' r
            | (w, rest) => String c w :: match_cap_lower_aux fuel' rest
            end
          else match_cap_lower_aux fuel' r
      end
  end.
Definition match_cap_lower (s : string) : list string :=
  match_cap_lower_aux (S (String.length s)) s.

(** ** Values *)

Inductive value : Type :=
| VUndef
| VNull
| VBool (b : bool)
| VNum (n : Z)
| VStr (s : string)
| VArr (items : list value)
| VObj (fields : list (string * value)).

Definition string_of_Z (n : Z) : string := NilZero.string_of_int (Z.to_int n).

(** String coercion ([String(v)], template literals, [+] with a string).
    Inside [Array.prototype.join], [null] and [undefined] print as the empty
    string. *)
Fixpoint ToString (v : value) : string :=
  match v with
  | VUndef => "undefined"
  | VNull => "null"
  | VBool true => "true"
  | VBool false => "false"
  | VNum n => string_of_Z n
  | VStr s => s
  | VArr items =>
      join "," (map (fun x => match x with
                              | VUndef | VNull => EmptyString
                              | _ => ToString x
                              end) items)
  | VObj _ => "[object Object]"
  end.

(** The element coercion of [Array.prototype.join] *)
Definition join_item (v : value) : string :=
  match v with
  | VUndef | VNull => EmptyString
  | _ => ToString v
  end.

Definition truthy (v : value) : bool :=
  match v with
  | VUndef | VNull => false
  | VBool b => b
  | VNum n => negb (n =? 0)
  | VStr s => negb (String.eqb s EmptyString)
  | VArr _ | VObj _ => true
  end.

(** [a || b], [a && b] *)
Definition js_or (a b : value) : value := if truthy a then a else b.
Definition js_and (a b : value) : value := if truthy a then b else a.

(** [a === b] *)
Definition strict_eq (a b : value) : bool :=
  match a, b with
  | VUndef, VUndef => true
  | VNull, VNull => true
  | VBool x, VBool y => Bool.eqb x y
  | VNum x, VNum y => x =? y
  | VStr x, VStr y => String.eqb x y
  | _, _ => false
  end.

Definition is_string (v : value) : bool := match v with VStr _ => true | _ => false end.
Definition is_boolean (v : value) : bool := match v with VBool _ => true | _ => false end.
Definition is_array (v : value) : bool := match v with VArr _ => true | _ => false end.
Definition is_object (v : value) : bool := match v with VObj _ => true | _ => false end.

Fixpoint assoc (k : string) (fields : list (string * value)) : value :=
  match fields with
  | [] => VUndef
  | (k', v) :: r => if String.eqb k k' then v else assoc k r
  end.

(** [o[k] = v] on an object: overwrite in place or append *)
Fixpoint set_assoc (k : string) (v : value) (fields : list (string * value)) :=
  match fields with
  | [] => [(k, v)]
  | (k', v') :: r => if String.eqb k k' then (k, v) :: r else (k', v') :: set_assoc k v r
  end.

(** Property read [v.k]; [None] is the TypeError raised on [undefined] and
    [null]. *)
Definition get (v : value) (k : string) : option value :=
  match v with
  | VUndef | VNull => None
  | VObj fields => Some (assoc k fields)
  | VArr items => if String.eqb k "length" then Some (VNum (Z.of_nat (List.length items)))
                  else Some VUndef
  | VStr s => if String.eqb k "length" then Some (VNum (strlen s)) else Some VUndef
  | VBool _ | VNum _ => Some VUndef
  end.

(** Indexed read [v[0]] *)
Definition get_first (v : value) : option value :=
  match v with
  | VUndef | VNull => None
  | VArr items => Some (hd VUndef items)
  | VStr s => Some (match s with
                    | EmptyString => VUndef
                    | String c _ => VStr (String c EmptyString)
                    end)
  | VObj fields => Some (assoc "0" fields)
  | VBool _ | VNum _ => Some VUndef
  end.

(** ** JSON.stringify *)

Definition backslash : string := String (ascii_of_nat 92) EmptyString.

Definition hex_digit (n : nat) : string :=
  String (ascii_of_nat (if (n <? 10)%nat then 48 + n else 87 + n)) EmptyString.

Definition escape_char (c : ascii) : string :=
  let n := nat_of_ascii c in
  if (n =? 34)%nat then backslash ++ dquote
  else if (n =? 92)%nat then backslash ++ backslash
  else if (n =? 8)%nat then backslash ++ "b"
  else if (n =? 9)%nat then backslash ++ "t"
  else if (n =? 10)%nat then backslash ++ "n"
  else if (n =? 12)%nat then backslash ++ "f"
  else if (n =? 13)%nat then backslash ++ "r"
  else if (n <? 32)%nat then backslash ++ "u00" ++ hex_digit (n / 16) ++ hex_digit (n mod 16)
  else String c EmptyString.

Fixpoint escape_string (s : string) : string :=
  match s with
  | EmptyString => EmptyString
  | String c r => escape_char c ++ escape_string r
  end.

Definition quote (s : string) : string := dquote ++ escape_string s ++ dquote.

(** [JSON.stringify(v)]: properties holding [undefined] are left out, an
    [undefined] array element prints as [null]. *)
Fixpoint JSON_stringify (v : value) : string :=
  match v with
  | VUndef => "null"
  | VNull => "null"
  | VBool true => "true"
  | VBool false => "false"
  | VNum n => string_of_Z n
  | VStr s => quote s
  | VArr items => "[" ++ join "," (map JSON_stringify items) ++ "]"
  | VObj fields =>
      let fix members (fs : list (string * value)) : list string :=
        match fs with
        | [] => []
        | (_, VUndef) :: r => members r
        | (k, x) :: r => (quote k ++ ":" ++ JSON_stringify x) :: members r
        end in
      "{" ++ join "," (members fields) ++ "}"
  end.

(** ** Completions, the world and the host *)

Inductive JsError : Type :=
| TypeError
| SyntaxError
| NetworkError
| ErrorMsg (message : string).

Inductive Completion (A : Type) : Type :=
| Normal (a : A)
| Return (v : value)
| Throw (e : JsError)
| Continue.
Arguments Normal {A} a.
Arguments Return {A} v.
Arguments Throw {A} e.
Arguments Continue {A}.

(** What a turn does to its surroundings, in order of occurrence. *)
Inductive Event : Type :=
| EInference (label : string)   (* one [fetch] to the inference service *)
| ESleep (ms : Z)               (* an awaited [setTimeout(resolve, ms)] *)
| EStoreAwait (body : value)    (* a storage request whose response is read *)
| EStoreDispatch (body : value) (* a storage request whose response is not read *)
| EGraph (roots : value).       (* [window.updateGraphData(roots)] *)

Record World : Type := mkWorld {
  inference_calls : nat;          (* inference fetches issued so far *)
  store_calls : nat;              (* storage responses read so far *)
  events : list Event;
  currentMood : value;            (* [window.currentMood] *)
  lastRetrievedMemories : value;  (* [window.lastRetrievedMemories] *)
  rawMemories : value             (* [window.rawMemories] *)
}.

(** One [fetch] to the inference service: it rejects (network failure or the
    15 s abort), or answers with a status and a body; [None] is a body on
    which [response.json()] rejects. *)
Inductive InferenceOutcome : Type :=
| FetchRejects
| Responds (status : Z) (body : option value).

(** One awaited storage request followed by [.json()]. *)
Inductive StoreOutcome : Type :=
| StoreUnreachable
| StoreBodyInvalid
| StoreAnswers (body : value).

Record Host : Type := mkHost {
  JSON_parse : string -> option value;     (* [None]: SyntaxError *)
  StringToNumber : string -> option Z;     (* [None]: NaN *)
  inference : nat -> InferenceOutcome;
  storage : nat -> StoreOutcome;
  appsScriptUrl : value;                   (* [localStorage.getItem(...)] *)
  updateGraphData_defined : bool           (* [window.updateGraphData] *)
}.

Definition M (A : Type) : Type := World -> Completion A * World.

Definition ret {A} (a : A) : M A := fun w => (Normal a, w).
Definition throw {A} (e : JsError) : M A := fun w => (Throw e, w).
Definition return_ {A} (v : value) : M A := fun w => (Return v, w).
Definition continue_ {A} : M A := fun w => (Continue, w).

Definition bind {A B} (m : M A) (f : A -> M B) : M B :=
  fun w =>
    match m w with
    | (Normal a, w') => f a w'
    | (Return v, w') => (Return v, w')
    | (Throw e, w') => (Throw e, w')
    | (Continue, w') => (Continue, w')
    end.

Notation "x <- m ;; k" := (bind m (fun x => k))
  (at level 100, m at next level, right associativity).
Notation "m ;;; k" := (bind m (fun _ => k))
  (at level 100, right associativity).

(** [try { m } catch (e) { h e }] *)
Definition try_catch {A} (m : M A) (h : JsError -> M A) : M A :=
  fun w =>
    match m w with
    | (Throw e, w') => h e w'
    | r => r
    end.

(** A function call: [return v] yields [v], falling off the end yields
    [undefined]. *)
Definition call_function (body : M unit) : M value :=
  fun w =>
    match body w with
    | (Normal _, w') => (Normal VUndef, w')
    | (Return v, w') => (Normal v, w')
    | (Throw e, w') => (Throw e, w')
    | (Continue, w') => (Normal VUndef, w')
    end.

(** A value or a TypeError *)
Definition orTypeError {A} (o : option A) : M A :=
  match o with
  | Some a => ret a
  | None => throw TypeError
  end.

Definition emit (e : Event) : M unit :=
  fun w => (Normal tt,
            mkWorld (inference_calls w) (store_calls w) (events w ++ [e])
                    (currentMood w) (lastRetrievedMemories w) (rawMemories w)).

(** ** The retry engine *)

Definition MAX_RETRIES : Z := 3.

Section Engine.
Variable host : Host.

(** [await fetch("https://openrouter.ai/...")] followed by
    [clearTimeout] *)
Definition fetch_inference (label : string) : M (Z * option value) :=
  fun w =>
    let w' := mkWorld (S (inference_calls w)) (store_calls w)
                      (events w ++ [EInference label])
                      (currentMood w) (lastRetrievedMemories w) (rawMemories w) in
    match inference host (inference_calls w) with
    | FetchRejects => (Throw NetworkError, w')
    | Responds status body => (Normal (status, body), w')
    end.

Definition response_ok (status : Z) : bool := (200 <=? status) && (status <=? 299).

(** [data.choices[0].message.content] *)
Definition message_content (data : value) : option value :=
  match get data "choices" with
  | None => None
  | Some choices =>
      match get_first choices with
      | None => None
      | Some choice =>
          match get choice "message" with
          | None => None
          | Some message => get message "content"
          end
      end
  end.

(** The "Safe Mode" object returned after the last failed attempt. *)
Definition safe_mode_text : string :=
  "{" ++ dquote ++ "mood" ++ dquote ++ ":" ++ dquote ++ "NEUTRAL" ++ dquote ++ ","
      ++ dquote ++ "response" ++ dquote ++ ":" ++ dquote ++ "..." ++ dquote ++ "}".
Definition safe_mode_parsed : value :=
  VObj [("mood", VStr "NEUTRAL"); ("response", VStr "...")].
Definition safe_mode : value :=
  VObj [("parsed", safe_mode_parsed); ("cleaned", VStr safe_mode_text)].

(** The body of the [try] block: it leaves by [return] or by [throw]. *)
Definition try_block (validatorFn : value -> option value) (label : string) : M unit :=
  response <- fetch_inference label ;;
  let '(status, body) := response in
  if negb (response_ok status) then
    if (status =? 401) || (status =? 403) then
      throw (ErrorMsg ("CRITICAL AUTH ERROR " ++ string_of_Z status ++ ": Check API Key."))
    else throw (ErrorMsg ("API Error " ++ string_of_Z status))
  else
    data <- match body with
            | Some data => ret data
            | None => throw SyntaxError
            end ;;
    parsedContent <-
      try_catch
        (content <- orTypeError (message_content data) ;;
         match JSON_parse host (ToString content) with
         | Some parsed => ret parsed
         | None => throw SyntaxError
         end)
        (fun jsonErr =>
           orTypeError (message_content data) ;;;
           throw (ErrorMsg "Invalid JSON structure received")) ;;
    verdict <- orTypeError (validatorFn parsedContent) ;;
    if truthy verdict then
      content <- orTypeError (message_content data) ;;
      return_ (VObj [("raw", data); ("parsed", parsedContent); ("cleaned", content)])
    else throw (ErrorMsg "Validation Failed").

Definition sleep (ms : Z) : M unit := emit (ESleep ms).

(** One turn of the [while] loop; the result is the new value of
    [attempts] and [delay]. *)
Definition loop_body (validatorFn : value -> option value) (label : string)
           (attempts delay : Z) : M (Z * Z) :=
  try_catch
    (try_block validatorFn label ;;; ret (attempts, delay))
    (fun error =>
       let attempts := attempts + 1 in
       if MAX_RETRIES <=? attempts then return_ safe_mode
       else
         sleep delay ;;;
         let delay := delay * 2 in
         ret (attempts, delay)).

Fixpoint while_loop (fuel : nat) (validatorFn : value -> option value) (label : string)
         (attempts delay : Z) : M unit :=
  match fuel with
  | O => ret tt
  | S fuel' =>
      if attempts <? MAX_RETRIES then
        st <- loop_body validatorFn label attempts delay ;;
        while_loop fuel' validatorFn label (fst st) (snd st)
      else ret tt
  end.

(** [fetchWithCognitiveRetry(messages, model, apiKey, validatorFn, label)].
    Every turn of the loop that does not return adds one to [attempts], so
    [MAX_RETRIES] turns of fuel are never used up (see
    [fetchWithCognitiveRetry_outcome]). *)
Definition fetchWithCognitiveRetry (validatorFn : value -> option value)
           (label : string) : M value :=
  call_function (while_loop (Z.to_nat MAX_RETRIES) validatorFn label 0 1000).

End Engine.

(** ** The validators handed to the engine, one per call site *)

Definition typeof_boolean (v : value) : value := VBool (is_boolean v).
Definition Array_isArray (v : value) : value := VBool (is_array v).

Notation "'let?' x := m 'in' k" :=
  (match m with Some x => k | None => None end)
  (at level 10, x name, m at level 100, k at level 200).

(** [(d) => d.intent] *)
Definition validator_intent (d : value) : option value := get d "intent".
(** [(d) => Array.isArray(d.matches)] *)
Definition validator_matches (d : value) : option value :=
  let? m := get d "matches" in Some (Array_isArray m).
(** [(d) => d.response] *)
Definition validator_response (d : value) : option value := get d "response".
(** [(d) => typeof d.is_duplicate === 'boolean'] *)
Definition validator_is_duplicate (d : value) : option value :=
  let? x := get d "is_duplicate" in Some (typeof_boolean x).
(** [(d) => d.status] *)
Definition validator_status (d : value) : option value := get d "status".
(** [(data) => Array.isArray(data.search_keywords) ||
                typeof data.search_keywords === 'string'] *)
Definition validator_search_keywords (data : value) : option value :=
  let? k := get data "search_keywords" in
  Some (js_or (Array_isArray k) (VBool (is_string k))).
(** [(d) => typeof d.valid === 'boolean'] *)
Definition validator_valid (d : value) : option value :=
  let? x := get d "valid" in Some (typeof_boolean x).
(** [(data) => data.response && data.mood] *)
Definition validator_response_mood (data : value) : option value :=
  let? r := get data "response" in
  if truthy r then get data "mood" else Some r.
(** [(d) => typeof d.is_redundant === 'boolean'] *)
Definition validator_is_redundant (d : value) : option value :=
  let? x := get d "is_redundant" in Some (typeof_boolean x).

(** The call sites of [fetchWithCognitiveRetry], by label. *)
Inductive CallSite : Type :=
| DirectorAI | DirectorFilter | DirectorContextChat | DirectorDedup
| DirectorAmbiguity | HybridAnalysis | Timekeeper | Interceptor
| Generation | RedundancyCheck | CorrectionGeneration | DedupRefine.

Definition label_of (c : CallSite) : string :=
  match c with
  | DirectorAI => "DirectorAI"
  | DirectorFilter => "DirectorFilter"
  | DirectorContextChat => "DirectorContextChat"
  | DirectorDedup => "DirectorDedup"
  | DirectorAmbiguity => "DirectorAmbiguity"
  | HybridAnalysis => "Hybrid Analysis"
  | Timekeeper => "Timekeeper"
  | Interceptor => "Interceptor"
  | Generation => "Generation"
  | RedundancyCheck => "RedundancyCheck"
  | CorrectionGeneration => "CorrectionGeneration"
  | DedupRefine => "DedupRefine"
  end.

Definition validator_of (c : CallSite) : value -> option value :=
  match c with
  | DirectorAI => validator_intent
  | DirectorFilter => validator_matches
  | DirectorContextChat => validator_response
  | DirectorDedup => validator_is_duplicate
  | DirectorAmbiguity => validator_status
  | HybridAnalysis => validator_search_keywords
  | Timekeeper => validator_valid
  | Interceptor => validator_response
  | Generation => validator_response_mood
  | RedundancyCheck => validator_is_redundant
  | CorrectionGeneration => validator_response
  | DedupRefine => validator_status
  end.

(** ** Array and string methods on values; [None] is a TypeError *)

Fixpoint map_opt {A B} (f : A -> option B) (l : list A) : option (list B) :=
  match l with
  | [] => Some []
  | x :: r => let? y := f x in let? ys := map_opt f r in Some (y :: ys)
  end.

Fixpoint filter_opt {A} (p : A -> option bool) (l : list A) : option (list A) :=
  match l with
  | [] => Some []
  | x :: r =>
      let? b := p x in
      let? ys := filter_opt p r in
      Some (if b then x :: ys else ys)
  end.

(** [l.some(p)]: stops at the first element that satisfies [p] *)
Fixpoint some_opt {A} (p : A -> option bool) (l : list A) : option bool :=
  match l with
  | [] => Some false
  | x :: r =>
      let? b := p x in
      if b then Some true else some_opt p r
  end.

(** The receiver of an array method *)
Definition as_array (v : value) : option (list value) :=
  match v with VArr items => Some items | _ => None end.
(** The receiver of a string method *)
Definition as_string (v : value) : option string :=
  match v with VStr s => Some s | _ => None end.

(** [v.join(sep)] *)
Definition js_join (sep : string) (v : value) : option string :=
  let? items := as_array v in Some (join sep (map join_item items)).

(** [v.toLowerCase()] *)
Definition js_toLowerCase (v : value) : option string :=
  let? s := as_string v in Some (toLowerCase s).

(** [v.includes(x)] on an array or a string *)
Definition js_includes (v x : value) : option bool :=
  match v with
  | VArr items => Some (existsb (strict_eq x) items)
  | VStr s => Some (str_includes s (ToString x))
  | _ => None
  end.

(** [[...new Set(l)]]: first occurrences, in order *)
Fixpoint set_of (l : list value) (seen : list value) : list value :=
  match l with
  | [] => []
  | x :: r =>
      if existsb (strict_eq x) seen then set_of r seen
      else x :: set_of r (seen ++ [x])
  end.

(** [a.concat(v)]: an array argument is spread, any other value is
    appended. *)
Definition js_concat (a : list value) (v : value) : list value :=
  match v with
  | VArr items => a ++ items
  | _ => a ++ [v]
  end.

Definition str_values (l : list string) : list value := map VStr l.

(** The reply envelope [{ ...extra, choices: [{ message: { content } }] }] *)
Definition envelope (extra : list (string * value)) (content : value) : value :=
  VObj (extra ++ [("choices", VArr [VObj [("message", VObj [("content", content)])]])]).

(** [JSON.stringify({ response, mood })] *)
Definition payload (response mood : value) : value :=
  VStr (JSON_stringify (VObj [("response", response); ("mood", mood)])).

Record ChatMessage : Type := mkMsg { role : string; content : string }.

(** ** The pipeline *)

Section Pipeline.
Variable host : Host.

(** Number coercion; [None] is NaN. *)
Definition ToNumber (v : value) : option Z :=
  match v with
  | VUndef => None
  | VNull => Some 0
  | VBool b => Some (if b then 1 else 0)
  | VNum n => Some n
  | VStr s => StringToNumber host s
  | VArr _ | VObj _ => StringToNumber host (ToString v)
  end.

(** [v > n] and [v < n] against a number literal *)
Definition js_gt (v : value) (n : Z) : bool :=
  match ToNumber v with Some k => n <? k | None => false end.
Definition js_lt (v : value) (n : Z) : bool :=
  match ToNumber v with Some k => k <? n | None => false end.

Definition store_configured : bool := truthy (appsScriptUrl host).

(** [fetch(appsScriptUrl, { ..., body: JSON.stringify(body) })] whose
    response is not read. *)
Definition store_dispatch (body : value) : M unit := emit (EStoreDispatch body).

(** [const req = await fetch(appsScriptUrl, ...);
     const res = await req.json();] *)
Definition store_request (body : value) : M value :=
  fun w =>
    let w' := mkWorld (inference_calls w) (S (store_calls w))
                      (events w ++ [EStoreAwait body])
                      (currentMood w) (lastRetrievedMemories w) (rawMemories w) in
    match storage host (store_calls w) with
    | StoreUnreachable => (Throw NetworkError, w')
    | StoreBodyInvalid => (Throw SyntaxError, w')
    | StoreAnswers res => (Normal res, w')
    end.

Definition retrieve_director_memory (keywords : value) : value :=
  VObj [("action", VStr "retrieve_director_memory"); ("keywords", keywords)].

(** [res.found && res.relevant_memories.length > 0]; the memories are
    handed back when the test holds. *)
Definition found_memories (res : value) : option (option value) :=
  let? found := get res "found" in
  if truthy found then
    let? memories := get res "relevant_memories" in
    let? len := get memories "length" in
    Some (if js_gt len 0 then Some memories else None)
  else Some None.

(** *** Director mode, CHAT *)

(** [allMemories.forEach(m => { if (m.Entity) foundEntities.add(m.Entity) })] *)
Fixpoint collect_entities (memories : list value) (found : list value)
  : option (list value) :=
  match memories with
  | [] => Some found
  | m :: r =>
      let? e := get m "Entity" in
      if truthy e && negb (existsb (strict_eq e) found)
      then collect_entities r (found ++ [e])%list
      else collect_entities r found
  end.

(** [allMemories.find(m => m.Entity === a)?.Fact || ""], for an entity [a]
    that is a primitive; an entity that is an object finds no memory here,
    where the code finds the memory it was taken from. *)
Fixpoint fact_of (memories : list value) (a : value) : option value :=
  match memories with
  | [] => Some (VStr EmptyString)
  | m :: r =>
      let? e := get m "Entity" in
      if strict_eq e a then
        let? fact := get m "Fact" in Some (js_or fact (VStr EmptyString))
      else fact_of r a
  end.

(** [positive_constraints.some(k =>
      mem.toLowerCase().includes(k.toLowerCase())) ? 1 : 0] *)
Definition trait_score (positive_constraints : value) (memories : list value)
           (a : value) : option bool :=
  let? mem := fact_of memories a in
  let? ks := as_array positive_constraints in
  some_opt (fun k =>
              let? lowered := js_toLowerCase mem in
              let? lk := js_toLowerCase k in
              Some (str_includes lowered lk)) ks.

(** [drillDownTargets.sort((a, b) => scoreB - scoreA)]: the sort is stable
    and the key has two values, so the targets scoring 1 come first, each
    group in its former order.  The comparator runs only when there are at
    least two targets, and then it scores every target. *)
Definition sort_targets (positive_constraints : value) (memories : list value)
           (targets : list value) : option (list value) :=
  match targets with
  | [] | [_] => Some targets
  | _ =>
      let? scored := map_opt (fun a =>
                        let? s := trait_score positive_constraints memories a in
                        Some (a, s)) targets in
      Some (map fst (filter (fun p => snd p) scored)
            ++ map fst (filter (fun p => negb (snd p)) scored))%list
  end.

(** [drillRes.relevant_memories.forEach(m => {
      if (!existingIds.has(m.Fact)) allMemories.push(m) })] *)
Fixpoint merge_new (existingIds : list value) (fresh : list value)
         (allMemories : list value) : option (list value) :=
  match fresh with
  | [] => Some allMemories
  | m :: r =>
      let? fact := get m "Fact" in
      if existsb (strict_eq fact) existingIds
      then merge_new existingIds r allMemories
      else merge_new existingIds r (allMemories ++ [m])%list
  end.

Definition need_more_specifics : value :=
  envelope [] (payload (VStr "I need more specific names or traits to search the archive.")
                       (VStr "CRYPTIC")).

(** The body of the [try] block of the CHAT case. *)
Definition chat_retrieval (positive_constraints : value) : M unit :=
  contextRes <- store_request (retrieve_director_memory positive_constraints) ;;
  hit <- orTypeError (found_memories contextRes) ;;
  match hit with
  | Some relevant =>
      allMemories <- orTypeError (as_array relevant) ;;
      foundEntities <- orTypeError (collect_entities allMemories []) ;;
      targets <- orTypeError
        (filter_opt (fun e => let? b := js_includes positive_constraints e in
                              Some (negb b)) foundEntities) ;;
      sorted <- orTypeError (sort_targets positive_constraints allMemories targets) ;;
      let drillDownTargets := firstn 15 sorted in
      allMemories <-
        (if (0 <? Z.of_nat (List.length drillDownTargets)) then
           drillRes <- store_request (retrieve_director_memory (VArr drillDownTargets)) ;;
           more <- orTypeError (found_memories drillRes) ;;
           match more with
           | Some fresh =>
               existingIds <- orTypeError (map_opt (fun m => get m "Fact") allMemories) ;;
               freshItems <- orTypeError (as_array fresh) ;;
               orTypeError (merge_new (set_of existingIds []) freshItems allMemories)
           | None => ret allMemories
           end
         else ret allMemories) ;;
      orTypeError (map_opt (fun m => get m "Entity") allMemories) ;;;
      filterCheck <- fetchWithCognitiveRetry host validator_matches "DirectorFilter" ;;
      filtered <- orTypeError (get filterCheck "parsed") ;;
      matches <- orTypeError (get filtered "matches") ;;
      let validMatches := js_or matches (VArr []) in
      orTypeError (js_join ", " validMatches) ;;;
      secondPass <- fetchWithCognitiveRetry host validator_response "DirectorContextChat" ;;
      second <- orTypeError (get secondPass "parsed") ;;
      response <- orTypeError (get second "response") ;;
      len <- orTypeError (get validMatches "length") ;;
      let extraPayload :=
        if js_gt len 0
        then [("directorAction", VStr "SHOW_DECKS"); ("deckKeywords", validMatches)]
        else [] in
      return_ (envelope extraPayload (payload response (VStr "CRYPTIC")))
  | None =>
      listed <- orTypeError (js_join ", " positive_constraints) ;;
      return_ (envelope []
                 (payload (VStr ("I searched the archives for " ++ listed
                                 ++ " but found no records."))
                          (VStr "SAD")))
  end.

Definition director_chat (aiRes : value) : M unit :=
  positive_constraints <- orTypeError (get aiRes "positive_constraints") ;;
  (if truthy positive_constraints then
     len <- orTypeError (get positive_constraints "length") ;;
     if js_gt len 0 && store_configured then
       try_catch (chat_retrieval positive_constraints) (fun e => ret tt)
     else ret tt
   else ret tt) ;;;
  return_ need_more_specifics.

(** *** Director mode, STORE *)

(** The lookup keys: entity name, then the positive constraints, else the
    capitalised words of the fact; deduplicated, and only keys that are
    truthy and longer than one. *)
Definition lookup_keys (aiRes : value) : option (list value) :=
  let? entity_name := get aiRes "entity_name" in
  let? positive_constraints := get aiRes "positive_constraints" in
  let? fact_to_store := get aiRes "fact_to_store" in
  let keys := if truthy entity_name then [entity_name] else [] in
  let keys := if truthy positive_constraints
              then js_concat keys positive_constraints else keys in
  let? keys :=
    (if (Z.of_nat (List.length keys) =? 0) && truthy fact_to_store then
       let? fact := as_string fact_to_store in
       Some (str_values (match_cap_lower fact))
     else Some keys) in
  filter_opt (fun k =>
                if truthy k then let? len := get k "length" in Some (js_gt len 1)
                else Some false)
             (set_of keys []).

(** The body of the [try] block of the STORE case; the result is
    [isDuplicate], [isContradiction] and [contradictionWarning]. *)
Definition dedup_check (lookupKeys : list value) : M (bool * bool * value) :=
  if 0 <? Z.of_nat (List.length lookupKeys) then
    checkRes <- store_request (retrieve_director_memory (VArr lookupKeys)) ;;
    hit <- orTypeError (found_memories checkRes) ;;
    match hit with
    | Some relevant =>
        items <- orTypeError (as_array relevant) ;;
        orTypeError (map_opt (fun m => let? e := get m "Entity" in get m "Fact") items) ;;;
        dedupCheck <- fetchWithCognitiveRetry host validator_is_duplicate "DirectorDedup" ;;
        verdict <- orTypeError (get dedupCheck "parsed") ;;
        is_duplicate <- orTypeError (get verdict "is_duplicate") ;;
        is_contradiction <- orTypeError (get verdict "is_contradiction") ;;
        warning_message <- orTypeError (get verdict "warning_message") ;;
        ret (truthy is_duplicate, truthy is_contradiction,
             if truthy is_contradiction then warning_message else VStr EmptyString)
    | None => ret (false, false, VStr EmptyString)
    end
  else ret (false, false, VStr EmptyString).

Definition director_store (aiRes : value) : M unit :=
  lookupKeys <- orTypeError (lookup_keys aiRes) ;;
  flags <- try_catch (dedup_check lookupKeys)
                     (fun e => ret (false, false, VStr EmptyString)) ;;
  let '(isDuplicate, isContradiction, contradictionWarning) := flags in
  if isDuplicate then
    return_ (envelope [] (payload (VStr "I already have that recorded in the archives.")
                                  (VStr "NEUTRAL")))
  else if isContradiction then
    return_ (envelope []
               (payload (VStr (ToString contradictionWarning
                               ++ " Shall I overwrite the old data?"))
                        (VStr "QUESTION")))
  else
    fact <- orTypeError (get aiRes "fact_to_store") ;;
    entity <- orTypeError (get aiRes "entity_name") ;;
    store_dispatch (VObj [("action", VStr "store_director_fact");
                          ("fact", fact); ("entity", entity);
                          ("tags", VStr "Metadata")]) ;;;
    response <- orTypeError (get aiRes "response") ;;
    return_ (envelope []
               (VStr (JSON_stringify
                        (VObj [("response", js_or response (VStr "Database Updated."))])))).

(** *** Director mode, SEARCH *)

(** [(f.name + " " + (f.description || "")).toLowerCase()] *)
Definition file_meta (f : value) : option string :=
  let? name := get f "name" in
  let? description := get f "description" in
  Some (toLowerCase (ToString name ++ " "
                     ++ ToString (js_or description (VStr EmptyString)))).

(** [excludeKeywords.some(ex => meta.includes(ex.toLowerCase()))] *)
Definition mentions_excluded (excludeKeywords : value) (meta : string) : option bool :=
  let? exs := as_array excludeKeywords in
  some_opt (fun ex => let? lowered := js_toLowerCase ex in
                      Some (str_includes meta lowered)) exs.

(** The callback of [searchRes.files.filter] *)
Definition keep_file (excludeKeywords : value) (f : value) : option bool :=
  let? meta := file_meta f in
  let? hit := mentions_excluded excludeKeywords meta in
  Some (negb hit).

(** FIX 4, client-side negative constraint enforcement: the search result
    after filtering. *)
Definition enforce_excludes (excludeKeywords searchRes : value) : option value :=
  let? found := get searchRes "found" in
  let? exlen := get excludeKeywords "length" in
  if truthy found && js_gt exlen 0 then
    let? files := get searchRes "files" in
    let? originalCount := get files "length" in
    let? items := as_array files in
    let? kept := filter_opt (keep_file excludeKeywords) items in
    match searchRes with
    | VObj fields =>
        let fields := set_assoc "files" (VArr kept) fields in
        if (Z.of_nat (List.length kept) =? 0) && js_gt originalCount 0
        then Some (VObj (set_assoc "found" (VBool false) fields))
        else Some (VObj fields)
    | _ => Some searchRes
    end
  else Some searchRes.

(** FIX 1, cooperative fallback, and the final return of the SEARCH
    case. *)
Definition search_reply (aiRes finalKeywords searchRes : value) : M unit :=
  found <- orTypeError (get searchRes "found") ;;
  fklen <- orTypeError (get finalKeywords "length") ;;
  if negb (truthy found) && js_gt fklen 1 then
    listed <- orTypeError (js_join " and " finalKeywords) ;;
    let fallbackResponse :=
      "I couldn't find a single scene with BOTH " ++ listed
      ++ ". However, I can likely access their individual footage. Which one should I prioritize?" in
    return_ (envelope [("directorAction", VStr "SHOW_DECKS");
                       ("deckKeywords", finalKeywords);
                       ("files", VArr [])]
                      (payload (VStr fallbackResponse) (VStr "QUESTION")))
  else
    files <- orTypeError (get searchRes "files") ;;
    debug_query <- orTypeError (get searchRes "debug_query") ;;
    response <- orTypeError (get aiRes "response") ;;
    return_ (envelope [("directorAction", VStr "PLAY_MEDIA");
                       ("files", files);
                       ("debug_query", debug_query)]
                      (payload (if truthy found
                                then js_or response (VStr "Archive accessed.")
                                else VStr "No matching footage found.")
                               (VStr (if truthy found then "CRYPTIC" else "SAD")))).

(** The ambiguity check; the result is the final list of positive
    constraints. *)
Definition ambiguity_check (finalKeywords : value) : M value :=
  len <- orTypeError (get finalKeywords "length") ;;
  if js_gt len 0 then
    identityRes <- store_request (retrieve_director_memory finalKeywords) ;;
    hit <- orTypeError (found_memories identityRes) ;;
    match hit with
    | Some relevant =>
        items <- orTypeError (as_array relevant) ;;
        orTypeError (map_opt (fun m => match m with
                                       | VNull => None
                                       | VObj _ => get m "Entity"
                                       | _ => Some m
                                       end) items) ;;;
        orTypeError (js_join ", " finalKeywords) ;;;
        ambiguityCheck <- fetchWithCognitiveRetry host validator_status "DirectorAmbiguity" ;;
        verdict <- orTypeError (get ambiguityCheck "parsed") ;;
        status <- orTypeError (get verdict "status") ;;
        if strict_eq status (VStr "AMBIGUOUS") then
          question <- orTypeError (get verdict "clarification_question") ;;
          return_ (envelope [] (payload question (VStr "QUESTION")))
        else if strict_eq status (VStr "RESOLVED") then
          resolved_names <- orTypeError (get verdict "resolved_names") ;;
          rlen <- orTypeError (get resolved_names "length") ;;
          ret (if js_gt rlen 0 then resolved_names else finalKeywords)
        else ret finalKeywords
    | None => ret finalKeywords
    end
  else ret finalKeywords.

Definition director_search (userText : string) (aiRes : value) : M unit :=
  positive_constraints <- orTypeError (get aiRes "positive_constraints") ;;
  negative_constraints <- orTypeError (get aiRes "negative_constraints") ;;
  let finalKeywords := js_or positive_constraints (VArr []) in
  let excludeKeywords := js_or negative_constraints (VArr []) in
  finalKeywords <- ambiguity_check finalKeywords ;;
  searchRes <- store_request (VObj [("action", VStr "director_search");
                                    ("query", VStr userText);
                                    ("constraints", finalKeywords);
                                    ("exclude_constraints", excludeKeywords)]) ;;
  searchRes <- orTypeError (enforce_excludes excludeKeywords searchRes) ;;
  search_reply aiRes finalKeywords searchRes.

(** *** Director mode *)

Definition director_mode (userText : string) : M unit :=
  result <- fetchWithCognitiveRetry host validator_intent "DirectorAI" ;;
  aiRes <- orTypeError (get result "parsed") ;;
  intent <- orTypeError (get aiRes "intent") ;;
  (if strict_eq intent (VStr "CHAT") then director_chat aiRes else ret tt) ;;;
  (if strict_eq intent (VStr "STORE") && store_configured then director_store aiRes
   else if strict_eq intent (VStr "SEARCH") && store_configured
        then director_search userText aiRes
        else ret tt) ;;;
  response <- orTypeError (get aiRes "response") ;;
  return_ (envelope [] (payload response (VStr "CRYPTIC"))).

(** *** Standard mode, step 1: analysis *)

Definition default_analysis : value :=
  VObj [("search_keywords", VArr []); ("entries", VArr [])].

(** [o.k = x]: kept on objects; a property written on an array or on a
    primitive is not kept. *)
Definition set_field (o : value) (k : string) (x : value) : value :=
  match o with
  | VObj fields => VObj (set_assoc k x fields)
  | _ => o
  end.

(** The [try] block assigns [analysis] before it reads
    [analysis.search_keywords], so a failure of that read leaves the
    assigned value in place. *)
Definition analysis_stage : M value :=
  try_catch
    (synthResult <- fetchWithCognitiveRetry host validator_search_keywords "Hybrid Analysis" ;;
     analysis <- orTypeError (get synthResult "parsed") ;;
     try_catch
       (keywords <- orTypeError (get analysis "search_keywords") ;;
        match keywords with
        | VStr s =>
            ret (set_field analysis "search_keywords"
                           (VArr (str_values (map trim (split comma_char s)))))
        | _ => ret analysis
        end)
       (fun e => ret analysis))
    (fun e => ret default_analysis).

(** *** Standard mode, step 2: the Timekeeper and the interceptor *)

(** The values a [for ... of] loop visits. *)
Fixpoint chars (s : string) : list value :=
  match s with
  | EmptyString => []
  | String c r => VStr (String c EmptyString) :: chars r
  end.
Definition iterate (v : value) : option (list value) :=
  match v with
  | VArr items => Some items
  | VStr s => Some (chars s)
  | _ => None
  end.

(** [JSON.stringify(safePayload)] *)
Definition safePayload (response : value) : value :=
  VStr (JSON_stringify (VObj [("response", response);
                              ("mood", VStr "CURIOUS");
                              ("roots", VArr [])])).

(** The body of the [try] block for one entry: the entry to keep, or the
    interception reply by [return]. *)
Definition timekeeper_check (entry : value) : M value :=
  timeResult <- fetchWithCognitiveRetry host validator_valid "Timekeeper" ;;
  verdict <- orTypeError (get timeResult "parsed") ;;
  valid <- orTypeError (get verdict "valid") ;;
  if truthy valid then
    rewritten_fact <- orTypeError (get verdict "rewritten_fact") ;;
    fact <- orTypeError (get entry "fact") ;;
    ret (set_field entry "fact" (js_or rewritten_fact fact))
  else
    orTypeError (get entry "fact") ;;;
    intercept <- fetchWithCognitiveRetry host validator_response "Interceptor" ;;
    asked <- orTypeError (get intercept "parsed") ;;
    response <- orTypeError (get asked "response") ;;
    return_ (envelope [] (safePayload response)).

Fixpoint timekeeper_loop (entries : list value) (validEntries : list value)
  : M (list value) :=
  match entries with
  | [] => ret validEntries
  | entry :: rest =>
      importance <- orTypeError (get entry "importance") ;;
      if js_lt importance 4 then
        timekeeper_loop rest (validEntries ++ [entry])
      else
        kept <- try_catch (timekeeper_check entry) (fun e => ret entry) ;;
        timekeeper_loop rest (validEntries ++ [kept])
  end.

(** [analysis.entries && analysis.entries.length > 0] *)
Definition has_entries (analysis : value) : option (option value) :=
  let? entries := get analysis "entries" in
  if truthy entries then
    let? len := get entries "length" in
    Some (if js_gt len 0 then Some entries else None)
  else Some None.

Definition timekeeper_stage (analysis : value) : M value :=
  some_entries <- orTypeError (has_entries analysis) ;;
  match some_entries with
  | Some entries =>
      items <- orTypeError (iterate entries) ;;
      validEntries <- timekeeper_loop items [] ;;
      ret (set_field analysis "entries" (VArr validEntries))
  | None => ret analysis
  end.

(** *** Standard mode, step 3: global retrieval *)

Definition stopWords : list string :=
  ["no"; "yes"; "nope"; "yeah"; "dont"; "know"; "what"; "when"; "where"; "who"; "why"; "i"].

Definition is_lower_or_space (c : ascii) : bool :=
  is_lower_ascii c || Ascii.eqb c space_char.

(** [w.charAt(0).toUpperCase() + w.slice(1)] *)
Definition capitalise (w : string) : string :=
  match w with
  | EmptyString => EmptyString
  | String c r => String (upper_char c) r
  end.

Definition titleCase (userText : string) : string :=
  join " " (map capitalise (split space_char (toLowerCase userText))).

(** [history.filter(h => h.role === r)] *)
Definition with_role (r : string) (history : list ChatMessage) : list ChatMessage :=
  filter (fun h => String.eqb (role h) r) history.

(** [lastAi.content.split(" ")
       .filter(w => w.length > 5 && /^[a-zA-Z]+$/.test(w)).slice(0, 2)] *)
Definition stickyWords (lastAi : ChatMessage) : list string :=
  firstn 2 (filter (fun w => (5 <? strlen w) && all_letters w)
                   (split space_char (content lastAi))).

Definition anchor_stop : list string :=
  ["Who"; "What"; "Where"; "When"; "Why"; "How"; "I"; "No"; "Yes"; "I'm"].

(** The backward scan over the user turns: the capitalised words of the
    first turn that has any. *)
Fixpoint deep_anchor (latest_first : list ChatMessage) : list string :=
  match latest_first with
  | [] => []
  | msg :: older =>
      match filter (fun w => negb (string_in w anchor_stop)) (match_caps (content msg)) with
      | [] => deep_anchor older
      | validCaps => validCaps
      end
  end.

Definition fallback_stop : list string := ["what"; "when"; "where"; "dont"; "know"].

(** [searchKeys.concat(words)]: arrays and strings have the method. *)
Definition concat_words (searchKeys : value) (words : list string) : option value :=
  match searchKeys with
  | VArr items => Some (VArr (items ++ str_values words))
  | VStr s => Some (VStr (s ++ join "," words))
  | _ => None
  end.

Definition search_keys (userText : string) (history : list ChatMessage)
           (isQuestionMode : bool) (analysis : value) : option (list value) :=
  let? keywords := get analysis "search_keywords" in
  let searchKeys := js_or keywords (VArr []) in
  let? searchKeys :=
    (if strlen userText <? 50 then
       let cleanText := trim (filter_string is_lower_or_space (toLowerCase userText)) in
       if negb (string_in cleanText stopWords) && (0 <? strlen cleanText) then
         let? items := as_array searchKeys in
         Some (VArr (VStr (titleCase userText) :: items))
       else Some searchKeys
     else Some searchKeys) in
  let? searchKeys :=
    (if 0 <? Z.of_nat (List.length history) then
       let? searchKeys :=
         match rev (with_role "assistant" history) with
         | lastAi :: _ => concat_words searchKeys (stickyWords lastAi)
         | [] => Some searchKeys
         end in
       if isQuestionMode || (strlen userText <? 30) then
         match deep_anchor (firstn 5 (rev (with_role "user" history))) with
         | [] => Some searchKeys
         | validCaps => concat_words searchKeys validCaps
         end
       else Some searchKeys
     else Some searchKeys) in
  let? items := iterate searchKeys in
  let? searchKeys :=
    filter_opt (fun w => if truthy w then let? len := get w "length" in Some (js_gt len 2)
                         else Some false)
               (set_of items []) in
  match searchKeys with
  | [] => Some (str_values
                  (filter (fun w => (3 <? strlen w) && negb (string_in w fallback_stop))
                          (split space_char userText)))
  | _ => Some searchKeys
  end.

Definition set_memories (context memories : value) : M unit :=
  fun w => (Normal tt,
            mkWorld (inference_calls w) (store_calls w) (events w)
                    (currentMood w) context memories).

Definition retrieve (keywords : value) : value :=
  VObj [("action", VStr "retrieve"); ("keywords", keywords)].

Definition retrieval_stage (userText : string) (history : list ChatMessage)
           (isQuestionMode : bool) (analysis : value) : M unit :=
  if store_configured then
    searchKeys <- orTypeError (search_keys userText history isQuestionMode analysis) ;;
    try_catch
      (memRes <- store_request (retrieve (VArr searchKeys)) ;;
       found <- orTypeError (get memRes "found") ;;
       if truthy found then
         memories <- orTypeError (get memRes "relevant_memories") ;;
         listed <- orTypeError (js_join newline memories) ;;
         set_memories (VStr ("=== DATABASE SEARCH RESULTS ===" ++ newline ++ listed))
                      memories
       else ret tt)
      (fun e => ret tt)
  else ret tt.

(** *** Standard mode, step 4: generation and the redundancy guard *)

Definition question_stop : list string :=
  ["what"; "when"; "where"; "who"; "why"; "does"; "this"; "that"; "have"].

(** The informative words of the candidate question. *)
Definition responseKeywords (candidateResponse : string) : list string :=
  filter (fun w => negb (string_in (toLowerCase w) question_stop))
         (filter (fun w => (3 <? strlen w) && all_letters w)
                 (split space_char candidateResponse)).

(** The body of the [try] block of the reflexive search; the result is
    the generation result to go on with. *)
Definition reflexive_check (generationResult : value) (keywords : list string) : M value :=
  checkRes <- store_request (retrieve (VArr (str_values keywords))) ;;
  hit <- orTypeError (found_memories checkRes) ;;
  match hit with
  | Some relevant =>
      orTypeError (js_join newline relevant) ;;;
      sanityCheck <- fetchWithCognitiveRetry host validator_is_redundant "RedundancyCheck" ;;
      verdict <- orTypeError (get sanityCheck "parsed") ;;
      is_redundant <- orTypeError (get verdict "is_redundant") ;;
      if truthy is_redundant then
        retryResult <- fetchWithCognitiveRetry host validator_response "CorrectionGeneration" ;;
        parsed <- orTypeError (get retryResult "parsed") ;;
        cleaned <- orTypeError (get retryResult "cleaned") ;;
        ret (set_field (set_field generationResult "parsed" parsed) "cleaned" cleaned)
      else ret generationResult
  | None => ret generationResult
  end.

Definition generation_stage (isQuestionMode : bool) : M value :=
  generationResult <- fetchWithCognitiveRetry host validator_response_mood "Generation" ;;
  parsed <- orTypeError (get generationResult "parsed") ;;
  if isQuestionMode && store_configured then
    response <- orTypeError (get parsed "response") ;;
    if truthy response then
      candidateResponse <- orTypeError (as_string response) ;;
      match responseKeywords candidateResponse with
      | [] => ret generationResult
      | keywords =>
          try_catch (reflexive_check generationResult keywords)
                    (fun e => ret generationResult)
      end
    else ret generationResult
  else ret generationResult.

(** *** Mood sanitizer *)

Definition sanitizeMood (m : value) : value :=
  if negb (truthy m) then VStr "NEUTRAL"
  else VStr (trim (toUpperCase (ToString m))).

Definition set_currentMood (m : value) : M unit :=
  fun w => (Normal tt,
            mkWorld (inference_calls w) (store_calls w) (events w)
                    m (lastRetrievedMemories w) (rawMemories w)).

Definition clean_branch (branch : value) : option value :=
  let? mood := get branch "mood" in
  Some (set_field branch "mood" (sanitizeMood mood)).

Definition clean_root (root : value) : option value :=
  let? mood := get root "mood" in
  let root := set_field root "mood" (sanitizeMood mood) in
  let? branches := get root "branches" in
  if truthy branches then
    let? items := as_array branches in
    let? cleaned := map_opt clean_branch items in
    Some (set_field root "branches" (VArr cleaned))
  else Some root.

Definition mood_sanitizer (generationResult : value) : M unit :=
  parsed <- orTypeError (get generationResult "parsed") ;;
  if truthy parsed then
    mood <- orTypeError (get parsed "mood") ;;
    (if truthy mood then set_currentMood (sanitizeMood mood) else ret tt) ;;;
    roots <- orTypeError (get parsed "roots") ;;
    if truthy roots && updateGraphData_defined host then
      items <- orTypeError (as_array roots) ;;
      cleanRoots <- orTypeError (map_opt clean_root items) ;;
      emit (EGraph (VArr cleanRoots))
    else ret tt
  else ret tt.

(** *** Standard mode, step 5: detached persistence *)

Definition store_atomic (entry : value) : option value :=
  let? fact := get entry "fact" in
  let? entities := get entry "entities" in
  let? topics := get entry "topics" in
  let? importance := get entry "importance" in
  Some (VObj [("action", VStr "store_atomic"); ("fact", fact);
              ("entities", entities); ("topics", topics);
              ("importance", importance)]).

(** [v && v.length > n] *)
Definition longer_than (v : value) (n : Z) : bool :=
  truthy v && match get v "length" with
              | Some len => js_gt len n
              | None => false
              end.

(** The body of the [try] block of the refinement: the entry to store, or
    [continue] on a duplicate. *)
Definition dedup_refine (entry : value) : M value :=
  check <- fetchWithCognitiveRetry host validator_status "DedupRefine" ;;
  verdict <- orTypeError (get check "parsed") ;;
  status <- orTypeError (get verdict "status") ;;
  if strict_eq status (VStr "DUPLICATE") then continue_
  else
    better_fact <- orTypeError (get verdict "better_fact") ;;
    better_entities <- orTypeError (get verdict "better_entities") ;;
    let entry := if longer_than better_fact 5
                 then set_field entry "fact" better_fact else entry in
    let entry := if longer_than better_entities 2
                 then set_field entry "entities" better_entities else entry in
    ret entry.

Definition persist_entry (entry : value) : M unit :=
  fact <- orTypeError (get entry "fact") ;;
  if negb (truthy fact) || strict_eq fact (VStr "null") then continue_
  else
    memories <- (fun w => (Normal (lastRetrievedMemories w), w)) ;;
    entry <- (if longer_than memories 50
              then try_catch (dedup_refine entry) (fun e => ret entry)
              else ret entry) ;;
    body <- orTypeError (store_atomic entry) ;;
    store_dispatch body.

(** [for (const x of l) { body x }] *)
Fixpoint for_of (l : list value) (body : value -> M unit) : M unit :=
  match l with
  | [] => ret tt
  | x :: rest =>
      fun w =>
        match body x w with
        | (Normal _, w') => for_of rest body w'
        | (Continue, w') => for_of rest body w'
        | r => r
        end
  end.

(** [(async () => { ... })()]: whatever ends the detached function, the
    caller goes on. *)
Definition detached (body : M unit) : M unit :=
  fun w => (Normal tt, snd (body w)).

Definition persistence_stage (analysis : value) : M unit :=
  if store_configured then
    some_entries <- orTypeError (has_entries analysis) ;;
    match some_entries with
    | Some entries =>
        detached (items <- orTypeError (iterate entries) ;;
                  for_of items persist_entry)
    | None => ret tt
    end
  else ret tt.

(** *** The entry point *)

Definition log_chat (who : string) (text : value) : value :=
  VObj [("action", VStr "log_chat"); ("role", VStr who); ("content", text)].

Definition standard_mode (userText : string) (history : list ChatMessage)
           (isQuestionMode : bool) : M unit :=
  analysis <- analysis_stage ;;
  analysis <- timekeeper_stage analysis ;;
  retrieval_stage userText history isQuestionMode analysis ;;;
  generationResult <- generation_stage isQuestionMode ;;
  mood_sanitizer generationResult ;;;
  (if store_configured then
     parsed <- orTypeError (get generationResult "parsed") ;;
     response <- orTypeError (get parsed "response") ;;
     store_dispatch (log_chat "assistant" response)
   else ret tt) ;;;
  persistence_stage analysis ;;;
  cleaned <- orTypeError (get generationResult "cleaned") ;;
  return_ (envelope [] cleaned).

(** [window.processMemoryChat(userText, apiKey, modelHigh, history,
    isQuestionMode, isDirectorMode)] *)
Definition processMemoryChat (userText apiKey modelHigh : string)
           (history : list ChatMessage) (isQuestionMode isDirectorMode : bool)
  : M value :=
  call_function
    ((if store_configured then store_dispatch (log_chat "user" (VStr userText))
      else ret tt) ;;;
     if isDirectorMode then director_mode userText
     else standard_mode userText history isQuestionMode).

End Pipeline.

(** ** Concrete hosts for the examples *)

(** A [JSON.parse] that knows the listed documents: a text parses to the
    document it is the serialisation of. *)
Fixpoint parse_known (docs : list value) (text : string) : option value :=
  match docs with
  | [] => None
  | d :: r => if String.eqb (JSON_stringify d) text then Some d else parse_known r text
  end.

(** The body of a chat completion whose message content is [content]. *)
Definition completion (content : value) : value :=
  VObj [("choices", VArr [VObj [("message", VObj [("content", content)])]])].

(** The inference service answers 200 with the serialisation of [doc]. *)
Definition answers (doc : value) : InferenceOutcome :=
  Responds 200 (Some (completion (VStr (JSON_stringify doc)))).

Definition fresh_world : World := mkWorld 0 0 [] VUndef VUndef VUndef.

(** A script of outcomes, then a default. *)
Definition script {A} (l : list A) (default : A) (n : nat) : A := nth n l default.

(** ** Observations on runs *)

(** The world right after one fetch to the inference service. *)
Definition after_fetch (label : string) (w : World) : World :=
  mkWorld (S (inference_calls w)) (store_calls w) (events w ++ [EInference label])
          (currentMood w) (lastRetrievedMemories w) (rawMemories w).

Definition add_event (e : Event) (w : World) : World :=
  mkWorld (inference_calls w) (store_calls w) (events w ++ [e])
          (currentMood w) (lastRetrievedMemories w) (rawMemories w).

(** How the [try] block of the attempt that receives the [n]-th outcome
    completes. *)
Definition attempt (host : Host) (validatorFn : value -> option value) (n : nat)
  : Completion unit :=
  fst (try_block host validatorFn EmptyString (mkWorld n 0 [] VUndef VUndef VUndef)).

Definition attempt_fails (host : Host) (validatorFn : value -> option value) (n : nat)
  : Prop :=
  exists e, attempt host validatorFn n = Throw e.

(** The status of the [n]-th outcome is 401 or 403. *)
Definition auth_failure (host : Host) (n : nat) : bool :=
  match inference host n with
  | Responds status _ => (status =? 401) || (status =? 403)
  | FetchRejects => false
  end.

(** The events of a run of the engine with [retries] retries: a fetch, then
    a sleep and a fetch per retry, the sleep doubling from [delay]. *)
Fixpoint backoff (label : string) (retries : nat) (delay : Z) : list Event :=
  match retries with
  | O => []
  | S k => ESleep delay :: EInference label :: backoff label k (delay * 2)
  end.
Definition engine_events (label : string) (retries : nat) : list Event :=
  EInference label :: backoff label retries 1000.

(** The world after a run of the engine with [retries] retries. *)
Definition after_engine (label : string) (retries : nat) (w : World) : World :=
  mkWorld (S retries + inference_calls w) (store_calls w)
          (events w ++ engine_events label retries)
          (currentMood w) (lastRetrievedMemories w) (rawMemories w).

Definition attempts_made (es : list Event) : nat :=
  List.length (filter (fun e => match e with EInference _ => true | _ => false end) es).


(** A host whose inference service always answers with status [status]. *)
Definition always_status (status : Z) : Host :=
  mkHost (parse_known []) (fun _ => None) (fun _ => Responds status None)
         (fun _ => StoreUnreachable) VNull false.

Definition chat_doc : value :=
  VObj [("intent", VStr "CHAT"); ("response", VStr "Hello.")].

(** Status 401 on the first attempt, a valid classification on the
    second. *)
Definition auth_then_answer : Host :=
  mkHost (parse_known [chat_doc]) (fun _ => None)
         (script [Responds 401 None] (answers chat_doc))
         (fun _ => StoreUnreachable) VNull false.

(** The message content is an array holding the JSON text. *)
Definition array_content_host : Host :=
  mkHost (parse_known [chat_doc]) (fun _ => None)
         (fun _ => Responds 200 (Some (completion (VArr [VStr (JSON_stringify chat_doc)]))))
         (fun _ => StoreUnreachable) VNull false.

(** The world after one awaited storage request. *)
Definition after_store (body : value) (w : World) : World :=
  mkWorld (inference_calls w) (S (store_calls w)) (events w ++ [EStoreAwait body])
          (currentMood w) (lastRetrievedMemories w) (rawMemories w).

(** The storage outcome makes the retrieval fail before any memory is
    read: the service is unreachable, its body is not JSON, or the test
    [res.found && res.relevant_memories.length > 0] raises on it. *)
Definition retrieval_raises (host : Host) (o : StoreOutcome) : Prop :=
  match o with
  | StoreUnreachable => True
  | StoreBodyInvalid => True
  | StoreAnswers body => found_memories host body = None
  end.

Definition store_url : value := VStr "https://script.example/exec".

Definition store_doc : value :=
  VObj [("intent", VStr "STORE"); ("fact_to_store", VStr "Cody is the tall guy");
        ("entity_name", VStr "Cody"); ("response", VStr "Noted.")].

(** Director mode: the classification is STORE and the archive holds
    nothing on the entity. *)
Definition store_host : Host :=
  mkHost (parse_known [store_doc]) (fun _ => None)
         (fun _ => answers store_doc)
         (fun _ => StoreAnswers (VObj [("found", VBool false)]))
         store_url false.

Definition other_doc : value := VObj [("intent", VStr "CANCEL")].

(** Director mode: the classification names no known intent and carries no
    response. *)
Definition other_host : Host :=
  mkHost (parse_known [other_doc]) (fun _ => None)
         (fun _ => answers other_doc)
         (fun _ => StoreUnreachable)
         store_url false.

Definition chat_constraints_doc : value :=
  VObj [("intent", VStr "CHAT"); ("positive_constraints", VArr [VStr "Brent"]);
        ("response", VStr "Brent is a performer.")].

(** Director mode: the classification is CHAT with one constraint and the
    storage service is unreachable. *)
Definition chat_unreachable_host : Host :=
  mkHost (parse_known [chat_constraints_doc]) (fun _ => None)
         (fun _ => answers chat_constraints_doc)
         (fun _ => StoreUnreachable)
         store_url false.



Definition search_doc : value :=
  VObj [("intent", VStr "SEARCH"); ("positive_constraints", VArr [VStr "beach"]);
        ("negative_constraints", VArr [VStr "John"]); ("response", VStr "<<beach>>")].

Definition john_file : value :=
  VObj [("name", VStr "John at the beach"); ("description", VStr "sunset")].


Definition brent_file : value :=
  VObj [("name", VStr "Brent on stage"); ("description", VNull)].

(** A search answer with two files, one of which names "John". *)
Definition found_two_files : value :=
  VObj [("found", VBool true); ("files", VArr [john_file; brent_file])].

(** The cooperative fallback reply for the positive constraints
    [keywords]. *)
Definition cooperative_fallback (keywords : list value) : value :=
  envelope [("directorAction", VStr "SHOW_DECKS");
            ("deckKeywords", VArr keywords);
            ("files", VArr [])]
           (payload (VStr ("I couldn't find a single scene with BOTH "
                           ++ join " and " (map join_item keywords)
                           ++ ". However, I can likely access their individual footage. Which one should I prioritize?"))
                    (VStr "QUESTION")).

(** The ordinary reply of the SEARCH case. *)
Definition play_media (files debug_query response mood : value) : value :=
  envelope [("directorAction", VStr "PLAY_MEDIA");
            ("files", files);
            ("debug_query", debug_query)]
           (payload response mood).

(** Every run of [m] takes a world to one related to it by [R]. *)
Definition steps (R : World -> World -> Prop) {A} (m : M A) : Prop :=
  forall w, R w (snd (m w)).

(** [w'] has the events of [w] followed by events that satisfy [Q]. *)
Definition grows_by (Q : Event -> Prop) (w w' : World) : Prop :=
  exists new, events w' = (events w ++ new)%list /\ Forall Q new.

(** Events of the analysis, of the Timekeeper and of the interceptor: no
    storage request, no graph update, no generation. *)
Definition intake_event (e : Event) : Prop :=
  match e with
  | EInference label =>
      label = "Hybrid Analysis" \/ label = "Timekeeper" \/ label = "Interceptor"
  | ESleep _ => True
  | _ => False
  end.

(** The world in which the mode-specific part of the entry point starts. *)
Definition after_user_log (host : Host) (userText : string) (w : World) : World :=
  if store_configured host
  then add_event (EStoreDispatch (log_chat "user" (VStr userText))) w
  else w.

(** An upper-case, trimmed token. *)
Definition normalised (m : string) : Prop :=
  forall_string (fun c => negb (is_lower_ascii c)) m = true /\ trim m = m.

(** The mood of a graph node that is an object. *)
Definition mood_normalised (node : value) : Prop :=
  is_object node = true -> exists m, get node "mood" = Some (VStr m) /\ normalised m.

Definition root_clean (root : value) : Prop :=
  mood_normalised root /\
  forall branches, get root "branches" = Some (VArr branches) ->
                   Forall mood_normalised branches.

(** A graph update hands over an array of clean roots. *)
Definition graph_clean (e : Event) : Prop :=
  match e with
  | EGraph (VArr roots) => Forall root_clean roots
  | EGraph _ => False
  | _ => True
  end.

(** [window.currentMood] is left as it was or holds a normalised token. *)
Definition mood_kept_or_normalised (w w' : World) : Prop :=
  currentMood w' = currentMood w \/
  exists m, currentMood w' = VStr m /\ normalised m.

Definition sanitised (w w' : World) : Prop :=
  grows_by graph_clean w w' /\ mood_kept_or_normalised w w'.

Definition zoo_entry : value :=
  VObj [("fact", VStr "Arvin went to the zoo."); ("entities", VStr "Arvin");
        ("topics", VStr "History"); ("importance", VNum 5)].

Definition tea_entry : value :=
  VObj [("fact", VStr "Arvin likes tea."); ("entities", VStr "Arvin");
        ("topics", VStr "Preference"); ("importance", VNum 2)].

Definition analysis_doc : value :=
  VObj [("search_keywords", VArr [VStr "Zoo"; VStr "History"]);
        ("entries", VArr [tea_entry; zoo_entry])].

Definition undated_doc : value := VObj [("valid", VBool false)].
Definition when_doc : value := VObj [("response", VStr "When did you go to the zoo?")].

(** Standard mode: the analysis extracts a trivial entry and an event of
    importance 5; the Timekeeper finds the event undated; the interceptor
    asks for the date. *)
Definition undated_host : Host :=
  mkHost (parse_known [analysis_doc; undated_doc; when_doc]) (fun _ => None)
         (script [answers analysis_doc; answers undated_doc] (answers when_doc))
         (fun _ => StoreAnswers (VObj [("found", VBool false)]))
         store_url false.

(** The value of a normal completion, [d] otherwise. *)
Definition completed {A} (d : A) (c : Completion A) : A :=
  match c with
  | Normal a => a
  | _ => d
  end.




Definition pair_doc : value :=
  VObj [("intent", VStr "SEARCH");
        ("positive_constraints", VArr [VStr "Cody"; VStr "Brent"]);
        ("response", VStr "<<Cody>> and <<Brent>>")].

(** Director mode: a SEARCH for two names of which the archive has no scene
    and no memory. *)
Definition pair_host : Host :=
  mkHost (parse_known [pair_doc]) (fun _ => None)
         (fun _ => answers pair_doc)
         (script [StoreAnswers (VObj [("found", VBool false)])]
                 (StoreAnswers (VObj [("found", VBool false); ("files", VArr [])])))
         store_url false.

From Stdlib Require Import Permutation.
From Stdlib Require QArith Qround.

(** ** Further observations *)

(** The outcome of a fetch that cannot give a result: the fetch rejects,
    the status is not 2xx, or the body is not JSON. *)
Definition outcome_down (o : InferenceOutcome) : bool :=
  match o with
  | FetchRejects => true
  | Responds status body =>
      negb (response_ok status) || match body with Some _ => false | None => true end
  end.

(** The inference service is down for the whole turn. *)
Definition inference_down (host : Host) : Prop :=
  forall n, outcome_down (inference host n) = true.

(** A host whose inference service rejects every fetch and whose storage
    service always gives [answer]. *)
Definition offline_host (answer : StoreOutcome) (url : value) : Host :=
  mkHost (parse_known []) (fun _ => None) (fun _ => FetchRejects)
         (fun _ => answer) url true.

(** The memories a retrieval request brings back in world [w]: the storage
    service answers, [found] is truthy and [relevant_memories] is an array. *)
Definition retrieved (host : Host) (w : World) : option (list value) :=
  match storage host (store_calls w) with
  | StoreAnswers memRes =>
      match get memRes "found" with
      | Some found =>
          if truthy found then
            match get memRes "relevant_memories" with
            | Some (VArr items) => Some items
            | _ => None
            end
          else None
      | None => None
      end
  | _ => None
  end.

(** The text kept in [window.lastRetrievedMemories]. *)
Definition retrieved_context (items : list value) : value :=
  VStr ("=== DATABASE SEARCH RESULTS ===" ++ newline ++ join newline (map join_item items)).

Definition with_memories (context memories : value) (w : World) : World :=
  mkWorld (inference_calls w) (store_calls w) (events w)
          (currentMood w) context memories.

Definition memory_doc : value :=
  VObj [("found", VBool true);
        ("relevant_memories", VArr [VStr "Arvin likes tea."; VStr "Jemi is a friend."])].

(** Events that hand nothing to the graph and write nothing but the chat
    log. *)
Definition quiet_event (e : Event) : Prop :=
  match e with
  | EGraph _ => False
  | EStoreDispatch body => exists who text, body = log_chat who text
  | _ => True
  end.

Definition with_mood (m : value) (w : World) : World :=
  mkWorld (inference_calls w) (store_calls w) (events w)
          m (lastRetrievedMemories w) (rawMemories w).


Definition database_updated (response : value) : value :=
  envelope [] (VStr (JSON_stringify
                       (VObj [("response", js_or response (VStr "Database Updated."))]))).
Definition store_director_fact (fact entity : value) : value :=
  VObj [("action", VStr "store_director_fact"); ("fact", fact); ("entity", entity);
        ("tags", VStr "Metadata")].

(** The property [k] of [v], [undefined] when it cannot be read. *)
Definition assoc_of (v : value) (k : string) : value :=
  match get v k with
  | Some x => x
  | None => VUndef
  end.


(** Director mode: the storage service cannot be reached. *)
Definition store_unreachable_host : Host :=
  mkHost (parse_known [store_doc]) (fun _ => None)
         (fun _ => answers store_doc)
         (fun _ => StoreUnreachable)
         store_url false.




(** A verdict of the refinement that names a better fact and better
    entities. *)
Definition refined_doc : value :=
  VObj [("status", VStr "NEW"); ("better_fact", VStr "Arvin went to the zoo in May 2024.");
        ("better_entities", VStr "Arvin, Zoo")].

Definition refining_host : Host :=
  mkHost (parse_known [refined_doc]) (fun _ => None) (fun _ => answers refined_doc)
         (fun _ => StoreUnreachable) store_url false.

(** A retrieved context of more than 50 characters. *)
Definition long_context : value :=
  VStr "=== DATABASE SEARCH RESULTS === Arvin went to the zoo in May 2024.".

Definition with_context (context : value) (w : World) : World :=
  mkWorld (inference_calls w) (store_calls w) (events w)
          (currentMood w) context (rawMemories w).

(** Any event but a graph update. *)
Definition no_graph (e : Event) : Prop :=
  match e with
  | EGraph _ => False
  | _ => True
  end.

(** From [w] to [w'] the three globals of the page are untouched and the
    graph is not updated. *)
Definition window_kept (w w' : World) : Prop :=
  currentMood w' = currentMood w /\
  lastRetrievedMemories w' = lastRetrievedMemories w /\
  rawMemories w' = rawMemories w /\
  grows_by no_graph w w'.

(** Events that do not reach the storage service. *)
Definition no_storage (e : Event) : Prop :=
  match e with
  | EStoreAwait _ | EStoreDispatch _ => False
  | _ => True
  end.

(** From [w] to [w'] the storage service is not contacted and the
    retrieved memories are untouched. *)
Definition store_unused (w w' : World) : Prop :=
  lastRetrievedMemories w' = lastRetrievedMemories w /\
  rawMemories w' = rawMemories w /\
  store_calls w' = store_calls w /\
  grows_by no_storage w w'.

(** ** Session restore *)

(** [initializeSymbiosisSession] reads the recent chat from the storage
    service into [window.chatHistory].  The chat history is passed in and
    handed back; times are in milliseconds, as [getTime] gives them, and the
    hours between two times are a rational number. *)

(** [row[i]] *)
Definition get_index (v : value) (i : nat) : option value :=
  match v with
  | VUndef | VNull => None
  | VArr items => Some (nth i items VUndef)
  | VStr s => Some (match String.get i s with
                    | Some c => VStr (String c EmptyString)
                    | None => VUndef
                    end)
  | VObj fields => Some (assoc (string_of_Z (Z.of_nat i)) fields)
  | VBool _ | VNum _ => Some VUndef
  end.

Record Clock : Type := mkClock {
  Date_now : Z;                        (* [new Date().getTime()] *)
  Date_getTime : value -> option Z     (* [new Date(v).getTime()]; [None]: NaN *)
}.

(** [row => ({ role: row[1], content: row[2], timestamp: row[0] })] *)
Definition restored_message (row : value) : option value :=
  let? role := get_index row 1 in
  let? content := get_index row 2 in
  let? timestamp := get_index row 0 in
  Some (VObj [("role", role); ("content", content); ("timestamp", timestamp)]).

Definition gap_note (hours : Z) : value :=
  VObj [("role", VStr "system");
        ("content",
         VStr ("[SYSTEM_NOTE: The user has returned after " ++ string_of_Z hours
               ++ " hours. Treat this as a new session context, but retain previous memories.]"))].

(** [(now - lastTime) / (1000 * 60 * 60)] *)
Definition hoursDiff (now lastTime : Z) : QArith_base.Q :=
  QArith_base.Qdiv (QArith_base.inject_Z (now - lastTime))
                   (QArith_base.inject_Z (1000 * 60 * 60)).

(** The time gap logic, on the history just restored; [None] is a
    TypeError. *)
Definition time_gap (clock : Clock) (chatHistory : list value) : option (list value) :=
  if 0 <? Z.of_nat (List.length chatHistory) then
    let lastMsg := last chatHistory VUndef in
    let? timestamp := get lastMsg "timestamp" in
    match Date_getTime clock timestamp with
    | Some lastTime =>
        let hours := hoursDiff (Date_now clock) lastTime in
        if negb (QArith_base.Qle_bool hours (QArith_base.inject_Z 6))
        then Some (chatHistory ++ [gap_note (Qround.Qfloor hours)])%list
        else Some chatHistory
    | None => Some chatHistory
    end
  else Some chatHistory.

Definition get_recent_chat : value := VObj [("action", VStr "get_recent_chat")].

(** The result is the value of [window.chatHistory] when the function
    ends.  The history is assigned before the time gap logic runs, so an
    error raised there would leave the restored history in place. *)
Definition initializeSymbiosisSession (host : Host) (clock : Clock) (chatHistory : value)
  : M value :=
  if negb (store_configured host) then ret chatHistory
  else
    try_catch
      (res <- store_request host get_recent_chat ;;
       history <- orTypeError (get res "history") ;;
       if truthy history && is_array history then
         rows <- orTypeError (as_array history) ;;
         restored <- orTypeError (map_opt restored_message rows) ;;
         match time_gap clock restored with
         | Some noted => ret (VArr noted)
         | None => ret (VArr restored)
         end
       else ret chatHistory)
      (fun e => ret chatHistory).

(** The message restored from a row. *)
Definition restored_from (row message : value) : Prop :=
  exists role content timestamp,
    get_index row 1 = Some role /\ get_index row 2 = Some content /\
    get_index row 0 = Some timestamp /\
    message = VObj [("role", role); ("content", content); ("timestamp", timestamp)].

(** A clock that reads numeric timestamps. *)
Definition clock_at (now : Z) : Clock :=
  mkClock now (fun v => match v with VNum t => Some t | _ => None end).

Definition recent_chat : value :=
  VObj [("history",
         VArr [VArr [VNum 1000; VStr "user"; VStr "Hello"];
               VArr [VNum 2000; VStr "assistant"; VStr "Hi."]])].

Definition session_host : Host :=
  mkHost (parse_known []) (fun _ => None) (fun _ => FetchRejects)
         (fun _ => StoreAnswers recent_chat) store_url false.

(** The error an awaited storage request raises. *)
Definition storage_error (o : StoreOutcome) : option JsError :=
  match o with
  | StoreUnreachable => Some NetworkError
  | StoreBodyInvalid => Some SyntaxError
  | StoreAnswers _ => None
  end.

(** Director mode: the classification is SEARCH and the storage service is
    unreachable. *)
Definition search_unreachable_host : Host :=
  mkHost (parse_known [search_doc]) (fun _ => None)
         (fun _ => answers search_doc)
         (fun _ => StoreUnreachable)
         store_url false.

(** ** ASCII text *)

(** The case mappings and the white space of this development are those of
    JavaScript on ASCII text; outside ASCII, JavaScript maps more letters and
    trims more characters.  Statements that depend on case mapping or on
    trimming are made for data whose strings are ASCII. *)
Definition ascii_char (c : ascii) : bool := (nat_of_ascii c <? 128)%nat.
Definition ascii_text (s : string) : bool := forall_string ascii_char s.


(** [undefined] or [null] *)
Definition nullish (v : value) : bool :=
  match v with
  | VUndef | VNull => true
  | _ => false
  end.

(** The rows of the recent chat that the storage service hands over in
    world [w]: it answers, and [history] is an array. *)
Definition restored_rows (host : Host) (w : World) : option (list value) :=
  match storage host (store_calls w) with
  | StoreAnswers res =>
      match get res "history" with
      | Some (VArr rows) => Some rows
      | _ => None
      end
  | _ => None
  end.

(** A memory as the archive hands it out: an object whose [Entity] and
    [Fact] are strings, or absent. *)
Definition text_or_falsy (v : value) : bool := is_string v || negb (truthy v).
Definition memory_ok (m : value) : bool :=
  match m with
  | VObj fields => text_or_falsy (assoc "Entity" fields) && text_or_falsy (assoc "Fact" fields)
  | _ => false
  end.

(** An answer of the archive with seventeen entities. *)
Definition entity_memory (name : string) : value :=
  VObj [("Entity", VStr name); ("Fact", VStr (name ++ " knows Brent."))].
Definition crowd : list value :=
  map entity_memory
      ["Brent"; "Cody"; "Takahiro"; "Jemi"; "Casey"; "Liliani"; "Arvin"; "Michelle";
       "Noah"; "Omar"; "Pia"; "Quinn"; "Rosa"; "Sven"; "Tess"; "Uma"; "Vera"].
Definition crowd_host : Host :=
  mkHost (parse_known []) (fun _ => None) (fun _ => FetchRejects)
         (script [StoreAnswers (VObj [("found", VBool true);
                                      ("relevant_memories", VArr crowd)])]
                 StoreUnreachable)
         store_url false.

(** The body of the search request of the SEARCH case. *)
Definition director_search_request (userText : string) (constraints excludes : value)
  : value :=
  VObj [("action", VStr "director_search"); ("query", VStr userText);
        ("constraints", constraints); ("exclude_constraints", excludes)].


(** ** The graph updates of a turn *)











(** * Properties *)

(** ** The engine *)

Lemma after_fetch_calls label w : inference_calls (after_fetch label w) = S (inference_calls w).
Proof. reflexivity. Qed.

(** A [try] block issues exactly one fetch, and how it completes depends on
    the outcome of that fetch only. *)
Lemma try_block_at host validatorFn label w :
  try_block host validatorFn label w =
  (attempt host validatorFn (inference_calls w), after_fetch label w).
Proof.
  unfold attempt, try_block, bind, fetch_inference, try_catch, after_fetch; simpl.
  destruct (inference host (inference_calls w)) as [|status body]; [reflexivity|].
  destruct (negb (response_ok status)).
  - destruct ((status =? 401) || (status =? 403)); reflexivity.
  - destruct body as [data|]; simpl; [|reflexivity].
    unfold orTypeError, ret, throw.
    destruct (message_content data) as [content|]; simpl; [|reflexivity].
    destruct (JSON_parse host (ToString content)) as [parsed|]; simpl; [|reflexivity].
    destruct (validatorFn parsed) as [verdict|]; simpl; [|reflexivity].
    destruct (truthy verdict); reflexivity.
Qed.

(** An attempt never falls off the end of its [try] block: it returns the
    result object or it throws. *)
Lemma attempt_cases host validatorFn n :
  (exists e, attempt host validatorFn n = Throw e) \/
  (exists status data content parsed verdict,
      inference host n = Responds status (Some data) /\
      response_ok status = true /\
      message_content data = Some content /\
      JSON_parse host (ToString content) = Some parsed /\
      validatorFn parsed = Some verdict /\
      truthy verdict = true /\
      attempt host validatorFn n =
      Return (VObj [("raw", data); ("parsed", parsed); ("cleaned", content)])).
Proof.
  unfold attempt, try_block, bind, fetch_inference, try_catch; simpl.
  destruct (inference host n) as [|status body] eqn:Hout; [left; eexists; reflexivity|].
  destruct (response_ok status) eqn:Hok; simpl.
  2:{ destruct ((status =? 401) || (status =? 403)); left; eexists; reflexivity. }
  destruct body as [data|]; simpl; [|left; eexists; reflexivity].
  unfold orTypeError, ret, throw.
  destruct (message_content data) as [content|] eqn:Hc; simpl; [|left; eexists; reflexivity].
  destruct (JSON_parse host (ToString content)) as [parsed|] eqn:Hp; simpl; [|left; eexists; reflexivity].
  destruct (validatorFn parsed) as [verdict|] eqn:Hv; simpl; [|left; eexists; reflexivity].
  destruct (truthy verdict) eqn:Ht; [|left; eexists; reflexivity].
  right. exists status, data, content, parsed, verdict. repeat split; auto.
Qed.

(** One turn of the loop, by the completion of its attempt. *)
Lemma loop_body_at host validatorFn label attempts delay w :
  loop_body host validatorFn label attempts delay w =
  match attempt host validatorFn (inference_calls w) with
  | Normal _ => (Normal (attempts, delay), after_fetch label w)
  | Return r => (Return r, after_fetch label w)
  | Throw _ =>
      if MAX_RETRIES <=? attempts + 1 then (Return safe_mode, after_fetch label w)
      else (Normal (attempts + 1, delay * 2),
            add_event (ESleep delay) (after_fetch label w))
  | Continue => (Continue, after_fetch label w)
  end.
Proof.
  unfold loop_body, try_catch, bind. rewrite try_block_at.
  destruct (attempt host validatorFn (inference_calls w)); try reflexivity.
  destruct (MAX_RETRIES <=? attempts + 1); reflexivity.
Qed.

Lemma world_eq a b c d e f a' c' :
  a = a' -> c = c' -> mkWorld a b c d e f = mkWorld a' b c' d e f.
Proof. intros -> ->; reflexivity. Qed.

(** Every run of the engine: some attempts fail, each followed by a sleep,
    then an attempt returns its result, or the third attempt fails and the
    safe-mode object is returned. *)
Lemma fetchWithCognitiveRetry_outcome host validatorFn label w :
  exists retries r,
    fetchWithCognitiveRetry host validatorFn label w
    = (Normal r, after_engine label retries w) /\
    (retries <= 2)%nat /\
    (forall k, (k < retries)%nat ->
               attempt_fails host validatorFn (k + inference_calls w)) /\
    (attempt host validatorFn (retries + inference_calls w) = Return r \/
     (retries = 2%nat /\ attempt_fails host validatorFn (2 + inference_calls w)
      /\ r = safe_mode)).
Proof.
  unfold fetchWithCognitiveRetry, call_function.
  change (Z.to_nat MAX_RETRIES) with 3%nat.
  cbn [while_loop]. change (0 <? MAX_RETRIES) with true. cbv iota.
  unfold bind at 1. rewrite loop_body_at.
  destruct (attempt_cases host validatorFn (inference_calls w))
    as [[e1 H1]|(s1 & d1 & c1 & p1 & v1 & _ & _ & _ & _ & _ & _ & H1)]; rewrite H1.
  2:{ exists 0%nat; eexists; split; [|split; [lia|split; [intros; lia|left; exact H1]]].
      reflexivity. }
  change (MAX_RETRIES <=? 0 + 1) with false. cbv iota. cbn [fst snd].
  change (0 + 1 <? MAX_RETRIES) with true. cbv iota.
  unfold bind at 1. rewrite loop_body_at. cbn [inference_calls add_event after_fetch].
  destruct (attempt_cases host validatorFn (S (inference_calls w)))
    as [[e2 H2]|(s2 & d2 & c2 & p2 & v2 & _ & _ & _ & _ & _ & _ & H2)]; rewrite H2.
  2:{ exists 1%nat; eexists; split; [|split; [lia|split; [|left; exact H2]]].
      - f_equal. apply world_eq; [reflexivity|].
        unfold engine_events; cbn [backoff events add_event after_fetch].
        now rewrite <- !app_assoc.
      - intros k Hk. assert (k = 0%nat) by lia; subst. exists e1; exact H1. }
  change (MAX_RETRIES <=? 0 + 1 + 1) with false. cbv iota. cbn [fst snd].
  change (0 + 1 + 1 <? MAX_RETRIES) with true. cbv iota.
  unfold bind at 1. rewrite loop_body_at. cbn [inference_calls add_event after_fetch].
  assert (Hfail : forall k, (k < 2)%nat ->
                            attempt_fails host validatorFn (k + inference_calls w)).
  { intros k Hk. destruct k as [|[|k]]; [exists e1; exact H1|exists e2; exact H2|lia]. }
  assert (Hw : forall (c : Completion value),
             (c, mkWorld (S (S (S (inference_calls w)))) (store_calls w)
                   (((((events w ++ [EInference label]) ++ [ESleep 1000])
                        ++ [EInference label]) ++ [ESleep (1000 * 2)])
                      ++ [EInference label])
                   (currentMood w) (lastRetrievedMemories w) (rawMemories w))
             = (c, after_engine label 2 w)).
  { intros c. f_equal. apply world_eq; [reflexivity|].
    unfold engine_events; cbn [backoff events]. now rewrite <- !app_assoc. }
  destruct (attempt_cases host validatorFn (S (S (inference_calls w))))
    as [[e3 H3]|(s3 & d3 & c3 & p3 & v3 & _ & _ & _ & _ & _ & _ & H3)]; rewrite H3.
  - change (MAX_RETRIES <=? 0 + 1 + 1 + 1) with true. cbv iota.
    exists 2%nat, safe_mode. split; [apply Hw|]. split; [lia|]. split; [exact Hfail|].
    right. split; [reflexivity|]. split; [exists e3; exact H3|reflexivity].
  - exists 2%nat; eexists. split; [apply Hw|]. split; [lia|]. split; [exact Hfail|].
    left; exact H3.
Qed.



(** A status 401 or 403 makes the attempt throw, like any other failure. *)
Lemma auth_failure_throws host validatorFn n :
  auth_failure host n = true -> attempt_fails host validatorFn n.
Proof.
  unfold auth_failure, attempt_fails, attempt, try_block, bind, fetch_inference.
  cbn [inference_calls]. destruct (inference host n) as [|status body]; [discriminate|].
  intros H. cbn [fst snd].
  assert (Hok : response_ok status = false).
  { unfold response_ok. apply orb_true_iff in H as [H|H]; apply Z.eqb_eq in H; subst;
      reflexivity. }
  rewrite Hok, H. cbn [negb]. eexists; reflexivity.
Qed.

(** After a status 401 or 403 on its first attempt the engine sleeps and
    makes another attempt. *)
Lemma auth_failure_retried host validatorFn label w :
  auth_failure host (inference_calls w) = true ->
  exists r retries,
    fetchWithCognitiveRetry host validatorFn label w
    = (Normal r, after_engine label retries w) /\ (1 <= retries)%nat.
Proof.
  intros Hauth.
  destruct (fetchWithCognitiveRetry_outcome host validatorFn label w)
    as (retries & r & Hrun & _ & _ & Hlast).
  exists r, retries. split; [exact Hrun|].
  destruct (auth_failure_throws host validatorFn (inference_calls w) Hauth) as [e He].
  destruct Hlast as [Hret|(-> & _)]; [|lia].
  destruct retries; [cbn [Nat.add] in Hret; congruence|lia].
Qed.

(** C1 (code defect).  The check on status 401/403 throws inside the [try]
    block, so the [catch] that drives the retries receives it like any other
    failure.  With status 401 on every attempt the engine makes three
    attempts, sleeps 1000 and 2000 ms between them and returns the safe-mode
    object, exactly as it does for status 500; with status 401 on the first
    attempt only, the second attempt is made and its answer is returned. *)
Theorem C1_auth_failure_is_retried :
  auth_failure (always_status 401) 0 = true /\
  fetchWithCognitiveRetry (always_status 401) validator_intent "DirectorAI" fresh_world
  = (Normal safe_mode,
     mkWorld 3 0 [EInference "DirectorAI"; ESleep 1000;
                  EInference "DirectorAI"; ESleep 2000;
                  EInference "DirectorAI"] VUndef VUndef VUndef) /\
  fetchWithCognitiveRetry (always_status 401) validator_intent "DirectorAI" fresh_world
  = fetchWithCognitiveRetry (always_status 500) validator_intent "DirectorAI" fresh_world /\
  auth_failure auth_then_answer 0 = true /\
  fetchWithCognitiveRetry auth_then_answer validator_intent "DirectorAI" fresh_world
  = (Normal (VObj [("raw", completion (VStr (JSON_stringify chat_doc)));
                   ("parsed", chat_doc);
                   ("cleaned", VStr (JSON_stringify chat_doc))]),
     mkWorld 2 0 [EInference "DirectorAI"; ESleep 1000; EInference "DirectorAI"]
             VUndef VUndef VUndef).
Proof. repeat split; vm_compute; reflexivity. Qed.




(** C3.  The engine never raises: every run returns a value.  When the
    three attempts all fail, the value is the safe-mode object, whose parsed
    content has mood NEUTRAL and the placeholder response, and whose cleaned
    text is the serialisation of that content. *)
Theorem C3_exhaustion_returns_safe_mode host validatorFn label w :
  exists r w',
    fetchWithCognitiveRetry host validatorFn label w = (Normal r, w') /\
    (attempt_fails host validatorFn (inference_calls w) ->
     attempt_fails host validatorFn (1 + inference_calls w) ->
     attempt_fails host validatorFn (2 + inference_calls w) ->
     r = safe_mode /\
     attempts_made (events w') = (attempts_made (events w) + 3)%nat /\
     exists parsed,
       get r "parsed" = Some parsed /\
       get parsed "mood" = Some (VStr "NEUTRAL") /\
       get parsed "response" = Some (VStr "...") /\
       get r "cleaned" = Some (VStr (JSON_stringify parsed))).
Proof.
  destruct (fetchWithCognitiveRetry_outcome host validatorFn label w)
    as (retries & r & Hrun & Hle & Hfail & Hlast).
  exists r, (after_engine label retries w). split; [exact Hrun|].
  intros [e0 H0] [e1 H1] [e2 H2].
  assert (Hr : retries = 2%nat /\ r = safe_mode).
  { destruct Hlast as [Hret|(-> & _ & ->)]; [|auto].
    destruct retries as [|[|[|k]]]; try lia; cbn [Nat.add] in *; congruence. }
  destruct Hr as [-> ->]. split; [reflexivity|]. split.
  - cbn [events after_engine]. unfold attempts_made.
    rewrite filter_app, length_app. reflexivity.
  - exists safe_mode_parsed. repeat split.
Qed.

Lemma C3_exhaustion_returns_safe_mode_witness :
  exists r w',
    fetchWithCognitiveRetry (always_status 500) validator_response "Interceptor" fresh_world
    = (Normal r, w') /\ r = safe_mode.
Proof.
  destruct (C3_exhaustion_returns_safe_mode (always_status 500) validator_response
                                            "Interceptor" fresh_world)
    as (r & w' & Hrun & H).
  exists r, w'. split; [exact Hrun|].
  apply H; eexists; vm_compute; reflexivity.
Defined.

(** A document accepted by the validator of a call site is an object. *)
Lemma validator_accepts_objects site parsed verdict :
  validator_of site parsed = Some verdict -> truthy verdict = true ->
  is_object parsed = true.
Proof.
  destruct parsed; try reflexivity; destruct site; cbn; intros H Ht;
    try discriminate H; injection H as <-; cbn in Ht; discriminate Ht.
Qed.

(** A response body from which the message content can be read is an
    object. *)
Lemma message_content_object data content :
  message_content data = Some content -> is_object data = true.
Proof.
  destruct data; try reflexivity; cbn; intros H; discriminate H.
Qed.

(** C9, as stated, fails for the cleaned field: the engine hands back the
    message content as the service sent it.  A content that is an array
    holding the JSON text is coerced to that text by [JSON.parse], passes
    the validator, and comes back as [cleaned]: an array, not a string. *)
Lemma C9_cleaned_not_a_string :
  fst (fetchWithCognitiveRetry array_content_host validator_intent "DirectorAI" fresh_world)
  = Normal (VObj [("raw", completion (VArr [VStr (JSON_stringify chat_doc)]));
                  ("parsed", chat_doc);
                  ("cleaned", VArr [VStr (JSON_stringify chat_doc)])]) /\
  is_string (VArr [VStr (JSON_stringify chat_doc)]) = false /\
  ToString (VArr [VStr (JSON_stringify chat_doc)]) = JSON_stringify chat_doc.
Proof. repeat split; vm_compute; reflexivity. Qed.

(** C9 (amended).  Every value returned by the engine, at every call site,
    has a [parsed] field holding an object and a [cleaned] field.  On the
    success path [raw] holds the response body and [cleaned] is the message
    content of that body as it was sent, a value whose string form is the
    JSON text that parsed to [parsed].  On the exhaustion path the value is
    the safe-mode object: [cleaned] is a string, the JSON text of [parsed],
    and there is no [raw] field: reading it yields [undefined]. *)
Theorem C9_result_fields host site w :
  exists r w' parsed cleaned,
    fetchWithCognitiveRetry host (validator_of site) (label_of site) w = (Normal r, w') /\
    get r "parsed" = Some parsed /\ is_object parsed = true /\
    get r "cleaned" = Some cleaned /\
    ((exists data,
         get r "raw" = Some data /\ is_object data = true /\
         message_content data = Some cleaned /\
         JSON_parse host (ToString cleaned) = Some parsed)
     \/
     (r = safe_mode /\ get r "raw" = Some VUndef /\
      is_string cleaned = true /\
      cleaned = VStr (JSON_stringify parsed))).
Proof.
  destruct (fetchWithCognitiveRetry_outcome host (validator_of site) (label_of site) w)
    as (retries & r & Hrun & _ & _ & Hlast).
  destruct Hlast as [Hret|(_ & _ & ->)].
  - destruct (attempt_cases host (validator_of site) (retries + inference_calls w))
      as [[e He]|(s & data & content & parsed & verdict & _ & _ & Hc & Hp & Hv & Ht & Hr)];
      [congruence|].
    rewrite Hret in Hr. injection Hr as ->.
    exists (VObj [("raw", data); ("parsed", parsed); ("cleaned", content)]),
           (after_engine (label_of site) retries w), parsed, content.
    split; [exact Hrun|]. split; [reflexivity|].
    split; [exact (validator_accepts_objects site parsed Hv Ht)|].
    split; [reflexivity|]. left. exists data.
    split; [reflexivity|]. split; [exact (message_content_object data Hc)|].
    split; assumption.
  - exists safe_mode, (after_engine (label_of site) retries w), safe_mode_parsed,
           (VStr safe_mode_text).
    split; [exact Hrun|]. repeat split. right. repeat split.
Qed.

(** ** Director mode *)

Lemma emit_at e w : emit e w = (Normal tt, add_event e w).
Proof. reflexivity. Qed.

Lemma js_gt_length host (items : list value) n :
  js_gt host (VNum (Z.of_nat (List.length items))) n = (n <? Z.of_nat (List.length items)).
Proof. reflexivity. Qed.

(** C4 (code defect).  The reply of the Director STORE case is built from
    [{ response }] alone: its content has a response and no mood.  The
    Director fallback reply of a classification that carries no response has
    a mood and no response. *)
Theorem C4_store_reply_has_no_mood :
  fst (processMemoryChat store_host "Cody is the tall guy" "key" "model" [] false true
                         fresh_world)
  = Normal (envelope [] (VStr (JSON_stringify (VObj [("response", VStr "Noted.")])))) /\
  JSON_stringify (VObj [("response", VStr "Noted.")])
  = "{" ++ dquote ++ "response" ++ dquote ++ ":" ++ dquote ++ "Noted." ++ dquote ++ "}" /\
  str_includes (JSON_stringify (VObj [("response", VStr "Noted.")])) "mood" = false /\
  fst (processMemoryChat other_host "never mind" "key" "model" [] false true fresh_world)
  = Normal (envelope [] (VStr (JSON_stringify (VObj [("mood", VStr "CRYPTIC")])))) /\
  str_includes (JSON_stringify (VObj [("mood", VStr "CRYPTIC")])) "response" = false.
Proof. repeat split; vm_compute; reflexivity. Qed.

(** C10.  Director mode, store configured, classification CHAT with a
    non-empty list of positive constraints: when the retrieval request fails
    (service unreachable, body not JSON, or a body on which the found-test
    raises), the [catch] swallows the failure and the reply is the fixed
    "need more specifics" reply with mood CRYPTIC, the same as without
    constraints. *)
Theorem C10_chat_retrieval_failure host userText apiKey modelHigh history isQuestionMode
        w result w2 aiRes items :
  store_configured host = true ->
  fetchWithCognitiveRetry host validator_intent "DirectorAI"
    (add_event (EStoreDispatch (log_chat "user" (VStr userText))) w)
  = (Normal result, w2) ->
  get result "parsed" = Some aiRes ->
  get aiRes "intent" = Some (VStr "CHAT") ->
  get aiRes "positive_constraints" = Some (VArr items) ->
  items <> [] ->
  retrieval_raises host (storage host (store_calls w2)) ->
  processMemoryChat host userText apiKey modelHigh history isQuestionMode true w
  = (Normal (envelope []
               (payload (VStr "I need more specific names or traits to search the archive.")
                        (VStr "CRYPTIC"))),
     after_store (retrieve_director_memory (VArr items)) w2).
Proof.
  intros Hconf Hrun Hparsed Hintent Hpc Hne Hraise.
  assert (Hlen : (0 <? Z.of_nat (List.length items)) = true).
  { destruct items; [contradiction|]. cbn [List.length]. apply Z.ltb_lt. lia. }
  unfold processMemoryChat, call_function, director_mode, director_chat, store_dispatch,
    bind, try_catch.
  rewrite Hconf, emit_at, Hrun, Hparsed. cbn [orTypeError ret].
  rewrite Hintent. cbn [orTypeError ret]. rewrite Hpc.
  cbn -[chat_retrieval director_store director_search payload Z.of_nat Z.ltb
       store_configured].
  rewrite Hlen. cbn [andb].
  unfold chat_retrieval, bind, store_request.
  unfold retrieval_raises in Hraise.
  destruct (storage host (store_calls w2)) as [| |body]; try reflexivity.
  rewrite Hraise. reflexivity.
Qed.

Lemma C10_chat_retrieval_failure_witness :
  fst (processMemoryChat chat_unreachable_host "Who is Brent?" "key" "model" [] false true
                         fresh_world)
  = Normal need_more_specifics.
Proof.
  pose (w1 := add_event (EStoreDispatch (log_chat "user" (VStr "Who is Brent?"))) fresh_world).
  pose (run := fetchWithCognitiveRetry chat_unreachable_host validator_intent "DirectorAI" w1).
  rewrite (@C10_chat_retrieval_failure chat_unreachable_host "Who is Brent?" "key" "model"
             [] false fresh_world
             (match fst run with Normal r => r | _ => VUndef end) (snd run)
             chat_constraints_doc [VStr "Brent"]).
  - reflexivity.
  - reflexivity.
  - vm_compute; reflexivity.
  - reflexivity.
  - reflexivity.
  - reflexivity.
  - discriminate.
  - exact I.
Defined.

Lemma assoc_set_same k v fields : assoc k (set_assoc k v fields) = v.
Proof.
  induction fields as [|[k' v'] r IH]; cbn.
  - now rewrite String.eqb_refl.
  - destruct (String.eqb k k') eqn:E; cbn; rewrite ?String.eqb_refl, ?E; auto.
Qed.

Lemma assoc_set_other k k' v fields :
  String.eqb k k' = false -> assoc k (set_assoc k' v fields) = assoc k fields.
Proof.
  intros Hk. induction fields as [|[k'' v''] r IH]; cbn.
  - now rewrite Hk.
  - destruct (String.eqb k' k'') eqn:E; cbn.
    + apply String.eqb_eq in E; subst. now rewrite Hk.
    + destruct (String.eqb k k''); auto.
Qed.

Lemma filter_opt_kept {A} (p : A -> option bool) l kept :
  filter_opt p l = Some kept ->
  forall x, In x kept -> In x l /\ p x = Some true.
Proof.
  revert kept; induction l as [|a l IH]; cbn; intros kept H x Hx.
  - injection H as <-. contradiction.
  - destruct (p a) as [b|] eqn:Hp; [|discriminate].
    destruct (filter_opt p l) as [ys|]; [|discriminate].
    injection H as <-. destruct b.
    + destruct Hx as [<-|Hx]; [auto|]. destruct (IH ys eq_refl x Hx); auto.
    + destruct (IH ys eq_refl x Hx); auto.
Qed.




(** The reply of the SEARCH case, given the search result as it stands
    after the client-side filter and a list of positive constraints. *)
Lemma search_reply_cases host aiRes keywords searchRes found response w :
  get searchRes "found" = Some found ->
  get aiRes "response" = Some response ->
  exists reply files debug_query,
    search_reply host aiRes (VArr keywords) searchRes w = (Return reply, w) /\
    get searchRes "files" = Some files /\
    get searchRes "debug_query" = Some debug_query /\
    (truthy found = false -> (1 < List.length keywords)%nat ->
     reply = cooperative_fallback keywords) /\
    (truthy found = false -> (List.length keywords <= 1)%nat ->
     reply = play_media files debug_query (VStr "No matching footage found.") (VStr "SAD")) /\
    (truthy found = true ->
     reply = play_media files debug_query (js_or response (VStr "Archive accessed."))
                        (VStr "CRYPTIC")) /\
    (get reply "directorAction" = Some (VStr "SHOW_DECKS") <->
     truthy found = false /\ (1 < List.length keywords)%nat).
Proof.
  intros Hfound Hresp.
  assert (Hfiles : exists files, get searchRes "files" = Some files).
  { destruct searchRes; try discriminate Hfound; cbn; eauto. }
  assert (Hdq : exists dq, get searchRes "debug_query" = Some dq).
  { destruct searchRes; try discriminate Hfound; cbn; eauto. }
  destruct Hfiles as [files Hfiles]. destruct Hdq as [dq Hdq].
  unfold search_reply, bind. rewrite Hfound. cbn [orTypeError ret get].
  change (String.eqb "length" "length") with true. cbv iota.
  cbn [orTypeError ret]. rewrite js_gt_length.
  destruct (truthy found) eqn:Ht; cbn [negb andb].
  - rewrite Hfiles, Hdq, Hresp. cbn [orTypeError ret].
    eexists; exists files, dq. split; [reflexivity|].
    split; [reflexivity|]. split; [reflexivity|].
    split; [discriminate|]. split; [discriminate|]. split; [reflexivity|].
    split; [cbn; discriminate|intros [H _]; discriminate H].
  - destruct (1 <? Z.of_nat (List.length keywords)) eqn:Hlen.
    + apply Z.ltb_lt in Hlen. cbn [js_join as_array orTypeError ret].
      eexists; exists files, dq. split; [reflexivity|].
      split; [exact Hfiles|]. split; [exact Hdq|].
      split; [reflexivity|]. split; [intros; lia|]. split; [discriminate|].
      split; [intros _; split; [reflexivity|lia]|reflexivity].
    + apply Z.ltb_ge in Hlen. rewrite Hfiles, Hdq, Hresp. cbn [orTypeError ret].
      eexists; exists files, dq. split; [reflexivity|].
      split; [reflexivity|]. split; [reflexivity|].
      split; [intros; lia|]. split; [reflexivity|]. split; [discriminate|].
      split; [cbn; discriminate|intros [_ H]; lia].
Qed.

(** ** Framing: what the stages leave alone *)

Section Frame.
Variable R : World -> World -> Prop.
Hypothesis R_refl : forall w, R w w.
Hypothesis R_trans : forall a b c, R a b -> R b c -> R a c.

Lemma steps_ret {A} (a : A) : steps R (ret a).
Proof. intros w; apply R_refl. Qed.

Lemma steps_throw {A} e : steps R (@throw A e).
Proof. intros w; apply R_refl. Qed.

Lemma steps_return {A} v : steps R (@return_ A v).
Proof. intros w; apply R_refl. Qed.

Lemma steps_continue {A} : steps R (@continue_ A).
Proof. intros w; apply R_refl. Qed.

Lemma steps_orTypeError {A} (o : option A) : steps R (orTypeError o).
Proof. destruct o; [apply steps_ret|apply steps_throw]. Qed.

Lemma steps_bind {A B} (m : M A) (f : A -> M B) :
  steps R m -> (forall a, steps R (f a)) -> steps R (bind m f).
Proof.
  intros Hm Hf w. unfold bind. specialize (Hm w).
  destruct (m w) as [[a|v|e|] w']; cbn in *; auto.
  eapply R_trans; [exact Hm|apply Hf].
Qed.

Lemma steps_try_catch {A} (m : M A) h :
  steps R m -> (forall e, steps R (h e)) -> steps R (try_catch m h).
Proof.
  intros Hm Hh w. unfold try_catch. specialize (Hm w).
  destruct (m w) as [[a|v|e|] w']; cbn in *; auto.
  eapply R_trans; [exact Hm|apply Hh].
Qed.

Lemma steps_call_function body : steps R body -> steps R (call_function body).
Proof.
  intros Hb w. unfold call_function. specialize (Hb w).
  destruct (body w) as [[a|v|e|] w']; cbn in *; auto.
Qed.

Lemma steps_detached body : steps R body -> steps R (detached body).
Proof. intros Hb w. apply Hb. Qed.

Lemma steps_for_of l body :
  (forall x, steps R (body x)) -> steps R (for_of l body).
Proof.
  intros Hb. induction l as [|x rest IH]; intros w; cbn [for_of].
  - apply R_refl.
  - specialize (Hb x w). destruct (body x w) as [[a|v|e|] w']; cbn in *; auto;
      (eapply R_trans; [exact Hb|apply IH]).
Qed.

(** A run of the engine is a chain of fetches and sleeps. *)
Lemma steps_engine host validatorFn label :
  (forall w, R w (after_fetch label w)) ->
  (forall ms w, R w (add_event (ESleep ms) w)) ->
  steps R (fetchWithCognitiveRetry host validatorFn label).
Proof.
  intros Hfetch Hsleep w.
  destruct (fetchWithCognitiveRetry_outcome host validatorFn label w)
    as (retries & r & Hrun & Hle & _). rewrite Hrun. cbn [snd].
  assert (H1 : R w (after_fetch label w)) by apply Hfetch.
  assert (H2 : R w (after_fetch label (add_event (ESleep 1000) (after_fetch label w)))).
  { eapply R_trans; [exact H1|]. eapply R_trans; [apply Hsleep|apply Hfetch]. }
  assert (H3 : R w (after_fetch label (add_event (ESleep 2000)
                      (after_fetch label (add_event (ESleep 1000) (after_fetch label w)))))).
  { eapply R_trans; [exact H2|]. eapply R_trans; [apply Hsleep|apply Hfetch]. }
  destruct retries as [|[|[|k]]]; try lia.
  - exact H1.
  - replace (after_engine label 1 w)
      with (after_fetch label (add_event (ESleep 1000) (after_fetch label w))); [exact H2|].
    apply world_eq; [reflexivity|].
    unfold engine_events; cbn [backoff events add_event after_fetch].
    now rewrite <- !app_assoc.
  - replace (after_engine label 2 w)
      with (after_fetch label (add_event (ESleep 2000)
              (after_fetch label (add_event (ESleep 1000) (after_fetch label w)))));
      [exact H3|].
    apply world_eq; [reflexivity|].
    unfold engine_events; cbn [backoff events add_event after_fetch].
    now rewrite <- !app_assoc.
Qed.

End Frame.

Lemma grows_by_refl Q w : grows_by Q w w.
Proof. exists []. split; [now rewrite app_nil_r|constructor]. Qed.

Lemma grows_by_trans Q a b c : grows_by Q a b -> grows_by Q b c -> grows_by Q a c.
Proof.
  intros (n1 & H1 & F1) (n2 & H2 & F2). exists (n1 ++ n2)%list. split.
  - now rewrite H2, H1, app_assoc.
  - apply Forall_app; auto.
Qed.

Lemma grows_by_event (Q : Event -> Prop) e w : Q e -> grows_by Q w (add_event e w).
Proof. intros H. exists [e]. split; [reflexivity|]. constructor; [exact H|constructor]. Qed.

Lemma grows_by_fetch (Q : Event -> Prop) label w :
  Q (EInference label) -> grows_by Q w (after_fetch label w).
Proof. intros H. exists [EInference label]. split; [reflexivity|]. repeat constructor; exact H. Qed.

(** Structural steps of a framing proof: sequencing, handlers, branches. *)
Ltac frame_step refl trans :=
  first
    [ apply (steps_ret _ refl)
    | apply (steps_throw _ refl)
    | apply (steps_return _ refl)
    | apply (steps_continue _ refl)
    | apply (steps_orTypeError _ refl)
    | apply (steps_bind trans); [|intros ?]
    | apply (steps_try_catch trans); [|intros ?]
    | apply (steps_for_of refl trans); intros ?
    | match goal with
      | |- steps _ (call_function _) => apply steps_call_function
      | |- steps _ (detached _) => apply steps_detached
      | |- steps _ (if ?b then _ else _) => destruct b
      | |- steps _ (match ?x with _ => _ end) => destruct x
      end ].

(** The engine under one of these labels adds intake events only. *)
Lemma intake_engine host validatorFn label :
  intake_event (EInference label) ->
  steps (grows_by intake_event) (fetchWithCognitiveRetry host validatorFn label).
Proof.
  intros Hl. apply steps_engine.
  - apply grows_by_trans.
  - intros w. apply grows_by_fetch; exact Hl.
  - intros ms w. apply grows_by_event. exact I.
Qed.

Ltac intake_frame :=
  repeat first
    [ apply intake_engine; cbn; tauto
    | frame_step (grows_by_refl intake_event) (@grows_by_trans intake_event) ].

Lemma intake_analysis host : steps (grows_by intake_event) (analysis_stage host).
Proof. unfold analysis_stage. intake_frame. Qed.

Lemma intake_timekeeper_check host entry :
  steps (grows_by intake_event) (timekeeper_check host entry).
Proof. unfold timekeeper_check. intake_frame. Qed.

Lemma intake_timekeeper_loop host entries validEntries :
  steps (grows_by intake_event) (timekeeper_loop host entries validEntries).
Proof.
  revert validEntries. induction entries as [|entry rest IH]; intros validEntries;
    cbn [timekeeper_loop]; intake_frame; apply IH.
Qed.

(** The loop over a list in two parts. *)
Lemma timekeeper_loop_app host before rest validEntries w :
  timekeeper_loop host (before ++ rest) validEntries w =
  match timekeeper_loop host before validEntries w with
  | (Normal kept, w') => timekeeper_loop host rest kept w'
  | (Return v, w') => (Return v, w')
  | (Throw e, w') => (Throw e, w')
  | (Continue, w') => (Continue, w')
  end.
Proof.
  revert validEntries w. induction before as [|entry before IH]; intros validEntries w.
  - reflexivity.
  - cbn [app timekeeper_loop]. unfold bind.
    destruct (orTypeError (get entry "importance") w) as [[importance| | |] w1]; try reflexivity.
    destruct (js_lt host importance 4); [apply IH|].
    destruct (try_catch (timekeeper_check host entry) (fun _ => ret entry) w1)
      as [[kept| | |] w2]; try reflexivity.
    apply IH.
Qed.

Lemma js_lt_num host n k : js_lt host (VNum n) k = (n <? k).
Proof. reflexivity. Qed.

(** The value returned by the engine at a call site has an object under
    [parsed]. *)
Lemma engine_parsed_object host site w :
  exists r w' parsed,
    fetchWithCognitiveRetry host (validator_of site) (label_of site) w = (Normal r, w') /\
    get r "parsed" = Some parsed /\ is_object parsed = true.
Proof.
  destruct (fetchWithCognitiveRetry_outcome host (validator_of site) (label_of site) w)
    as (retries & r & Hrun & _ & _ & Hlast).
  destruct Hlast as [Hret|(_ & _ & ->)].
  - destruct (attempt_cases host (validator_of site) (retries + inference_calls w))
      as [[e He]|(s & data & content & parsed & verdict & _ & _ & Hc & Hp & Hv & Ht & Hr)];
      [congruence|].
    rewrite Hret in Hr. injection Hr as ->.
    eexists; eexists; exists parsed. split; [exact Hrun|]. split; [reflexivity|].
    exact (validator_accepts_objects site parsed Hv Ht).
  - eexists; eexists; exists safe_mode_parsed. split; [exact Hrun|]. split; reflexivity.
Qed.

Lemma user_log_at host userText w :
  (if store_configured host
   then store_dispatch (log_chat "user" (VStr userText))
   else ret tt) w
  = (Normal tt, after_user_log host userText w).
Proof. unfold after_user_log. destruct (store_configured host); reflexivity. Qed.

(** A value with one readable property has them all readable. *)
Lemma get_defined v k x k' : get v k = Some x -> exists y, get v k' = Some y.
Proof.
  destruct v; cbn; intros H; try discriminate H;
    try destruct (String.eqb k' "length"); eauto.
Qed.

(** C5.  Standard mode.  Take the entries of the analysis in order, and an
    entry of importance [n >= 4] that is reached (the entries before it
    passed the Timekeeper or bypassed it) and on which the Timekeeper's verdict has a
    falsy [valid].  Then the entry point returns the interception reply built
    from the interceptor's response (mood CURIOUS, no roots), and from the
    start of the mode-specific part the turn has only issued inference calls
    of the analysis, the Timekeeper and the interceptor: no storage request
    or dispatch (retrieval, persistence), no generation, no graph update.  An
    entry of importance below 4 goes to the valid entries without any call. *)
Theorem C5_timekeeper_interception host userText apiKey modelHigh history isQuestionMode
        w analysis w1 entries before entry rest kept w2 n timeResult w3 verdict valid :
  analysis_stage host (after_user_log host userText w) = (Normal analysis, w1) ->
  has_entries host analysis = Some (Some entries) ->
  iterate entries = Some (before ++ entry :: rest)%list ->
  timekeeper_loop host before [] w1 = (Normal kept, w2) ->
  get entry "importance" = Some (VNum n) -> 4 <= n ->
  fetchWithCognitiveRetry host validator_valid "Timekeeper" w2 = (Normal timeResult, w3) ->
  get timeResult "parsed" = Some verdict ->
  get verdict "valid" = Some valid -> truthy valid = false ->
  (exists intercept w4 asked response,
      fetchWithCognitiveRetry host validator_response "Interceptor" w3
      = (Normal intercept, w4) /\
      get intercept "parsed" = Some asked /\
      get asked "response" = Some response /\
      processMemoryChat host userText apiKey modelHigh history isQuestionMode false w
      = (Normal (envelope [] (safePayload response)), w4) /\
      grows_by intake_event (after_user_log host userText w) w4) /\
  (forall low others validEntries w' m,
      get low "importance" = Some (VNum m) -> m < 4 ->
      timekeeper_loop host (low :: others) validEntries w'
      = timekeeper_loop host others (validEntries ++ [low]) w').
Proof.
  intros Hanalysis Hentries Hiter Hbefore Himp Hn Htime Hverdict Hvalid Hfalsy.
  split.
  2:{ intros low others validEntries w' m Hm Hlt. cbn [timekeeper_loop].
      unfold bind. rewrite Hm. cbn [orTypeError ret]. rewrite js_lt_num.
      apply Z.ltb_lt in Hlt. now rewrite Hlt. }
  destruct (engine_parsed_object host Interceptor w3)
    as (intercept & w4 & asked & Hrun & Hparsed & Hobj).
  cbn [validator_of label_of] in Hrun.
  destruct asked as [| | | | | |fields]; try discriminate Hobj.
  exists intercept, w4, (VObj fields), (assoc "response" fields).
  split; [exact Hrun|]. split; [exact Hparsed|]. split; [reflexivity|].
  destruct (get_defined entry "importance" "fact" Himp) as [fact Hfact].
  split.
  - unfold processMemoryChat, call_function, bind at 1. rewrite user_log_at.
    unfold standard_mode, bind at 1. rewrite Hanalysis.
    unfold bind at 1. unfold timekeeper_stage, bind at 1. rewrite Hentries.
    cbn [orTypeError ret]. unfold bind at 1. rewrite Hiter. cbn [orTypeError ret].
    unfold bind at 1. rewrite timekeeper_loop_app, Hbefore.
    cbn [timekeeper_loop]. unfold bind at 1. rewrite Himp. cbn [orTypeError ret].
    rewrite js_lt_num. apply Z.ltb_ge in Hn. rewrite Hn.
    unfold bind at 1. unfold try_catch, timekeeper_check, bind at 1. rewrite Htime.
    unfold bind at 1. rewrite Hverdict. cbn [orTypeError ret].
    unfold bind at 1. rewrite Hvalid. cbn [orTypeError ret]. rewrite Hfalsy.
    unfold bind at 1. rewrite Hfact. cbn [orTypeError ret].
    unfold bind at 1. rewrite Hrun.
    unfold bind at 1. rewrite Hparsed. cbn [orTypeError ret get].
    reflexivity.
  - pose proof (intake_analysis host (after_user_log host userText w)) as G1.
    rewrite Hanalysis in G1.
    pose proof (intake_timekeeper_loop host before [] w1) as G2. rewrite Hbefore in G2.
    assert (Hlt : intake_event (EInference "Timekeeper")) by (cbn; tauto).
    pose proof (@intake_engine host validator_valid "Timekeeper" Hlt w2) as G3.
    rewrite Htime in G3.
    assert (Hli : intake_event (EInference "Interceptor")) by (cbn; tauto).
    pose proof (@intake_engine host validator_response "Interceptor" Hli w3) as G4.
    rewrite Hrun in G4. cbn [snd] in *.
    eapply grows_by_trans; [exact G1|]. eapply grows_by_trans; [exact G2|].
    eapply grows_by_trans; [exact G3|exact G4].
Qed.

Lemma C5_timekeeper_interception_witness :
  fst (processMemoryChat undated_host "I went to the zoo" "key" "model" [] false false
                         fresh_world)
  = Normal (envelope [] (safePayload (VStr "When did you go to the zoo?"))).
Proof.
  pose (w0 := after_user_log undated_host "I went to the zoo" fresh_world).
  pose (w1 := snd (analysis_stage undated_host w0)).
  pose (r3 := fetchWithCognitiveRetry undated_host validator_valid "Timekeeper" w1).
  destruct (@C5_timekeeper_interception undated_host "I went to the zoo" "key" "model" []
              false fresh_world analysis_doc w1
              (VArr [tea_entry; zoo_entry]) [tea_entry] zoo_entry [] [tea_entry] w1 5
              (completed VUndef (fst r3)) (snd r3) undated_doc (VBool false))
    as [(intercept & w4 & asked & response & Hrun & Hasked & Hresponse & Hmain & _) _].
  - vm_compute; reflexivity.
  - reflexivity.
  - reflexivity.
  - vm_compute; reflexivity.
  - reflexivity.
  - lia.
  - vm_compute; reflexivity.
  - vm_compute; reflexivity.
  - reflexivity.
  - reflexivity.
  - rewrite Hmain. cbn [fst]. vm_compute in Hrun.
    injection Hrun as <- _. vm_compute in Hasked. injection Hasked as <-.
    vm_compute in Hresponse. injection Hresponse as <-. reflexivity.
Defined.

(** ** Mood sanitizer *)

Lemma upper_char_not_lower c : is_lower_ascii (upper_char c) = false.
Proof. destruct c as [[] [] [] [] [] [] [] []]; reflexivity. Qed.

Lemma toUpperCase_no_lower s :
  forall_string (fun c => negb (is_lower_ascii c)) (toUpperCase s) = true.
Proof.
  unfold toUpperCase. induction s as [|c r IH]; [reflexivity|].
  cbn [map_string forall_string]. now rewrite upper_char_not_lower, IH.
Qed.

Lemma forall_string_trim_start p s :
  forall_string p s = true -> forall_string p (trim_start s) = true.
Proof.
  induction s as [|c r IH]; [auto|]. intros H. cbn in *.
  apply andb_true_iff in H as [Hc Hr].
  destruct (is_space c); [auto|]. cbn. now rewrite Hc, Hr.
Qed.

Lemma forall_string_trim_end p s :
  forall_string p s = true -> forall_string p (trim_end s) = true.
Proof.
  induction s as [|c r IH]; [auto|]. intros H. cbn in *.
  apply andb_true_iff in H as [Hc Hr]. specialize (IH Hr).
  destruct (trim_end r) as [|c' r'].
  - destruct (is_space c); [reflexivity|]. cbn. now rewrite Hc.
  - cbn in *. now rewrite Hc, IH.
Qed.

Lemma trim_end_idem s : trim_end (trim_end s) = trim_end s.
Proof.
  induction s as [|c r IH]; [reflexivity|]. cbn.
  destruct (trim_end r) as [|c' r'] eqn:E.
  - destruct (is_space c) eqn:Hs; [reflexivity|]. cbn. now rewrite Hs.
  - cbn [trim_end]. cbn [trim_end] in IH. rewrite IH. reflexivity.
Qed.

(** Trimming the end keeps a first character that is not a space. *)
Lemma trim_end_head c r :
  is_space c = false -> exists r', trim_end (String c r) = String c r'.
Proof.
  intros Hs. cbn. destruct (trim_end r); rewrite ?Hs; eauto.
Qed.

Lemma trim_start_head s :
  trim_start s = EmptyString \/
  exists c r, trim_start s = String c r /\ is_space c = false.
Proof.
  induction s as [|c r IH]; [left; reflexivity|]. cbn.
  destruct (is_space c) eqn:Hs; [exact IH|]. right. eauto.
Qed.

Lemma trim_idem s : trim (trim s) = trim s.
Proof.
  unfold trim. destruct (trim_start_head s) as [->|(c & r & -> & Hs)]; [reflexivity|].
  destruct (@trim_end_head c r Hs) as [r' E]. rewrite E.
  assert (Hstart : trim_start (String c r') = String c r') by (cbn; now rewrite Hs).
  rewrite Hstart, <- E. apply trim_end_idem.
Qed.

(** The sanitizer yields NEUTRAL for a falsy mood and otherwise the string
    form of the mood, in upper case and trimmed; either way a normalised
    token. *)
Lemma sanitizeMood_normalised m :
  exists s, sanitizeMood m = VStr s /\ normalised s.
Proof.
  unfold sanitizeMood. destruct (truthy m); cbn [negb].
  - eexists. split; [reflexivity|]. split.
    + unfold trim. apply forall_string_trim_end, forall_string_trim_start,
        toUpperCase_no_lower.
    + apply trim_idem.
  - exists "NEUTRAL". split; [reflexivity|]. split; reflexivity.
Qed.

Ltac sanitised_mood :=
  match goal with
  | |- context [sanitizeMood ?m] =>
      let s := fresh "s" in
      let E := fresh "E" in
      let Hn := fresh "Hn" in
      destruct (sanitizeMood_normalised m) as (s & E & Hn);
      rewrite E; exists s; split; [reflexivity|exact Hn]
  end.

Lemma map_opt_Forall {A B} (f : A -> option B) (P : B -> Prop) l l' :
  (forall x y, f x = Some y -> P y) -> map_opt f l = Some l' -> Forall P l'.
Proof.
  intros Hf. revert l'. induction l as [|a l IH]; cbn; intros l' H.
  - injection H as <-. constructor.
  - destruct (f a) as [y|] eqn:Hy; [|discriminate].
    destruct (map_opt f l) as [ys|]; [|discriminate].
    injection H as <-. constructor; eauto.
Qed.

Lemma clean_branch_mood branch branch' :
  clean_branch branch = Some branch' -> mood_normalised branch'.
Proof.
  unfold clean_branch. destruct (get branch "mood") as [mood|] eqn:Hm; [|discriminate].
  intros H; injection H as <-. intros Hobj.
  destruct branch; try discriminate Hobj. cbn [set_field get].
  rewrite assoc_set_same. sanitised_mood.
Qed.

Lemma clean_root_clean root root' : clean_root root = Some root' -> root_clean root'.
Proof.
  unfold clean_root. destruct (get root "mood") as [mood|] eqn:Hm; [|discriminate].
  destruct root as [| | | | | |fields]; try discriminate Hm; cbn [set_field get].
  1-4: (intros H; assert (Hr : exists v, root' = v /\ is_object v = false /\
                              forall bs, get v "branches" <> Some (VArr bs));
        [ cbn in H; injection H as <-; eexists; split; [reflexivity|];
          split; [reflexivity|]; cbn; intros bs; discriminate
        | destruct Hr as (v & -> & Hno & Hb); split;
          [intros Hobj; congruence|intros bs Hbs; destruct (Hb bs Hbs)] ]).
  rewrite assoc_set_other by reflexivity.
  destruct (truthy (assoc "branches" fields)) eqn:Hb.
  - destruct (as_array (assoc "branches" fields)) as [items|] eqn:Hi; [|discriminate].
    destruct (map_opt clean_branch items) as [cleaned|] eqn:Hc; [|discriminate].
    intros H; injection H as <-. split.
    + intros _. cbn [get]. rewrite assoc_set_other by reflexivity.
      rewrite assoc_set_same. sanitised_mood.
    + intros bs Hbs. cbn [get] in Hbs. rewrite assoc_set_same in Hbs.
      injection Hbs as <-.
      exact (map_opt_Forall clean_branch mood_normalised items clean_branch_mood Hc).
  - intros H; injection H as <-. split.
    + intros _. cbn [get]. rewrite assoc_set_same. sanitised_mood.
    + intros bs Hbs. cbn [get] in Hbs. rewrite assoc_set_other in Hbs by reflexivity.
      injection Hbs as Hbs. rewrite Hbs in Hb. discriminate Hb.
Qed.

Lemma sanitised_refl w : sanitised w w.
Proof. split; [apply grows_by_refl|left; reflexivity]. Qed.

Lemma sanitised_trans a b c : sanitised a b -> sanitised b c -> sanitised a c.
Proof.
  intros [G1 M1] [G2 M2]. split; [exact (grows_by_trans G1 G2)|].
  destruct M2 as [E2|(m & E2 & Hn)].
  - destruct M1 as [E1|(m & E1 & Hn)]; [left; congruence|].
    right; exists m; split; [congruence|exact Hn].
  - right; exists m; auto.
Qed.

Lemma sanitised_event e w : graph_clean e -> sanitised w (add_event e w).
Proof. intros H. split; [apply grows_by_event; exact H|left; reflexivity]. Qed.

Lemma sanitised_engine host validatorFn label :
  steps sanitised (fetchWithCognitiveRetry host validatorFn label).
Proof.
  apply steps_engine.
  - apply sanitised_trans.
  - intros w. split; [apply grows_by_fetch; exact I|left; reflexivity].
  - intros ms w. apply sanitised_event. exact I.
Qed.

Lemma sanitised_store_request host body : steps sanitised (store_request host body).
Proof.
  intros w. unfold store_request.
  assert (H : sanitised w (after_store body w)).
  { split; [|left; reflexivity]. exists [EStoreAwait body].
    split; [reflexivity|]. repeat constructor. }
  destruct (storage host (store_calls w)); exact H.
Qed.

Lemma sanitised_store_dispatch body : steps sanitised (store_dispatch body).
Proof. intros w. apply sanitised_event. exact I. Qed.

Lemma sanitised_set_memories context memories :
  steps sanitised (set_memories context memories).
Proof.
  intros w. split; [|left; reflexivity].
  exists []. split; [cbn; now rewrite app_nil_r|constructor].
Qed.

Lemma sanitised_set_currentMood m :
  steps sanitised (set_currentMood (sanitizeMood m)).
Proof.
  intros w. split; [exists []; split; [cbn; now rewrite app_nil_r|constructor]|]. right.
  destruct (sanitizeMood_normalised m) as (s & E & Hn).
  exists s. split; [cbn; exact E|exact Hn].
Qed.

Ltac sanitised_frame :=
  repeat first
    [ apply sanitised_engine
    | apply sanitised_store_request
    | apply sanitised_store_dispatch
    | apply sanitised_set_memories
    | apply sanitised_set_currentMood
    | frame_step sanitised_refl sanitised_trans ].

(** The sanitizer: the current mood is set to a normalised token or left
    alone, and the roots handed to the graph are clean. *)
Lemma sanitised_mood_sanitizer host generationResult :
  steps sanitised (mood_sanitizer host generationResult).
Proof.
  unfold mood_sanitizer.
  apply (steps_bind sanitised_trans); [sanitised_frame|intros parsed].
  destruct (truthy parsed); [|sanitised_frame].
  apply (steps_bind sanitised_trans); [sanitised_frame|intros mood].
  apply (steps_bind sanitised_trans); [sanitised_frame|intros _].
  apply (steps_bind sanitised_trans); [sanitised_frame|intros roots].
  destruct (truthy roots && updateGraphData_defined host); [|sanitised_frame].
  apply (steps_bind sanitised_trans); [sanitised_frame|intros items].
  destruct (map_opt clean_root items) as [cleanRoots|] eqn:Hc; cbn [orTypeError].
  - intros w. unfold bind, ret. cbn [snd]. apply sanitised_event. cbn.
    exact (map_opt_Forall clean_root root_clean items clean_root_clean Hc).
  - sanitised_frame.
Qed.

Lemma sanitised_timekeeper_loop host entries validEntries :
  steps sanitised (timekeeper_loop host entries validEntries).
Proof.
  revert validEntries. induction entries as [|entry rest IH]; intros validEntries;
    cbn [timekeeper_loop]; sanitised_frame; apply IH.
Qed.

Lemma sanitised_director_mode host userText :
  steps sanitised (director_mode host userText).
Proof.
  unfold director_mode, director_chat, chat_retrieval, director_store, dedup_check,
    director_search, ambiguity_check, search_reply.
  sanitised_frame.
Qed.

Lemma sanitised_standard_mode host userText history isQuestionMode :
  steps sanitised (standard_mode host userText history isQuestionMode).
Proof.
  unfold standard_mode.
  apply (steps_bind sanitised_trans); [unfold analysis_stage; sanitised_frame|intros analysis].
  apply (steps_bind sanitised_trans).
  { unfold timekeeper_stage. sanitised_frame. apply sanitised_timekeeper_loop. }
  intros analysis'.
  apply (steps_bind sanitised_trans); [unfold retrieval_stage; sanitised_frame|intros _].
  apply (steps_bind sanitised_trans);
    [unfold generation_stage, reflexive_check; sanitised_frame|].
  intros generationResult.
  apply (steps_bind sanitised_trans); [apply sanitised_mood_sanitizer|intros _].
  apply (steps_bind sanitised_trans); [sanitised_frame|intros _].
  apply (steps_bind sanitised_trans); [|intros _; sanitised_frame].
  unfold persistence_stage, persist_entry, dedup_refine. sanitised_frame.
  intros w. apply sanitised_refl.
Qed.

Lemma sanitised_processMemoryChat host userText apiKey modelHigh history
      isQuestionMode isDirectorMode :
  steps sanitised (processMemoryChat host userText apiKey modelHigh history
                                     isQuestionMode isDirectorMode).
Proof.
  unfold processMemoryChat. apply steps_call_function.
  apply (steps_bind sanitised_trans); [sanitised_frame|intros _].
  destruct isDirectorMode; [apply sanitised_director_mode|apply sanitised_standard_mode].
Qed.


(** A whole turn that ends in the cooperative fallback: two positive
    constraints, the search not found. *)
Example processMemoryChat_cooperative_fallback :
  fst (processMemoryChat pair_host "Show me Cody and Brent" "key" "model" [] false true
                         fresh_world)
  = Normal (cooperative_fallback [VStr "Cody"; VStr "Brent"]).
Proof. vm_compute; reflexivity. Qed.

(** * Further properties *)

(** ** The engine when the service is down, and what a result guarantees *)

Lemma outcome_down_fails host validatorFn n :
  outcome_down (inference host n) = true -> attempt_fails host validatorFn n.
Proof.
  unfold outcome_down, attempt_fails, attempt, try_block, bind, fetch_inference.
  cbn [inference_calls]. destruct (inference host n) as [|status body].
  - intros _. eexists; reflexivity.
  - intros H. cbn [fst snd]. destruct (response_ok status); cbn [negb orb] in *.
    + destruct body; [discriminate|]. eexists; reflexivity.
    + destruct ((status =? 401) || (status =? 403)); eexists; reflexivity.
Qed.

(** With the service down, the engine makes its three attempts and returns
    the safe-mode object. *)
Lemma engine_down host validatorFn label w :
  inference_down host ->
  fetchWithCognitiveRetry host validatorFn label w
  = (Normal safe_mode, after_engine label 2 w).
Proof.
  intros Hdown.
  destruct (fetchWithCognitiveRetry_outcome host validatorFn label w)
    as (retries & r & Hrun & _ & _ & Hlast).
  destruct Hlast as [Hret|(-> & _ & ->)]; [|exact Hrun].
  destruct (outcome_down_fails host validatorFn (retries + inference_calls w)
                               (Hdown _)) as [e He].
  congruence.
Qed.

(** X1.  A value returned by the engine is either the safe-mode object,
    returned after three failed attempts, or the result of the first attempt
    that did not fail, and then its [parsed] field has been accepted by the
    validator: the validator returned a truthy value on it. *)
Theorem engine_result_validated host validatorFn label w :
  exists r retries,
    fetchWithCognitiveRetry host validatorFn label w
    = (Normal r, after_engine label retries w) /\
    (forall k, (k < retries)%nat ->
               attempt_fails host validatorFn (k + inference_calls w)) /\
    ((retries = 2%nat /\ attempt_fails host validatorFn (2 + inference_calls w) /\
      r = safe_mode) \/
     (exists parsed verdict,
         get r "parsed" = Some parsed /\
         validatorFn parsed = Some verdict /\ truthy verdict = true /\
         attempt host validatorFn (retries + inference_calls w) = Return r)).
Proof.
  destruct (fetchWithCognitiveRetry_outcome host validatorFn label w)
    as (retries & r & Hrun & _ & Hfail & Hlast).
  exists r, retries. split; [exact Hrun|]. split; [exact Hfail|].
  destruct Hlast as [Hret|H]; [right|left; exact H].
  destruct (attempt_cases host validatorFn (retries + inference_calls w))
    as [[e He]|(s & data & content & parsed & verdict & _ & _ & _ & _ & Hv & Ht & Hr)];
    [congruence|].
  rewrite Hret in Hr. injection Hr as ->.
  exists parsed, verdict. repeat split; assumption.
Qed.

(** ** Global retrieval *)

Lemma get_truthy v k : truthy v = true -> exists y, get v k = Some y.
Proof.
  destruct v; cbn; intros H; try discriminate H;
    try destruct (String.eqb k "length"); eauto.
Qed.

Lemma filter_opt_total {A} (p : A -> option bool) l :
  (forall x, exists b, p x = Some b) -> exists ys, filter_opt p l = Some ys.
Proof.
  intros Hp. induction l as [|a l [ys IH]]; cbn; [eauto|].
  destruct (Hp a) as [b ->]. rewrite IH. eauto.
Qed.

Lemma long_enough_total host n (w : value) :
  exists b, (if truthy w then let? len := get w "length" in Some (js_gt host len n)
             else Some false) = Some b.
Proof.
  destruct (truthy w) eqn:Ht; [|eauto].
  destruct (get_truthy w "length" Ht) as [len ->]. eauto.
Qed.

(** The keyword set can be built whenever the analysis carries an array of
    keywords or none at all. *)
Lemma search_keys_total host userText history isQuestionMode analysis keywords :
  get analysis "search_keywords" = Some keywords ->
  is_array keywords = true \/ truthy keywords = false ->
  exists keys, search_keys host userText history isQuestionMode analysis = Some keys.
Proof.
  intros Hk Hshape. unfold search_keys. rewrite Hk.
  assert (Harr : exists l0, js_or keywords (VArr []) = VArr l0).
  { unfold js_or. destruct Hshape as [H|H].
    - destruct keywords; try discriminate H. cbn. eauto.
    - rewrite H. eauto. }
  destruct Harr as [l0 ->]. cbv zeta.
  destruct (strlen userText <? 50); [destruct (negb _ && _)|]; cbn [as_array];
    (destruct (0 <? Z.of_nat (List.length history));
     [destruct (rev (with_role "assistant" history)); cbn [concat_words];
      (destruct (isQuestionMode || (strlen userText <? 30));
       [destruct (deep_anchor _); cbn [concat_words]|])|]);
    cbn [iterate];
    match goal with
    | |- context [filter_opt ?p ?l] =>
        let ys := fresh "ys" in
        destruct (filter_opt_total p l (long_enough_total host 2)) as [ys ->];
        destruct ys; eauto
    end.
Qed.

(** One run of the retrieval stage. *)
Lemma retrieval_stage_run host userText history isQuestionMode analysis keys w :
  store_configured host = true ->
  search_keys host userText history isQuestionMode analysis = Some keys ->
  retrieval_stage host userText history isQuestionMode analysis w
  = (Normal tt,
     match retrieved host w with
     | Some items =>
         with_memories (retrieved_context items) (VArr items)
                       (after_store (retrieve (VArr keys)) w)
     | None => after_store (retrieve (VArr keys)) w
     end).
Proof.
  intros Hconf Hkeys. unfold retrieval_stage, retrieved.
  rewrite Hconf, Hkeys. cbn [orTypeError]. unfold bind at 1. cbn [ret].
  unfold try_catch, bind at 1, store_request.
  destruct (storage host (store_calls w)) as [| |memRes]; try reflexivity.
  unfold bind at 1.
  destruct (get memRes "found") as [found|]; cbn [orTypeError ret throw]; [|reflexivity].
  destruct (truthy found); [|reflexivity].
  unfold bind at 1.
  destruct (get memRes "relevant_memories") as [memories|];
    cbn [orTypeError ret throw]; [|reflexivity].
  unfold bind.
  destruct memories; cbn [js_join as_array orTypeError ret throw]; reflexivity.
Qed.

(** X2.  With a storage URL and a keyword set that can be built, the
    retrieval stage never raises.  It issues one request; when the service
    answers with a truthy [found] and an array of memories, the retrieved
    context and the raw memories are replaced; in every other case (service
    unreachable, invalid body, not found, memories not an array) both are
    left as the previous turn set them. *)
Theorem retrieval_keeps_or_replaces host userText history isQuestionMode analysis keys w :
  store_configured host = true ->
  search_keys host userText history isQuestionMode analysis = Some keys ->
  retrieval_stage host userText history isQuestionMode analysis w
  = (Normal tt,
     match retrieved host w with
     | Some items =>
         with_memories (retrieved_context items) (VArr items)
                       (after_store (retrieve (VArr keys)) w)
     | None => after_store (retrieve (VArr keys)) w
     end).
Proof.
  intros Hconf Hkeys.
  exact (@retrieval_stage_run host userText history isQuestionMode analysis keys w
           Hconf Hkeys).
Qed.

Lemma retrieval_keeps_or_replaces_witness :
  lastRetrievedMemories
    (snd (retrieval_stage (offline_host (StoreAnswers memory_doc) store_url)
                          "tea" [] false safe_mode_parsed fresh_world))
  = retrieved_context [VStr "Arvin likes tea."; VStr "Jemi is a friend."].
Proof.
  rewrite (@retrieval_keeps_or_replaces (offline_host (StoreAnswers memory_doc) store_url)
             "tea" [] false safe_mode_parsed [VStr "Tea"] fresh_world).
  - reflexivity.
  - reflexivity.
  - vm_compute; reflexivity.
Defined.

(** ** Safe mode of a whole turn *)

Lemma analysis_down host w :
  inference_down host ->
  analysis_stage host w
  = (Normal safe_mode_parsed, after_engine "Hybrid Analysis" 2 w).
Proof.
  intros Hdown. unfold analysis_stage, try_catch, bind.
  rewrite (@engine_down host validator_search_keywords "Hybrid Analysis" w Hdown).
  reflexivity.
Qed.

Lemma generation_down host isQuestionMode w :
  inference_down host ->
  generation_stage host isQuestionMode w
  = (Normal safe_mode, after_engine "Generation" 2 w).
Proof.
  intros Hdown. unfold generation_stage, bind.
  rewrite (@engine_down host validator_response_mood "Generation" w Hdown).
  cbn [get safe_mode assoc orTypeError ret].
  destruct (isQuestionMode && store_configured host); reflexivity.
Qed.

Lemma timekeeper_no_entries host w :
  timekeeper_stage host safe_mode_parsed w = (Normal safe_mode_parsed, w).
Proof. reflexivity. Qed.

Lemma sanitizer_safe_mode host w :
  mood_sanitizer host safe_mode w = (Normal tt, with_mood (VStr "NEUTRAL") w).
Proof. reflexivity. Qed.

Lemma persistence_no_entries host w :
  persistence_stage host safe_mode_parsed w = (Normal tt, w).
Proof. unfold persistence_stage. destruct (store_configured host); reflexivity. Qed.

Lemma quiet_engine label retries : Forall quiet_event (engine_events label retries).
Proof.
  unfold engine_events. constructor; [exact I|].
  generalize 1000. induction retries as [|k IH]; intros delay; cbn [backoff].
  - constructor.
  - constructor; [exact I|]. constructor; [exact I|]. apply IH.
Qed.

(** X3.  Standard mode with the inference service down for the whole turn:
    whatever the input, the history, the mode flag and the storage service
    do, the turn does not raise; the reply carries the safe-mode text (mood
    NEUTRAL, response "..."), the global mood is set to NEUTRAL, nothing is
    handed to the graph and nothing but the chat log is written. *)
Theorem standard_mode_safe_reply host userText apiKey modelHigh history isQuestionMode w :
  inference_down host ->
  exists w',
    processMemoryChat host userText apiKey modelHigh history isQuestionMode false w
    = (Normal (envelope [] (VStr safe_mode_text)), w') /\
    currentMood w' = VStr "NEUTRAL" /\
    grows_by quiet_event w w'.
Proof.
  intros Hdown.
  destruct (@search_keys_total host userText history isQuestionMode safe_mode_parsed VUndef)
    as [keys Hkeys]; [reflexivity|right; reflexivity|].
  pose (w0 := after_user_log host userText w).
  pose (w1 := after_engine "Hybrid Analysis" 2 w0).
  assert (Hret : exists w2,
             retrieval_stage host userText history isQuestionMode safe_mode_parsed w1
             = (Normal tt, w2) /\ grows_by quiet_event w1 w2).
  { destruct (store_configured host) eqn:Hconf.
    - rewrite (@retrieval_stage_run host userText history isQuestionMode
               safe_mode_parsed keys w1 Hconf Hkeys).
      eexists. split; [reflexivity|].
      exists [EStoreAwait (retrieve (VArr keys))].
      split; [destruct (retrieved host w1); reflexivity|repeat constructor].
    - exists w1. split; [|apply grows_by_refl].
      unfold retrieval_stage. now rewrite Hconf. }
  destruct Hret as (w2 & Hret & G2).
  pose (w3 := with_mood (VStr "NEUTRAL") (after_engine "Generation" 2 w2)).
  assert (Hlog : exists w4,
             (if store_configured host
              then
                parsed <- orTypeError (get safe_mode "parsed") ;;
                response <- orTypeError (get parsed "response") ;;
                store_dispatch (log_chat "assistant" response)
              else ret tt) w3 = (Normal tt, w4) /\
             grows_by quiet_event w3 w4 /\ currentMood w4 = VStr "NEUTRAL").
  { destruct (store_configured host).
    - eexists. split; [reflexivity|]. split; [|reflexivity].
      apply grows_by_event. cbn. eauto.
    - exists w3. split; [reflexivity|]. split; [apply grows_by_refl|reflexivity]. }
  destruct Hlog as (w4 & Hlog & G4 & Hmood).
  exists w4. split; [|split; [exact Hmood|]].
  - unfold processMemoryChat, call_function, bind at 1. rewrite user_log_at.
    fold w0. unfold standard_mode, bind at 1. rewrite (@analysis_down host w0 Hdown).
    fold w1. unfold bind at 1. rewrite timekeeper_no_entries.
    unfold bind at 1. rewrite Hret.
    unfold bind at 1. rewrite (@generation_down host isQuestionMode w2 Hdown).
    unfold bind at 1. rewrite sanitizer_safe_mode. fold w3.
    unfold bind at 1. rewrite Hlog.
    unfold bind at 1. rewrite persistence_no_entries.
    reflexivity.
  - assert (G0 : grows_by quiet_event w w0).
    { unfold w0, after_user_log. destruct (store_configured host);
        [apply grows_by_event; cbn; eauto|apply grows_by_refl]. }
    assert (G1 : grows_by quiet_event w0 w1).
    { eexists. split; [reflexivity|apply quiet_engine]. }
    assert (G3 : grows_by quiet_event w2 w3).
    { eexists. split; [reflexivity|apply quiet_engine]. }
    eapply grows_by_trans; [exact G0|]. eapply grows_by_trans; [exact G1|].
    eapply grows_by_trans; [exact G2|]. eapply grows_by_trans; [exact G3|exact G4].
Qed.

Lemma standard_mode_safe_reply_witness :
  fst (processMemoryChat (offline_host StoreUnreachable store_url)
                         "I went to the zoo" "key" "model" [] true false fresh_world)
  = Normal (envelope [] (VStr safe_mode_text)).
Proof.
  destruct (@standard_mode_safe_reply (offline_host StoreUnreachable store_url)
              "I went to the zoo" "key" "model" [] true fresh_world)
    as (w' & Hrun & _).
  - intros n. reflexivity.
  - rewrite Hrun. reflexivity.
Defined.

(** X4.  Director mode with the inference service down: the classification
    is the safe-mode object, which names no intent, so the turn makes its
    three attempts, reads nothing from the storage service, and returns the
    placeholder response with mood CRYPTIC. *)
Theorem director_mode_safe_reply host userText apiKey modelHigh history isQuestionMode w :
  inference_down host ->
  processMemoryChat host userText apiKey modelHigh history isQuestionMode true w
  = (Normal (envelope [] (payload (VStr "...") (VStr "CRYPTIC"))),
     after_engine "DirectorAI" 2 (after_user_log host userText w)).
Proof.
  intros Hdown.
  unfold processMemoryChat, call_function, bind at 1. rewrite user_log_at.
  unfold director_mode, bind at 1.
  rewrite (@engine_down host validator_intent "DirectorAI" _ Hdown).
  reflexivity.
Qed.

Lemma director_mode_safe_reply_witness :
  fst (processMemoryChat (offline_host StoreUnreachable store_url)
                         "Show me Cody" "key" "model" [] false true fresh_world)
  = Normal (envelope [] (payload (VStr "...") (VStr "CRYPTIC"))).
Proof.
  rewrite (@director_mode_safe_reply (offline_host StoreUnreachable store_url)
             "Show me Cody" "key" "model" [] false fresh_world).
  - reflexivity.
  - intros n. reflexivity.
Defined.

(** ** The mood sanitizer on its own output *)

Lemma upper_char_fixed c : is_lower_ascii c = false -> upper_char c = c.
Proof. unfold upper_char. now intros ->. Qed.

Lemma toUpperCase_fixed s :
  forall_string (fun c => negb (is_lower_ascii c)) s = true -> toUpperCase s = s.
Proof.
  unfold toUpperCase. induction s as [|c r IH]; [reflexivity|].
  cbn [forall_string map_string]. intros H. apply andb_true_iff in H as [Hc Hr].
  apply negb_true_iff in Hc. now rewrite (upper_char_fixed c Hc), IH.
Qed.

Lemma space_not_lower c : is_space c = true -> is_lower_ascii c = false.
Proof. destruct c as [[] [] [] [] [] [] [] []]; cbn; intros H; try reflexivity; discriminate H. Qed.

Lemma trim_start_blank s : forall_string is_space s = true -> trim_start s = EmptyString.
Proof.
  induction s as [|c r IH]; [reflexivity|]. cbn. intros H.
  apply andb_true_iff in H as [Hc Hr]. rewrite Hc. auto.
Qed.

Lemma blank_no_lower s :
  forall_string is_space s = true ->
  forall_string (fun c => negb (is_lower_ascii c)) s = true.
Proof.
  induction s as [|c r IH]; [reflexivity|]. cbn. intros H.
  apply andb_true_iff in H as [Hc Hr]. now rewrite (space_not_lower c Hc), IH.
Qed.

(** X5.  The sanitizer applied to its own output gives the same token,
    with one exception: when its output is the empty string, a second pass
    gives NEUTRAL.  That output arises for a mood made of white space only,
    which is truthy and so does not get the NEUTRAL default. *)
Theorem sanitizeMood_again m :
  (exists s, sanitizeMood m = VStr s /\
             sanitizeMood (VStr s)
             = VStr (if String.eqb s EmptyString then "NEUTRAL" else s)) /\
  (forall blank, blank <> EmptyString -> forall_string is_space blank = true ->
                 sanitizeMood (VStr blank) = VStr EmptyString).
Proof.
  split.
  - destruct (sanitizeMood_normalised m) as (s & E & Hup & Htrim).
    exists s. split; [exact E|].
    destruct (String.eqb s EmptyString) eqn:Hs.
    + apply String.eqb_eq in Hs. subst. reflexivity.
    + unfold sanitizeMood. cbn [truthy ToString]. rewrite Hs. cbn [negb].
      now rewrite (toUpperCase_fixed s Hup), Htrim.
  - intros blank Hne Hblank. unfold sanitizeMood. cbn [truthy ToString].
    destruct (String.eqb blank EmptyString) eqn:Hs;
      [apply String.eqb_eq in Hs; contradiction|]. cbn [negb].
    rewrite (toUpperCase_fixed blank (blank_no_lower blank Hblank)).
    unfold trim. now rewrite (trim_start_blank blank Hblank).
Qed.

Lemma sanitizeMood_again_witness :
  sanitizeMood (VStr "  ") = VStr EmptyString /\
  sanitizeMood (sanitizeMood (VStr "  ")) = VStr "NEUTRAL".
Proof.
  destruct (sanitizeMood_again (VStr "  ")) as [(s & E & Hagain) Hblank].
  assert (H : sanitizeMood (VStr "  ") = VStr EmptyString).
  { apply Hblank; [discriminate|reflexivity]. }
  split; [exact H|]. rewrite H. reflexivity.
Defined.

(** ** The client-side filter: what it keeps and what it drops *)


Lemma some_opt_hit {A} (p : A -> option bool) l x :
  (forall y, In y l -> exists b, p y = Some b) -> In x l -> p x = Some true ->
  some_opt p l = Some true.
Proof.
  induction l as [|a l IH]; cbn; intros Htot Hin Hx; [contradiction|].
  destruct (Htot a (or_introl eq_refl)) as [b Hb]. rewrite Hb.
  destruct b; [reflexivity|].
  destruct Hin as [->|Hin]; [congruence|].
  apply IH; auto.
Qed.

Lemma filter_opt_filter {A} (p : A -> option bool) (q : A -> bool) l :
  (forall x, In x l -> p x = Some (q x)) -> filter_opt p l = Some (filter q l).
Proof.
  induction l as [|a l IH]; cbn; intros H; [reflexivity|].
  rewrite (H a (or_introl eq_refl)), IH; [reflexivity|].
  intros x Hx. apply H. now right.
Qed.

(** The filter of the SEARCH case, once its guard holds. *)
Lemma enforce_excludes_guarded host excludes fields files :
  excludes <> [] ->
  truthy (assoc "found" fields) = true ->
  assoc "files" fields = VArr files ->
  enforce_excludes host (VArr excludes) (VObj fields) =
  let? kept := filter_opt (keep_file (VArr excludes)) files in
  Some (VObj (if (Z.of_nat (List.length kept) =? 0) && (0 <? Z.of_nat (List.length files))
              then set_assoc "found" (VBool false)
                             (set_assoc "files" (VArr kept) fields)
              else set_assoc "files" (VArr kept) fields)).
Proof.
  intros Hne Hfound Hfiles. unfold enforce_excludes. cbn [get].
  change (String.eqb "length" "length") with true. cbv iota.
  rewrite Hfound, Hfiles, js_gt_length.
  assert (Hlen : (0 <? Z.of_nat (List.length excludes)) = true).
  { destruct excludes; [contradiction|]. cbn [List.length]. apply Z.ltb_lt. lia. }
  rewrite Hlen. cbn [andb get as_array].
  change (String.eqb "length" "length") with true. cbv iota.
  destruct (filter_opt (keep_file (VArr excludes)) files) as [kept|]; [|reflexivity].
  rewrite js_gt_length. destruct (_ && _); reflexivity.
Qed.




Lemma str_includes_empty hay : str_includes hay EmptyString = true.
Proof. destruct hay; reflexivity. Qed.

(** X7.  An exclude list that holds the empty string drops every file: the
    empty string is contained in any text.  On well-formed data the result
    has no files, and when the answer had files its found flag is set to
    false. *)
Theorem empty_exclude_drops_all host excludes fields files :
  In (VStr EmptyString) excludes ->
  truthy (assoc "found" fields) = true ->
  assoc "files" fields = VArr files ->
  Forall (fun f => is_object f = true) files ->
  Forall (fun ex => is_string ex = true) excludes ->
  exists filtered,
    enforce_excludes host (VArr excludes) (VObj fields) = Some filtered /\
    get filtered "files" = Some (VArr []) /\
    (files <> [] -> get filtered "found" = Some (VBool false)).
Proof.
  intros Hin Hfound Hfiles Hobj Hstr.
  assert (Hne : excludes <> []) by (intros ->; contradiction).
  rewrite (@enforce_excludes_guarded host excludes fields files Hne Hfound Hfiles).
  rewrite (@filter_opt_filter _ (keep_file (VArr excludes)) (fun _ => false) files).
  2:{ intros f Hf. rewrite Forall_forall in Hobj. specialize (Hobj f Hf).
      destruct f; try discriminate Hobj.
      unfold keep_file, file_meta, mentions_excluded. cbn [get as_array].
      match goal with
      | |- context [some_opt ?p excludes] =>
          rewrite (@some_opt_hit _ p excludes (VStr EmptyString))
      end;
        [reflexivity| |exact Hin
        |cbn [js_toLowerCase as_string toLowerCase map_string];
         now rewrite str_includes_empty].
      intros ex Hex. cbv beta. rewrite Forall_forall in Hstr. specialize (Hstr ex Hex).
      destruct ex; try discriminate Hstr. cbn [js_toLowerCase as_string]. eauto. }
  assert (Hnil : filter (fun _ : value => false) files = []).
  { clear. induction files; auto. }
  rewrite Hnil. cbn [List.length Z.of_nat Z.eqb andb].
  eexists. split; [reflexivity|]. split.
  - destruct (0 <? Z.of_nat (List.length files)); cbn [get]; f_equal.
    + rewrite assoc_set_other by reflexivity. apply assoc_set_same.
    + apply assoc_set_same.
  - intros Hfs. assert (Hl : (0 <? Z.of_nat (List.length files)) = true).
    { destruct files; [contradiction|]. cbn [List.length]. apply Z.ltb_lt. lia. }
    rewrite Hl. cbn [get]. f_equal. apply assoc_set_same.
Qed.

Lemma empty_exclude_drops_all_witness :
  exists filtered,
    enforce_excludes store_host (VArr [VStr EmptyString]) found_two_files = Some filtered /\
    get filtered "found" = Some (VBool false).
Proof.
  destruct (@empty_exclude_drops_all store_host [VStr EmptyString]
              [("found", VBool true); ("files", VArr [john_file; brent_file])]
              [john_file; brent_file])
    as (filtered & Hrun & _ & Hflag).
  - left; reflexivity.
  - reflexivity.
  - reflexivity.
  - repeat constructor.
  - repeat constructor.
  - exists filtered. split; [exact Hrun|]. apply Hflag. discriminate.
Defined.

(** ** Director STORE: when the fact is written *)






(** X9.  The duplicate check of the STORE case fails open.  When there is
    no lookup key, no request is made; when the lookup request fails
    (service unreachable, body not JSON, or a body on which the found-test
    raises), the failure is swallowed.  In both cases the fact is written
    unchecked and the confirmation is returned. *)
Theorem director_store_unchecked host aiRes lookupKeys w :
  lookup_keys host aiRes = Some lookupKeys ->
  lookupKeys = [] \/ retrieval_raises host (storage host (store_calls w)) ->
  director_store host aiRes w
  = (Return (database_updated (assoc_of aiRes "response")),
     add_event (EStoreDispatch (store_director_fact (assoc_of aiRes "fact_to_store")
                                                    (assoc_of aiRes "entity_name")))
               (match lookupKeys with
                | [] => w
                | _ => after_store (retrieve_director_memory (VArr lookupKeys)) w
                end)).
Proof.
  intros Hkeys Hfail.
  assert (Hread : forall k, get aiRes k = Some (assoc_of aiRes k)).
  { intros k. unfold assoc_of, lookup_keys in *.
    destruct (get aiRes "entity_name") eqn:He; [|discriminate Hkeys].
    destruct (get_defined aiRes "entity_name" k He) as [y ->]. reflexivity. }
  assert (Hflags : try_catch (dedup_check host lookupKeys)
                             (fun _ => ret (false, false, VStr EmptyString)) w
                   = (Normal (false, false, VStr EmptyString),
                      match lookupKeys with
                      | [] => w
                      | _ => after_store (retrieve_director_memory (VArr lookupKeys)) w
                      end)).
  { unfold try_catch, dedup_check. destruct lookupKeys as [|k ks]; [reflexivity|].
    destruct Hfail as [Hnil|Hraise]; [discriminate Hnil|].
    assert (Hlen : (0 <? Z.of_nat (List.length (k :: ks))) = true).
    { cbn [List.length]. apply Z.ltb_lt. lia. }
    rewrite Hlen. unfold bind at 1, store_request. unfold retrieval_raises in Hraise.
    destruct (storage host (store_calls w)) as [| |body]; try reflexivity.
    unfold bind at 1. rewrite Hraise. reflexivity. }
  unfold director_store, bind at 1. rewrite Hkeys. cbn [orTypeError ret].
  unfold bind at 1. rewrite Hflags.
  unfold bind. rewrite !Hread. cbn [orTypeError ret]. unfold store_dispatch.
  rewrite emit_at. reflexivity.
Qed.

Lemma director_store_unchecked_witness :
  fst (processMemoryChat store_unreachable_host "Cody is the tall guy" "key" "model" []
                         false true fresh_world)
  = Normal (database_updated (VStr "Noted.")) /\
  fst (director_store store_unreachable_host store_doc fresh_world)
  = Return (database_updated (VStr "Noted.")).
Proof.
  split; [vm_compute; reflexivity|].
  rewrite (@director_store_unchecked store_unreachable_host store_doc [VStr "Cody"]
             fresh_world).
  - reflexivity.
  - vm_compute; reflexivity.
  - right. exact I.
Defined.

(** ** Lookup keys of the STORE case *)

Lemma strict_eq_eq a b : strict_eq a b = true -> a = b.
Proof.
  destruct a, b; cbn; intros H; try discriminate H; try reflexivity.
  - apply Bool.eqb_prop in H. now subst.
  - apply Z.eqb_eq in H. now subst.
  - apply String.eqb_eq in H. now subst.
Qed.

Lemma set_of_seen l seen y :
  existsb (strict_eq y) seen = true -> filter (strict_eq y) (set_of l seen) = [].
Proof.
  revert seen. induction l as [|x r IH]; intros seen Hseen; cbn [set_of]; [reflexivity|].
  destruct (existsb (strict_eq x) seen) eqn:Hx; [auto|].
  cbn [filter]. destruct (strict_eq y x) eqn:Hyx.
  - apply strict_eq_eq in Hyx. subst. congruence.
  - apply IH. rewrite existsb_app, Hseen. reflexivity.
Qed.

Lemma set_of_once l seen y :
  (List.length (filter (strict_eq y) (set_of l seen)) <= 1)%nat.
Proof.
  revert seen. induction l as [|x r IH]; intros seen; cbn [set_of]; [cbn; lia|].
  destruct (existsb (strict_eq x) seen) eqn:Hx; [apply IH|].
  cbn [filter]. destruct (strict_eq y x) eqn:Hyx; [|apply IH].
  rewrite set_of_seen; [cbn; lia|].
  rewrite existsb_app. cbn [existsb].
  pose proof (strict_eq_eq _ _ Hyx) as E. subst. rewrite Hyx. now rewrite orb_true_r.
Qed.

Lemma filter_opt_fewer {A} (p : A -> option bool) (q : A -> bool) l ys :
  filter_opt p l = Some ys ->
  (List.length (filter q ys) <= List.length (filter q l))%nat.
Proof.
  revert ys. induction l as [|a l IH]; cbn [filter_opt]; intros ys H.
  - injection H as <-. cbn; lia.
  - destruct (p a) as [b|]; [|discriminate].
    destruct (filter_opt p l) as [zs|]; [|discriminate].
    injection H as <-. specialize (IH zs eq_refl).
    destruct b; cbn [filter]; destruct (q a); cbn [List.length]; lia.
Qed.

(** X10.  Every lookup key of the STORE case is truthy and has a length
    greater than one, and no string (or other primitive) occurs twice among
    the keys. *)
Theorem lookup_keys_distinct host aiRes keys :
  lookup_keys host aiRes = Some keys ->
  (forall k, In k keys ->
             truthy k = true /\
             exists len, get k "length" = Some len /\ js_gt host len 1 = true) /\
  (forall x, (List.length (filter (strict_eq x) keys) <= 1)%nat).
Proof.
  unfold lookup_keys.
  destruct (get aiRes "entity_name") as [entity_name|]; [|discriminate].
  destruct (get aiRes "positive_constraints") as [positive_constraints|]; [|discriminate].
  destruct (get aiRes "fact_to_store") as [fact_to_store|]; [|discriminate].
  cbv zeta.
  match goal with
  | |- (let? keys0 := ?c in _) = _ -> _ => destruct c as [candidates|]
  end; [|discriminate].
  intros H. split.
  - intros k Hk. destruct (filter_opt_kept _ _ H k Hk) as [_ Hp]. cbv beta in Hp.
    destruct (truthy k); [|discriminate Hp]. split; [reflexivity|].
    destruct (get k "length") as [len|]; [|discriminate Hp].
    exists len. split; [reflexivity|]. congruence.
  - intros x. etransitivity; [exact (filter_opt_fewer _ (strict_eq x) _ H)|].
    apply set_of_once.
Qed.

Lemma lookup_keys_distinct_witness :
  lookup_keys store_host
              (VObj [("entity_name", VStr "Cody");
                     ("positive_constraints", VArr [VStr "Cody"; VStr "X"; VStr "Brent"])])
  = Some [VStr "Cody"; VStr "Brent"] /\
  (List.length (filter (strict_eq (VStr "Cody")) [VStr "Cody"; VStr "Brent"]) <= 1)%nat.
Proof.
  assert (H : lookup_keys store_host
                (VObj [("entity_name", VStr "Cody");
                       ("positive_constraints", VArr [VStr "Cody"; VStr "X"; VStr "Brent"])])
              = Some [VStr "Cody"; VStr "Brent"]) by (vm_compute; reflexivity).
  split; [exact H|].
  exact (proj2 (@lookup_keys_distinct store_host _ _ H) (VStr "Cody")).
Defined.

(** ** Director CHAT: the drill-down targets *)

Lemma collect_entities_from memories found result :
  collect_entities memories found = Some result ->
  forall e, In e result ->
            In e found \/
            (truthy e = true /\ exists m, In m memories /\ get m "Entity" = Some e).
Proof.
  revert found. induction memories as [|m r IH]; cbn [collect_entities]; intros found H e He.
  - injection H as <-. now left.
  - destruct (get m "Entity") as [x|] eqn:Hx; [|discriminate].
    destruct (truthy x && negb (existsb (strict_eq x) found)) eqn:Hadd.
    + destruct (IH _ H e He) as [Hin|(Ht & m' & Hm' & Hg)].
      * apply in_app_or in Hin as [Hin|[<-|[]]]; [now left|].
        right. apply andb_true_iff in Hadd as [Ht _]. split; [exact Ht|].
        exists m. split; [now left|exact Hx].
      * right. split; [exact Ht|]. exists m'. split; [now right|exact Hg].
    + destruct (IH _ H e He) as [Hin|(Ht & m' & Hm' & Hg)]; [now left|].
      right. split; [exact Ht|]. exists m'. split; [now right|exact Hg].
Qed.

Lemma partition_permutation {A} (f : A -> bool) l :
  Permutation (filter f l ++ filter (fun x => negb (f x)) l) l.
Proof.
  induction l as [|a l IH]; cbn [filter]; [constructor|].
  destruct (f a); cbn [negb app].
  - now constructor.
  - symmetry. apply Permutation_cons_app. now symmetry.
Qed.

Lemma map_opt_fst {A B} (s : A -> option B) l scored :
  map_opt (fun a => let? b := s a in Some (a, b)) l = Some scored ->
  map fst scored = l.
Proof.
  revert scored. induction l as [|a l IH]; cbn [map_opt]; intros scored H.
  - injection H as <-. reflexivity.
  - destruct (s a); [|discriminate].
    destruct (map_opt _ l) as [rest|]; [|discriminate].
    injection H as <-. cbn. f_equal. apply IH. reflexivity.
Qed.

(** Sorting loses and adds no target. *)
Lemma sort_targets_permutation positive_constraints memories targets sorted :
  sort_targets positive_constraints memories targets = Some sorted ->
  Permutation sorted targets.
Proof.
  unfold sort_targets. destruct targets as [|a [|b r]].
  1-2: intros H; injection H as <-; reflexivity.
  destruct (map_opt _ (a :: b :: r)) as [scored|] eqn:Hs; [|discriminate].
  intros H; injection H as <-.
  rewrite <- (map_opt_fst _ _ Hs), <- map_app.
  apply Permutation_map.
  exact (partition_permutation (fun p => snd p) scored).
Qed.

Lemma firstn_subset {A} n (l : list A) x : In x (firstn n l) -> In x l.
Proof.
  revert l. induction n as [|n IH]; intros [|a l]; cbn; auto; try tauto.
  intros [H|H]; auto.
Qed.

Lemma firstn_all_or_full {A} n (l : list A) x :
  In x l -> In x (firstn n l) \/ List.length (firstn n l) = n.
Proof.
  intros Hin. destruct (Nat.le_gt_cases (List.length l) n) as [Hle|Hgt].
  - left. now rewrite firstn_all2.
  - right. apply firstn_length_le. lia.
Qed.

Lemma collect_entities_complete memories found result :
  collect_entities memories found = Some result ->
  (forall x, In x found -> In x result) /\
  (forall m e, In m memories -> get m "Entity" = Some e -> truthy e = true ->
               is_string e = true -> In e result).
Proof.
  revert found result. induction memories as [|m r IH]; intros found result H.
  - cbn in H. injection H as <-. split; [auto|intros ? ? []].
  - cbn [collect_entities] in H.
    destruct (get m "Entity") as [x|] eqn:Hx; [|discriminate H].
    destruct (truthy x && negb (existsb (strict_eq x) found)) eqn:Hadd.
    + destruct (IH _ _ H) as [Hkeep Hall]. split.
      * intros y Hy. apply Hkeep. apply in_or_app. now left.
      * intros m' e [<-|Hm] He Ht Hs; [|eapply Hall; eauto].
        rewrite Hx in He. injection He as <-.
        apply Hkeep. apply in_or_app. right. now left.
    + destruct (IH _ _ H) as [Hkeep Hall]. split; [exact Hkeep|].
      intros m' e [<-|Hm] He Ht Hs; [|eapply Hall; eauto].
      rewrite Hx in He. injection He as <-. rewrite Ht in Hadd. cbn in Hadd.
      apply negb_false_iff in Hadd. apply existsb_exists in Hadd as (y & Hy & Heq).
      apply strict_eq_eq in Heq. subst. apply Hkeep. exact Hy.
Qed.

Lemma collect_entities_total memories found :
  Forall (fun m => memory_ok m = true) memories ->
  exists result, collect_entities memories found = Some result.
Proof.
  intros Hok. revert found. induction Hok as [|m r Hm _ IH]; intros found; cbn; [eauto|].
  destruct m; try discriminate Hm. cbn [get].
  destruct (_ && _); apply IH.
Qed.

Lemma fact_of_text memories a :
  Forall (fun m => memory_ok m = true) memories ->
  exists s, fact_of memories a = Some (VStr s).
Proof.
  intros Hok. induction Hok as [|m r Hm _ IH]; cbn; [eauto|].
  destruct m as [| | | | | |fields]; try discriminate Hm. cbn [get].
  destruct (strict_eq (assoc "Entity" fields) a); [|exact IH].
  cbn in Hm. apply andb_true_iff in Hm as [_ Hf]. unfold text_or_falsy in Hf.
  unfold js_or. destruct (assoc "Fact" fields) as [| |b|n|s|l|fs]; cbn in *;
    try discriminate Hf; eauto.
  - destruct b; [discriminate Hf|eauto].
  - destruct (n =? 0); cbn in *; try discriminate Hf; eauto.
  - destruct (String.eqb s EmptyString); cbn; eauto.
Qed.

Lemma trait_score_total constraints memories a :
  Forall (fun k => is_string k = true) constraints ->
  Forall (fun m => memory_ok m = true) memories ->
  exists b, trait_score (VArr constraints) memories a = Some b.
Proof.
  intros Hks Hok. unfold trait_score.
  destruct (fact_of_text a Hok) as [s ->]. cbn [as_array js_toLowerCase as_string].
  induction Hks as [|k r Hk _ IH]; cbn; [eauto|].
  destruct k; try discriminate Hk. cbn.
  destruct (str_includes _ _); [eauto|exact IH].
Qed.

Lemma map_opt_total {A B} (f : A -> option B) l :
  (forall a, exists b, f a = Some b) -> exists l', map_opt f l = Some l'.
Proof.
  intros Hf. induction l as [|a l [l' IH]]; cbn; [eauto|].
  destruct (Hf a) as [b ->]. rewrite IH. eauto.
Qed.

Lemma sort_targets_total constraints memories targets :
  Forall (fun k => is_string k = true) constraints ->
  Forall (fun m => memory_ok m = true) memories ->
  exists sorted, sort_targets (VArr constraints) memories targets = Some sorted.
Proof.
  intros Hks Hok. unfold sort_targets.
  destruct targets as [|a [|b r]]; [eauto|eauto|].
  match goal with
  | |- context [map_opt ?f ?l] =>
      destruct (@map_opt_total _ _ f l) as [scored ->]
  end; [|eauto].
  intros x. destruct (trait_score_total x Hks Hok) as [s ->]. eauto.
Qed.

Lemma no_storage_engine host validatorFn label :
  steps (grows_by no_storage) (fetchWithCognitiveRetry host validatorFn label).
Proof.
  apply steps_engine.
  - apply grows_by_trans.
  - intros w. apply grows_by_fetch. exact I.
  - intros ms w. apply grows_by_event. exact I.
Qed.

Ltac no_storage_frame :=
  repeat first
    [ apply no_storage_engine
    | frame_step (grows_by_refl no_storage) (@grows_by_trans no_storage) ].

(** What follows a storage request adds no further storage request when
    the rest of the code makes none. *)
Lemma after_request_no_storage {A B} host body (k : value -> M A) (rest : A -> M B) w :
  (forall res, steps (grows_by no_storage) (k res)) ->
  (forall a, steps (grows_by no_storage) (rest a)) ->
  grows_by no_storage (after_store body w)
           (snd (bind (bind (store_request host body) k) rest w)).
Proof.
  intros Hk Hrest. unfold bind at 1. unfold bind at 1. unfold store_request.
  change (mkWorld (inference_calls w) (S (store_calls w))
                  (events w ++ [EStoreAwait body])
                  (currentMood w) (lastRetrievedMemories w) (rawMemories w))
    with (after_store body w).
  destruct (storage host (store_calls w)) as [| |res]; try apply grows_by_refl.
  pose proof (@steps_bind _ (@grows_by_trans no_storage)
                _ _ (k res) rest (Hk res) Hrest (after_store body w)) as H.
  unfold bind in H. exact H.
Qed.

(** X11.  The drill-down of the CHAT case, on well-formed data (a list of
    string constraints, memories that are objects with string Entity and
    Fact).  When the first request brings back memories, the retrieval makes
    at most one more storage request, the drill-down.  It asks about at most
    15 targets; every target is a truthy Entity of a memory of the first
    answer that is not among the constraints; and every such Entity is among
    the targets unless the targets are 15 already.  When no memory has such
    an Entity, no drill-down request is made. *)
Theorem drill_down_targets_bounded host constraints w contextRes found memories :
  storage host (store_calls w) = StoreAnswers contextRes ->
  get contextRes "found" = Some found -> truthy found = true ->
  get contextRes "relevant_memories" = Some (VArr memories) -> memories <> [] ->
  Forall (fun k => is_string k = true) constraints ->
  Forall (fun m => memory_ok m = true) memories ->
  exists new,
    events (snd (chat_retrieval host (VArr constraints) w))
    = (events w ++ EStoreAwait (retrieve_director_memory (VArr constraints)) :: new)%list /\
    ((Forall no_storage new /\
      forall m e, In m memories -> get m "Entity" = Some e -> truthy e = true ->
                  js_includes (VArr constraints) e = Some true)
     \/
     exists targets rest,
       new = EStoreAwait (retrieve_director_memory (VArr targets)) :: rest /\
       Forall no_storage rest /\
       (0 < List.length targets <= 15)%nat /\
       (forall t, In t targets ->
                  truthy t = true /\
                  (exists m, In m memories /\ get m "Entity" = Some t) /\
                  js_includes (VArr constraints) t = Some false) /\
       (forall m e, In m memories -> get m "Entity" = Some e -> truthy e = true ->
                    js_includes (VArr constraints) e = Some false ->
                    In e targets \/ List.length targets = 15%nat)).
Proof.
  intros Hstorage Hflag Htruthy Hmemories Hsome Hks Hok.
  assert (Hfound : found_memories host contextRes = Some (Some (VArr memories))).
  { unfold found_memories. rewrite Hflag, Htruthy, Hmemories. cbn [get].
    change (String.eqb "length" "length") with true. cbv iota. rewrite js_gt_length.
    destruct memories; [contradiction|]. reflexivity. }
  clear found Hflag Htruthy.
  destruct (collect_entities_total [] Hok) as [found Hcollect].
  set (eligible := fun e => negb (existsb (strict_eq e) constraints)).
  assert (Hfilter : filter_opt (fun e => let? b := js_includes (VArr constraints) e in
                                         Some (negb b)) found
                    = Some (filter eligible found)).
  { apply filter_opt_filter. intros x _. reflexivity. }
  destruct (sort_targets_total (filter eligible found) Hks Hok) as [sorted Hsort].
  pose proof (sort_targets_permutation _ _ _ Hsort) as Hperm.
  set (targets := firstn 15 sorted).
  assert (Htargets : forall t, In t targets ->
                               truthy t = true /\
                               (exists m, In m memories /\ get m "Entity" = Some t) /\
                               js_includes (VArr constraints) t = Some false).
  { intros t Ht. apply firstn_subset in Ht. apply (Permutation_in _ Hperm) in Ht.
    apply filter_In in Ht as [Hin He].
    destruct (collect_entities_from _ _ Hcollect t Hin) as [Hnil|(Htruthy & Hm)];
      [destruct Hnil|].
    split; [exact Htruthy|]. split; [exact Hm|].
    cbn [js_includes]. unfold eligible in He. apply negb_true_iff in He. now rewrite He. }
  assert (Hall : forall m e, In m memories -> get m "Entity" = Some e ->
                             truthy e = true ->
                             js_includes (VArr constraints) e = Some false ->
                             In e sorted).
  { intros m e Hm He Htruthy Hinc.
    apply (Permutation_in _ (Permutation_sym Hperm)). apply filter_In. split.
    - destruct (collect_entities_complete _ _ Hcollect) as [_ Hc].
      apply (Hc m e Hm He Htruthy).
      rewrite Forall_forall in Hok. specialize (Hok m Hm).
      destruct m as [| | | | | |fields]; try discriminate Hok.
      cbn [get] in He. injection He as <-. cbn in Hok.
      apply andb_true_iff in Hok as [Hent _]. unfold text_or_falsy in Hent.
      rewrite Htruthy in Hent. cbn in Hent. now rewrite orb_false_r in Hent.
    - cbn [js_includes] in Hinc. injection Hinc as Hinc. unfold eligible.
      now rewrite Hinc. }
  assert (Hrun : events (snd (chat_retrieval host (VArr constraints) w))
                 = events (snd ((allMemories <-
                       (if 0 <? Z.of_nat (List.length targets)
                        then
                          drillRes <- store_request host
                                        (retrieve_director_memory (VArr targets)) ;;
                          more <- orTypeError (found_memories host drillRes) ;;
                          match more with
                          | Some fresh =>
                              existingIds <- orTypeError
                                (map_opt (fun m => get m "Fact") memories) ;;
                              freshItems <- orTypeError (as_array fresh) ;;
                              orTypeError (merge_new (set_of existingIds []) freshItems
                                                     memories)
                          | None => ret memories
                          end
                        else ret memories) ;;
                      orTypeError (map_opt (fun m => get m "Entity") allMemories) ;;;
                      filterCheck <- fetchWithCognitiveRetry host validator_matches
                                                             "DirectorFilter" ;;
                      filtered <- orTypeError (get filterCheck "parsed") ;;
                      matches <- orTypeError (get filtered "matches") ;;
                      let validMatches := js_or matches (VArr []) in
                      orTypeError (js_join ", " validMatches) ;;;
                      secondPass <- fetchWithCognitiveRetry host validator_response
                                                            "DirectorContextChat" ;;
                      second <- orTypeError (get secondPass "parsed") ;;
                      response <- orTypeError (get second "response") ;;
                      len <- orTypeError (get validMatches "length") ;;
                      let extraPayload :=
                        if js_gt host len 0
                        then [("directorAction", VStr "SHOW_DECKS");
                              ("deckKeywords", validMatches)]
                        else [] in
                      @return_ unit
                        (envelope extraPayload (payload response (VStr "CRYPTIC"))))
                     (after_store (retrieve_director_memory (VArr constraints)) w)))).
  { unfold chat_retrieval. unfold bind at 1. unfold store_request at 1.
    rewrite Hstorage. unfold bind at 1. rewrite Hfound. cbn [orTypeError ret].
    unfold bind at 1. cbn [as_array orTypeError ret].
    unfold bind at 1. rewrite Hcollect. cbn [orTypeError ret].
    unfold bind at 1. rewrite Hfilter. cbn [orTypeError ret].
    unfold bind at 1. rewrite Hsort. cbn [orTypeError ret].
    reflexivity. }
  rewrite Hrun. clear Hrun.
  set (w1 := after_store (retrieve_director_memory (VArr constraints)) w).
  assert (Hw1 : events w1
                = (events w ++ [EStoreAwait (retrieve_director_memory (VArr constraints))])%list)
    by reflexivity.
  destruct (0 <? Z.of_nat (List.length targets)) eqn:Hlen.
  - match goal with
    | |- context [snd (bind (bind (store_request host ?b) ?k) ?rest w1)] =>
        destruct (@after_request_no_storage _ _ host b k rest w1) as (rest' & Hev & Hrest)
    end.
    + intros res. no_storage_frame.
    + intros a. no_storage_frame.
    + exists (EStoreAwait (retrieve_director_memory (VArr targets)) :: rest').
      split.
      { rewrite Hev. cbn [events after_store]. rewrite Hw1.
        rewrite <- !app_assoc. reflexivity. }
      right. exists targets, rest'. split; [reflexivity|]. split; [exact Hrest|].
      split.
      { apply Z.ltb_lt in Hlen. split; [lia|apply firstn_le_length]. }
      split; [exact Htargets|].
      intros m e Hm He Htruthy Hinc.
      apply firstn_all_or_full. eapply Hall; eauto.
  - match goal with
    | |- context [snd (bind (ret memories) ?rest w1)] =>
        assert (Hsteps : steps (grows_by no_storage) (bind (ret memories) rest))
          by no_storage_frame;
        destruct (Hsteps w1) as (rest' & Hev & Hrest)
    end.
    exists rest'. split.
    { rewrite Hev, Hw1. rewrite <- app_assoc. reflexivity. }
    left. split; [exact Hrest|].
    intros m e Hm He Htruthy. cbn [js_includes].
    destruct (existsb (strict_eq e) constraints) eqn:Hin; [reflexivity|].
    assert (Hs : In e sorted).
    { apply (Hall m e Hm He Htruthy). cbn [js_includes]. now rewrite Hin. }
    apply Z.ltb_ge in Hlen. unfold targets in Hlen.
    destruct sorted; [destruct Hs|]. cbn in Hlen. lia.
Qed.

Lemma drill_down_targets_bounded_witness :
  exists new targets rest,
    events (snd (chat_retrieval crowd_host (VArr [VStr "Brent"]) fresh_world))
    = ([] ++ EStoreAwait (retrieve_director_memory (VArr [VStr "Brent"])) :: new)%list /\
    new = EStoreAwait (retrieve_director_memory (VArr targets)) :: rest /\
    List.length targets = 15%nat.
Proof.
  destruct (@drill_down_targets_bounded crowd_host [VStr "Brent"] fresh_world
              (VObj [("found", VBool true); ("relevant_memories", VArr crowd)])
              (VBool true) crowd)
    as (new & Hev & [[Hnone Hall]|(targets & rest & Hnew & _ & Hlen & _ & Hfull)]).
  - reflexivity.
  - reflexivity.
  - reflexivity.
  - reflexivity.
  - discriminate.
  - repeat constructor.
  - repeat constructor.
  - specialize (Hall (entity_memory "Cody") (VStr "Cody")).
    assert (H : js_includes (VArr [VStr "Brent"]) (VStr "Cody") = Some true).
    { apply Hall; [cbn; tauto|reflexivity|reflexivity]. }
    vm_compute in H. discriminate H.
  - exists new, targets, rest. split; [exact Hev|]. split; [exact Hnew|].
    rewrite Hnew in Hev. vm_compute in Hev.
    inversion Hev. reflexivity.
Defined.

(** ** The Timekeeper *)




(** Three failed attempts in a row give the safe-mode object. *)
Lemma engine_exhausted host validatorFn label w :
  (forall k, (k < 3)%nat -> attempt_fails host validatorFn (k + inference_calls w)) ->
  fetchWithCognitiveRetry host validatorFn label w
  = (Normal safe_mode, after_engine label 2 w).
Proof.
  intros Hfail.
  destruct (fetchWithCognitiveRetry_outcome host validatorFn label w)
    as (retries & r & Hrun & Hle & _ & Hlast).
  destruct Hlast as [Hret|(-> & _ & ->)]; [|exact Hrun].
  destruct (Hfail retries ltac:(lia)) as [e He]. congruence.
Qed.

(** X13.  An outage of the Timekeeper call does not keep the entry.  For
    an entry of importance 4 or more whose three Timekeeper attempts fail, the
    engine gives the safe-mode object, which has no [valid]: the interceptor is
    called, and the loop leaves by returning the interception reply built
    from the interceptor's answer.  The [catch] that would keep the entry is
    not reached. *)
Theorem timekeeper_outage_intercepts host entry rest validEntries n w :
  get entry "importance" = Some (VNum n) -> 4 <= n ->
  (forall k, (k < 3)%nat ->
             attempt_fails host validator_valid (k + inference_calls w)) ->
  exists intercept w' asked response,
    fetchWithCognitiveRetry host validator_response "Interceptor"
                            (after_engine "Timekeeper" 2 w)
    = (Normal intercept, w') /\
    get intercept "parsed" = Some asked /\
    get asked "response" = Some response /\
    timekeeper_loop host (entry :: rest) validEntries w
    = (Return (envelope [] (safePayload response)), w').
Proof.
  intros Himp Hn Hfail.
  destruct (engine_parsed_object host Interceptor (after_engine "Timekeeper" 2 w))
    as (intercept & w' & asked & Hrun & Hparsed & Hobj).
  cbn [validator_of label_of] in Hrun.
  destruct asked as [| | | | | |fields]; try discriminate Hobj.
  exists intercept, w', (VObj fields), (assoc "response" fields).
  split; [exact Hrun|]. split; [exact Hparsed|]. split; [reflexivity|].
  destruct (get_defined entry "importance" "fact" Himp) as [fact Hfact].
  cbn [timekeeper_loop]. unfold bind at 1. rewrite Himp. cbn [orTypeError ret].
  rewrite js_lt_num. apply Z.ltb_ge in Hn. rewrite Hn.
  unfold bind at 1. unfold try_catch, timekeeper_check, bind at 1.
  rewrite (@engine_exhausted host validator_valid "Timekeeper" w Hfail).
  unfold bind at 1. cbn [safe_mode get assoc String.eqb Ascii.eqb Bool.eqb orTypeError ret].
  unfold bind at 1. cbn [safe_mode_parsed get assoc String.eqb Ascii.eqb Bool.eqb
                         orTypeError ret truthy].
  unfold bind at 1. rewrite Hfact. cbn [orTypeError ret].
  unfold bind at 1. rewrite Hrun.
  unfold bind at 1. rewrite Hparsed. cbn [orTypeError ret get].
  reflexivity.
Qed.

Lemma timekeeper_outage_intercepts_witness :
  fst (timekeeper_loop (always_status 500) [zoo_entry; tea_entry] [] fresh_world)
  = Return (envelope [] (safePayload (VStr "..."))).
Proof.
  destruct (@timekeeper_outage_intercepts (always_status 500) zoo_entry [tea_entry] [] 5
              fresh_world)
    as (intercept & w' & asked & response & Hrun & Hasked & Hresponse & Hloop).
  - reflexivity.
  - lia.
  - intros k Hk. destruct k as [|[|[|k]]]; [| | |lia]; eexists; vm_compute; reflexivity.
  - rewrite Hloop. cbn [fst]. vm_compute in Hrun.
    injection Hrun as <- _. vm_compute in Hasked. injection Hasked as <-.
    vm_compute in Hresponse. injection Hresponse as <-. reflexivity.
Defined.

(** ** Persistence *)

Lemma get_set_field_other o k k' x :
  String.eqb k k' = false -> get (set_field o k' x) k = get o k.
Proof.
  intros Hk. destruct o; cbn; try reflexivity.
  now rewrite assoc_set_other.
Qed.

Lemma get_set_field_same fields k x :
  get (set_field (VObj fields) k x) k = Some x.
Proof. cbn [set_field get]. now rewrite assoc_set_same. Qed.

Lemma store_atomic_defined entry k x :
  get entry k = Some x -> exists body, store_atomic entry = Some body.
Proof.
  intros H. unfold store_atomic.
  destruct (get_defined entry k "fact" H) as [? ->].
  destruct (get_defined entry k "entities" H) as [? ->].
  destruct (get_defined entry k "topics" H) as [? ->].
  destruct (get_defined entry k "importance" H) as [? ->].
  eexists; reflexivity.
Qed.

(** X14.  The persistence of one entry that is an object never raises and
    is decided as follows.  A falsy fact, or the string null, skips the entry:
    no event at all.  Otherwise, with a retrieved context of at most 50
    characters, the entry is written as it is, with no inference call.
    Otherwise the refinement is called, once.  On the verdict DUPLICATE the
    entry is skipped: nothing is written.  On any other verdict one
    [store_atomic] request is dispatched, as the last event, for the entry
    with its own topics and importance, with the verdict's better fact in
    place of its fact when that is longer than 5, and with the verdict's
    better entities in place of its entities when those are longer than
    2. *)
Theorem persist_entry_outcome host entry fact w :
  is_object entry = true ->
  get entry "fact" = Some fact ->
  (negb (truthy fact) || strict_eq fact (VStr "null") = true ->
   persist_entry host entry w = (Continue, w)) /\
  (negb (truthy fact) || strict_eq fact (VStr "null") = false ->
   longer_than host (lastRetrievedMemories w) 50 = false ->
   exists body,
     store_atomic entry = Some body /\
     persist_entry host entry w = (Normal tt, add_event (EStoreDispatch body) w)) /\
  (negb (truthy fact) || strict_eq fact (VStr "null") = false ->
   longer_than host (lastRetrievedMemories w) 50 = true ->
   exists check w1 verdict,
     fetchWithCognitiveRetry host validator_status "DedupRefine" w = (Normal check, w1) /\
     get check "parsed" = Some verdict /\
     (strict_eq (assoc_of verdict "status") (VStr "DUPLICATE") = true ->
      persist_entry host entry w = (Continue, w1)) /\
     (strict_eq (assoc_of verdict "status") (VStr "DUPLICATE") = false ->
      exists stored body,
        store_atomic stored = Some body /\
        persist_entry host entry w = (Normal tt, add_event (EStoreDispatch body) w1) /\
        get stored "fact"
        = Some (if longer_than host (assoc_of verdict "better_fact") 5
                then assoc_of verdict "better_fact" else fact) /\
        get stored "entities"
        = Some (if longer_than host (assoc_of verdict "better_entities") 2
                then assoc_of verdict "better_entities" else assoc_of entry "entities") /\
        get stored "topics" = get entry "topics" /\
        get stored "importance" = get entry "importance")).
Proof.
  intros Hobj Hfact.
  destruct entry as [| | | | | |fields]; try discriminate Hobj.
  cbn [get] in Hfact. injection Hfact as Hfact.
  split; [|split].
  - intros Hskip. unfold persist_entry. unfold bind at 1. cbn [get orTypeError ret].
    rewrite Hfact, Hskip. reflexivity.
  - intros Hskip Hshort.
    destruct (store_atomic_defined (VObj fields) "fact" eq_refl) as [body Hbody].
    exists body. split; [exact Hbody|].
    unfold persist_entry. unfold bind at 1. cbn [get orTypeError ret].
    rewrite Hfact, Hskip. unfold bind at 1. rewrite Hshort.
    unfold bind at 1. cbn [ret]. unfold bind at 1. rewrite Hbody. cbn [orTypeError ret].
    unfold store_dispatch. now rewrite emit_at.
  - intros Hskip Hlong.
    destruct (engine_parsed_object host DedupRefine w)
      as (check & w1 & verdict & Hrun & Hparsed & Hvobj).
    cbn [validator_of label_of] in Hrun.
    exists check, w1, verdict. split; [exact Hrun|]. split; [exact Hparsed|].
    destruct verdict as [| | | | | |vfields]; try discriminate Hvobj.
    unfold assoc_of. cbn [get].
    set (stored :=
           let entry := if longer_than host (assoc "better_fact" vfields) 5
                        then set_field (VObj fields) "fact" (assoc "better_fact" vfields)
                        else VObj fields in
           if longer_than host (assoc "better_entities" vfields) 2
           then set_field entry "entities" (assoc "better_entities" vfields)
           else entry).
    assert (Hshape : exists sfields, stored = VObj sfields).
    { unfold stored. cbv zeta.
      destruct (longer_than host (assoc "better_fact" vfields) 5),
        (longer_than host (assoc "better_entities" vfields) 2);
        cbn [set_field]; eauto. }
    destruct Hshape as [sfields Hs].
    destruct (store_atomic_defined stored "fact") with (x := assoc "fact" sfields)
      as [body Hbody]; [now rewrite Hs|].
    assert (Hp : persist_entry host (VObj fields) w
                 = if strict_eq (assoc "status" vfields) (VStr "DUPLICATE")
                   then (Continue, w1)
                   else (Normal tt, add_event (EStoreDispatch body) w1)).
    { unfold persist_entry. unfold bind at 1. cbn [get orTypeError ret].
      rewrite Hfact, Hskip. unfold bind at 1. rewrite Hlong.
      unfold bind at 1. unfold try_catch, dedup_refine. unfold bind at 1. rewrite Hrun.
      unfold bind at 1. rewrite Hparsed. cbn [orTypeError ret].
      unfold bind at 1. cbn [get orTypeError ret].
      destruct (strict_eq (assoc "status" vfields) (VStr "DUPLICATE")); [reflexivity|].
      unfold bind at 1. cbn [get orTypeError ret].
      unfold bind at 1. cbn [get orTypeError ret].
      fold stored. unfold bind at 1. rewrite Hbody. cbn [orTypeError ret].
      unfold store_dispatch. now rewrite emit_at. }
    rewrite Hp.
    destruct (strict_eq (assoc "status" vfields) (VStr "DUPLICATE")).
    + split; [intros _; reflexivity|discriminate].
    + split; [discriminate|]. intros _.
      exists stored, body. split; [exact Hbody|]. split; [reflexivity|].
      unfold stored. cbv zeta.
      destruct (longer_than host (assoc "better_fact" vfields) 5),
        (longer_than host (assoc "better_entities" vfields) 2);
        cbn [set_field get]; repeat split;
        repeat (rewrite assoc_set_same || rewrite assoc_set_other by reflexivity);
        rewrite ?Hfact; reflexivity.
Qed.

Lemma persist_entry_outcome_witness :
  exists body,
    persist_entry refining_host zoo_entry (with_context long_context fresh_world)
    = (Normal tt,
       add_event (EStoreDispatch body)
                 (after_engine "DedupRefine" 0 (with_context long_context fresh_world))) /\
    get body "fact" = Some (VStr "Arvin went to the zoo in May 2024.").
Proof.
  destruct (@persist_entry_outcome refining_host zoo_entry (VStr "Arvin went to the zoo.")
              (with_context long_context fresh_world) eq_refl eq_refl)
    as (_ & _ & Hlong).
  destruct Hlong as (check & w1 & verdict & Hrun & Hparsed & _ & Hnew);
    [reflexivity|vm_compute; reflexivity|].
  vm_compute in Hrun. injection Hrun as <- <-.
  vm_compute in Hparsed. injection Hparsed as <-.
  destruct Hnew as (stored & body & Hbody & Hwrite & Hf & _); [reflexivity|].
  exists body. split; [exact Hwrite|].
  unfold store_atomic in Hbody. rewrite Hf in Hbody.
  destruct (get stored "entities"); [|discriminate Hbody].
  destruct (get stored "topics"); [|discriminate Hbody].
  destruct (get stored "importance"); [|discriminate Hbody].
  injection Hbody as <-. vm_compute. reflexivity.
Defined.

(** X15.  An outage of the refinement call does not lose the memory.  With
    a retrieved context of more than 50 characters and an entry whose fact is
    truthy and not the string null, three failed attempts of the refinement
    give the safe-mode object, which names no duplicate and no better fact:
    the entry is written as it was. *)
Theorem refinement_outage_stores_entry host entry fact w :
  get entry "fact" = Some fact ->
  truthy fact = true -> strict_eq fact (VStr "null") = false ->
  longer_than host (lastRetrievedMemories w) 50 = true ->
  (forall k, (k < 3)%nat ->
             attempt_fails host validator_status (k + inference_calls w)) ->
  exists body,
    store_atomic entry = Some body /\
    persist_entry host entry w
    = (Normal tt, add_event (EStoreDispatch body) (after_engine "DedupRefine" 2 w)).
Proof.
  intros Hfact Htruthy Hnull Hlong Hfail.
  destruct (store_atomic_defined entry "fact" Hfact) as [body Hbody].
  exists body. split; [exact Hbody|].
  unfold persist_entry. unfold bind at 1. rewrite Hfact. cbn [orTypeError ret].
  rewrite Htruthy, Hnull. cbn [negb orb].
  unfold bind at 1. rewrite Hlong.
  unfold bind at 1. unfold try_catch, dedup_refine. unfold bind at 1.
  rewrite (@engine_exhausted host validator_status "DedupRefine" w Hfail).
  cbn. rewrite Hbody. reflexivity.
Qed.

Lemma refinement_outage_stores_entry_witness :
  exists body,
    store_atomic zoo_entry = Some body /\
    persist_entry (always_status 500) zoo_entry (with_context long_context fresh_world)
    = (Normal tt, add_event (EStoreDispatch body)
                            (after_engine "DedupRefine" 2
                                          (with_context long_context fresh_world))).
Proof.
  apply (@refinement_outage_stores_entry (always_status 500) zoo_entry
           (VStr "Arvin went to the zoo.") (with_context long_context fresh_world)).
  - reflexivity.
  - reflexivity.
  - reflexivity.
  - vm_compute; reflexivity.
  - intros k Hk. destruct k as [|[|[|k]]]; [| | |lia]; eexists; vm_compute; reflexivity.
Defined.

(** ** What a turn leaves alone *)

Lemma window_kept_refl w : window_kept w w.
Proof. repeat split; apply grows_by_refl. Qed.

Lemma window_kept_trans a b c : window_kept a b -> window_kept b c -> window_kept a c.
Proof.
  intros (M1 & L1 & R1 & G1) (M2 & L2 & R2 & G2).
  repeat split; try congruence. exact (grows_by_trans G1 G2).
Qed.

Lemma window_kept_event e w : no_graph e -> window_kept w (add_event e w).
Proof. intros H. repeat split. apply grows_by_event; exact H. Qed.

Lemma window_kept_engine host validatorFn label :
  steps window_kept (fetchWithCognitiveRetry host validatorFn label).
Proof.
  apply steps_engine.
  - apply window_kept_trans.
  - intros w. repeat split. apply grows_by_fetch; exact I.
  - intros ms w. apply window_kept_event. exact I.
Qed.

Lemma window_kept_store_request host body : steps window_kept (store_request host body).
Proof.
  intros w. unfold store_request.
  assert (H : window_kept w (after_store body w)).
  { repeat split. exists [EStoreAwait body]. split; [reflexivity|]. repeat constructor. }
  destruct (storage host (store_calls w)); exact H.
Qed.

Lemma window_kept_store_dispatch body : steps window_kept (store_dispatch body).
Proof. intros w. apply window_kept_event. exact I. Qed.

Ltac window_frame :=
  repeat first
    [ apply window_kept_engine
    | apply window_kept_store_request
    | apply window_kept_store_dispatch
    | frame_step window_kept_refl window_kept_trans ].

(** X16.  A turn in Director mode leaves the page's globals alone: whatever
    the classification and whatever the services answer, [window.currentMood],
    [window.lastRetrievedMemories] and [window.rawMemories] are as before the
    turn, and the graph is not updated. *)
Theorem director_mode_keeps_window host userText apiKey modelHigh history isQuestionMode w :
  window_kept w (snd (processMemoryChat host userText apiKey modelHigh history
                                        isQuestionMode true w)).
Proof.
  revert w.
  change (steps window_kept (processMemoryChat host userText apiKey modelHigh history
                                               isQuestionMode true)).
  unfold processMemoryChat. apply steps_call_function.
  apply (steps_bind window_kept_trans); [window_frame|intros _].
  unfold director_mode, director_chat, chat_retrieval, director_store, dedup_check,
    director_search, ambiguity_check, search_reply.
  window_frame.
Qed.

Lemma store_unused_refl w : store_unused w w.
Proof. repeat split; apply grows_by_refl. Qed.

Lemma store_unused_trans a b c : store_unused a b -> store_unused b c -> store_unused a c.
Proof.
  intros (L1 & R1 & S1 & G1) (L2 & R2 & S2 & G2).
  repeat split; try congruence. exact (grows_by_trans G1 G2).
Qed.

Lemma store_unused_event e w : no_storage e -> store_unused w (add_event e w).
Proof. intros H. repeat split. apply grows_by_event; exact H. Qed.

Lemma store_unused_engine host validatorFn label :
  steps store_unused (fetchWithCognitiveRetry host validatorFn label).
Proof.
  apply steps_engine.
  - apply store_unused_trans.
  - intros w. repeat split. apply grows_by_fetch; exact I.
  - intros ms w. apply store_unused_event. exact I.
Qed.

Lemma store_unused_set_currentMood m : steps store_unused (set_currentMood m).
Proof.
  intros w. repeat split. exists []. split; [cbn; now rewrite app_nil_r|constructor].
Qed.

Lemma store_unused_emit_graph roots : steps store_unused (emit (EGraph roots)).
Proof. intros w. apply store_unused_event. exact I. Qed.

Ltac store_unused_frame H :=
  repeat first
    [ rewrite H
    | match goal with
      | |- steps _ (if _ && false then _ else _) => rewrite andb_false_r
      | |- steps _ (if false then _ else _) => cbv iota
      end
    | apply store_unused_engine
    | apply store_unused_set_currentMood
    | apply store_unused_emit_graph
    | frame_step store_unused_refl store_unused_trans ].

Lemma store_unused_timekeeper_loop host entries validEntries :
  steps store_unused (timekeeper_loop host entries validEntries).
Proof.
  revert validEntries. induction entries as [|entry rest IH]; intros validEntries;
    cbn [timekeeper_loop].
  - apply (steps_ret _ store_unused_refl).
  - apply (steps_bind store_unused_trans); [apply (steps_orTypeError _ store_unused_refl)|].
    intros importance. destruct (js_lt host importance 4); [apply IH|].
    apply (steps_bind store_unused_trans); [|intros kept; apply IH].
    unfold timekeeper_check.
    repeat first
      [ apply store_unused_engine
      | frame_step store_unused_refl store_unused_trans ].
Qed.

(** X17.  With no storage address configured, a turn in either mode never
    contacts the storage service: it adds no storage request and no storage
    dispatch, reads no storage answer, and leaves the retrieved memories as
    they were. *)
Theorem no_store_no_requests host userText apiKey modelHigh history isQuestionMode
        isDirectorMode w :
  store_configured host = false ->
  store_unused w (snd (processMemoryChat host userText apiKey modelHigh history
                                         isQuestionMode isDirectorMode w)).
Proof.
  intros Hconf. revert w.
  change (steps store_unused (processMemoryChat host userText apiKey modelHigh history
                                                isQuestionMode isDirectorMode)).
  unfold processMemoryChat. apply steps_call_function.
  apply (steps_bind store_unused_trans); [store_unused_frame Hconf|intros _].
  destruct isDirectorMode.
  - unfold director_mode, director_chat. store_unused_frame Hconf.
  - unfold standard_mode.
    apply (steps_bind store_unused_trans);
      [unfold analysis_stage; store_unused_frame Hconf|intros analysis].
    apply (steps_bind store_unused_trans).
    { unfold timekeeper_stage. store_unused_frame Hconf.
      apply store_unused_timekeeper_loop. }
    intros analysis'.
    apply (steps_bind store_unused_trans);
      [unfold retrieval_stage; store_unused_frame Hconf|intros _].
    apply (steps_bind store_unused_trans);
      [unfold generation_stage; store_unused_frame Hconf|intros generationResult].
    apply (steps_bind store_unused_trans);
      [unfold mood_sanitizer; store_unused_frame Hconf|intros _].
    apply (steps_bind store_unused_trans); [store_unused_frame Hconf|intros _].
    apply (steps_bind store_unused_trans);
      [unfold persistence_stage; store_unused_frame Hconf|intros _].
    store_unused_frame Hconf.
Qed.

Lemma no_store_no_requests_witness :
  store_unused fresh_world
               (snd (processMemoryChat (always_status 500) "Hello" "key" "model" []
                                       false false fresh_world)).
Proof.
  apply (@no_store_no_requests (always_status 500) "Hello" "key" "model" [] false false
           fresh_world).
  reflexivity.
Defined.

(** ** Session restore *)

Lemma hours_over_six now lastTime :
  negb (QArith_base.Qle_bool (hoursDiff now lastTime) (QArith_base.inject_Z 6))
  = (21600000 <? now - lastTime).
Proof.
  unfold hoursDiff, QArith_base.Qle_bool, QArith_base.Qdiv, QArith_base.Qmult,
    QArith_base.Qinv, QArith_base.inject_Z.
  cbn [QArith_base.Qnum QArith_base.Qden].
  change (1000 * 60 * 60) with 3600000.
  cbn [QArith_base.Qnum QArith_base.Qden Pos.mul].
  destruct (Z.leb_spec ((now - lastTime) * 1 * 1) (6 * 3600000));
    destruct (Z.ltb_spec 21600000 (now - lastTime)); cbn; try reflexivity; lia.
Qed.

Lemma hours_floor now lastTime :
  Qround.Qfloor (hoursDiff now lastTime) = (now - lastTime) / 3600000.
Proof.
  unfold hoursDiff, Qround.Qfloor, QArith_base.Qdiv, QArith_base.Qmult,
    QArith_base.Qinv, QArith_base.inject_Z.
  cbn [QArith_base.Qnum QArith_base.Qden].
  change (1000 * 60 * 60) with 3600000.
  cbn [QArith_base.Qnum QArith_base.Qden Pos.mul].
  now rewrite Z.mul_1_r.
Qed.

Lemma time_gap_cases clock msgs :
  time_gap clock msgs = None \/ time_gap clock msgs = Some msgs \/
  exists hours, 6 <= hours /\ time_gap clock msgs = Some (msgs ++ [gap_note hours])%list.
Proof.
  unfold time_gap.
  destruct (0 <? Z.of_nat (List.length msgs)); [|right; left; reflexivity].
  cbv zeta. destruct (get (last msgs VUndef) "timestamp") as [timestamp|];
    [|left; reflexivity].
  destruct (Date_getTime clock timestamp) as [lastTime|]; [|right; left; reflexivity].
  rewrite hours_over_six, hours_floor.
  destruct (Z.ltb_spec 21600000 (Date_now clock - lastTime)); [|right; left; reflexivity].
  right; right. eexists; split; [|reflexivity].
  apply Z.div_le_lower_bound; lia.
Qed.

Lemma map_opt_Forall2 {A B} (f : A -> option B) (P : A -> B -> Prop) l l' :
  (forall a b, f a = Some b -> P a b) ->
  map_opt f l = Some l' -> Forall2 P l l'.
Proof.
  intros Hf. revert l'. induction l as [|a l IH]; cbn; intros l' H.
  - injection H as <-. constructor.
  - destruct (f a) as [b|] eqn:Ha; [|discriminate H].
    destruct (map_opt f l) as [bs|]; [|discriminate H].
    injection H as <-. constructor; auto.
Qed.

Lemma restored_message_from row message :
  restored_message row = Some message -> restored_from row message.
Proof.
  unfold restored_message, restored_from.
  destruct (get_index row 1) as [role|]; [|discriminate].
  destruct (get_index row 2) as [content|]; [|discriminate].
  destruct (get_index row 0) as [timestamp|]; [|discriminate].
  intros H; injection H as <-. exists role, content, timestamp. repeat split.
Qed.

Lemma restored_message_rows rows :
  if existsb nullish rows then map_opt restored_message rows = None
  else exists msgs, map_opt restored_message rows = Some msgs.
Proof.
  induction rows as [|row rows IH]; cbn [existsb map_opt]; [eauto|].
  destruct row; cbn [nullish orb restored_message get_index]; try reflexivity;
    (destruct (existsb nullish rows); [now rewrite IH|];
     destruct IH as [msgs ->]; eauto).
Qed.

(** X18.  Restoring the session is all or nothing and never raises.
    Without a storage address the function makes no request and leaves the
    chat history alone.  With one it makes exactly one request, and the chat
    history it leaves is decided by the answer.  When the service answers
    with an array of rows none of which is [null] or [undefined], the history
    becomes one restored message per row, in order, each with the row's
    columns 1, 2 and 0 as role, content and timestamp, followed by at most
    one system note, which names at least 6 hours.  In every other case
    (service unreachable, body not JSON, no array of rows, an unreadable row)
    the former history is left untouched. *)
Theorem session_restore_all_or_nothing host clock chatHistory w :
  exists h,
    initializeSymbiosisSession host clock chatHistory w
    = (Normal h, if store_configured host then after_store get_recent_chat w else w) /\
    match (if store_configured host then restored_rows host w else None) with
    | Some rows =>
        if existsb nullish rows then h = chatHistory
        else exists msgs,
            Forall2 restored_from rows msgs /\
            (h = VArr msgs \/
             exists hours, 6 <= hours /\ h = VArr (msgs ++ [gap_note hours])%list)
    | None => h = chatHistory
    end.
Proof.
  unfold initializeSymbiosisSession, restored_rows.
  destruct (store_configured host) eqn:Hconf; cbn [negb].
  2:{ exists chatHistory. split; reflexivity. }
  unfold try_catch, bind, store_request.
  change (mkWorld (inference_calls w) (S (store_calls w))
                  (events w ++ [EStoreAwait get_recent_chat])
                  (currentMood w) (lastRetrievedMemories w) (rawMemories w))
    with (after_store get_recent_chat w).
  destruct (storage host (store_calls w)) as [| |res];
    try (exists chatHistory; split; reflexivity).
  destruct (get res "history") as [history|]; cbn [orTypeError ret throw];
    [|exists chatHistory; split; reflexivity].
  destruct history as [| |b|n|s|rows|fields]; cbn [truthy is_array andb];
    try (exists chatHistory; split; reflexivity);
    try (rewrite andb_false_r; exists chatHistory; split; reflexivity).
  cbn [as_array orTypeError ret].
  pose proof (restored_message_rows rows) as Hrows.
  destruct (existsb nullish rows).
  - rewrite Hrows. cbn [orTypeError throw]. exists chatHistory. split; reflexivity.
  - destruct Hrows as [msgs Hmsgs]. rewrite Hmsgs. cbn [orTypeError ret].
    pose proof (map_opt_Forall2 restored_message restored_from rows
                                restored_message_from Hmsgs) as Hall.
    destruct (time_gap_cases clock msgs) as [->|[->|(hours & Hh & ->)]].
    + exists (VArr msgs). split; [reflexivity|]. exists msgs. split; [exact Hall|].
      left; reflexivity.
    + exists (VArr msgs). split; [reflexivity|]. exists msgs. split; [exact Hall|].
      left; reflexivity.
    + exists (VArr (msgs ++ [gap_note hours])). split; [reflexivity|].
      exists msgs. split; [exact Hall|]. right. exists hours. split; auto.
Qed.

(** X19.  The time gap note.  When the storage service answers with rows
    that can all be read and the time of the last restored message is known,
    the restored history ends with the system note exactly when more than
    six hours (21 600 000 ms) lie between that time and now; the note names
    the whole hours elapsed.  A gap of exactly six hours adds no note, and
    neither does a last message whose time cannot be read. *)
Theorem session_restore_gap_note host clock chatHistory w res rows msgs timestamp :
  store_configured host = true ->
  storage host (store_calls w) = StoreAnswers res ->
  get res "history" = Some (VArr rows) ->
  map_opt restored_message rows = Some msgs ->
  get (last msgs VUndef) "timestamp" = Some timestamp ->
  initializeSymbiosisSession host clock chatHistory w
  = (Normal (VArr (match Date_getTime clock timestamp with
                   | Some lastTime =>
                       if 21600000 <? Date_now clock - lastTime
                       then msgs ++ [gap_note ((Date_now clock - lastTime) / 3600000)]
                       else msgs
                   | None => msgs
                   end)%list),
     after_store get_recent_chat w).
Proof.
  intros Hconf Hanswer Hhistory Hmsgs Hts.
  assert (Hlen : (0 <? Z.of_nat (List.length msgs)) = true).
  { destruct msgs; [discriminate Hts|]. cbn [List.length]. apply Z.ltb_lt. lia. }
  unfold initializeSymbiosisSession. rewrite Hconf. cbn [negb].
  unfold try_catch, bind, store_request. rewrite Hanswer, Hhistory.
  cbn [orTypeError ret truthy is_array andb as_array]. rewrite Hmsgs.
  cbn [orTypeError ret]. unfold time_gap. rewrite Hlen. cbv zeta. rewrite Hts.
  destruct (Date_getTime clock timestamp) as [lastTime|]; [|reflexivity].
  rewrite hours_over_six, hours_floor.
  destruct (21600000 <? Date_now clock - lastTime); reflexivity.
Qed.

Lemma session_restore_gap_note_witness :
  fst (initializeSymbiosisSession session_host (clock_at 30000000) VUndef fresh_world)
  = Normal (VArr [VObj [("role", VStr "user"); ("content", VStr "Hello");
                        ("timestamp", VNum 1000)];
                  VObj [("role", VStr "assistant"); ("content", VStr "Hi.");
                        ("timestamp", VNum 2000)];
                  gap_note 8]).
Proof.
  rewrite (@session_restore_gap_note session_host (clock_at 30000000) VUndef fresh_world
             recent_chat
             [VArr [VNum 1000; VStr "user"; VStr "Hello"];
              VArr [VNum 2000; VStr "assistant"; VStr "Hi."]]
             [VObj [("role", VStr "user"); ("content", VStr "Hello");
                    ("timestamp", VNum 1000)];
              VObj [("role", VStr "assistant"); ("content", VStr "Hi.");
                    ("timestamp", VNum 2000)]]
             (VNum 2000)).
  - reflexivity.
  - reflexivity.
  - reflexivity.
  - reflexivity.
  - reflexivity.
  - reflexivity.
Defined.

(** ** Director CHAT: merging the drill-down *)

Lemma existsb_set_of x l seen :
  existsb (strict_eq x) (set_of l seen) || existsb (strict_eq x) seen
  = existsb (strict_eq x) l || existsb (strict_eq x) seen.
Proof.
  revert seen. induction l as [|y l IH]; intros seen; [reflexivity|].
  cbn [set_of existsb].
  destruct (existsb (strict_eq y) seen) eqn:Hy.
  - rewrite IH. destruct (strict_eq x y) eqn:Hxy; [|reflexivity].
    apply strict_eq_eq in Hxy. subst. rewrite Hy. now rewrite !orb_true_r.
  - cbn [existsb]. specialize (IH (seen ++ [y])%list).
    rewrite existsb_app in IH. cbn [existsb] in IH. rewrite orb_false_r in IH.
    destruct (strict_eq x y), (existsb (strict_eq x) seen),
      (existsb (strict_eq x) (set_of l (seen ++ [y]))), (existsb (strict_eq x) l);
      cbn in *; congruence.
Qed.

Lemma merge_new_appends existingIds fresh allMemories merged :
  merge_new existingIds fresh allMemories = Some merged ->
  exists added,
    merged = (allMemories ++ added)%list /\
    filter_opt (fun m => let? fact := get m "Fact" in
                         Some (negb (existsb (strict_eq fact) existingIds))) fresh
    = Some added.
Proof.
  revert allMemories. induction fresh as [|m r IH]; intros allMemories H; cbn in *.
  - injection H as <-. exists []. now rewrite app_nil_r.
  - destruct (get m "Fact") as [fact|]; [|discriminate H].
    destruct (existsb (strict_eq fact) existingIds); cbn [negb].
    + destruct (IH _ H) as (added & -> & ->). exists added. split; reflexivity.
    + destruct (IH _ H) as (added & -> & ->). exists (m :: added).
      rewrite <- app_assoc. split; reflexivity.
Qed.

Lemma map_opt_In {A B} (f : A -> option B) l l' a b :
  map_opt f l = Some l' -> In a l -> f a = Some b -> In b l'.
Proof.
  revert l'. induction l as [|x l IH]; cbn; intros l' H Hin Hb; [contradiction|].
  destruct (f x) as [y|] eqn:Hx; [|discriminate H].
  destruct (map_opt f l) as [ys|]; [|discriminate H].
  injection H as <-. destruct Hin as [->|Hin].
  - left. congruence.
  - right. eapply IH; eauto.
Qed.

Lemma existsb_strict_eq_false x l y :
  existsb (strict_eq x) l = false -> In y l -> strict_eq x y = false.
Proof.
  intros H Hin. destruct (strict_eq x y) eqn:E; [|reflexivity].
  rewrite <- H. symmetry. apply existsb_exists. exists y. auto.
Qed.

(** X20.  Merging the drill-down results keeps the memories of the first
    request, in order, and appends, in their order, exactly the drill-down
    memories whose Fact is not the Fact of a first-request memory.  The set
    of known Facts is not extended while merging: a new Fact that comes twice
    in the drill-down is appended twice. *)
Theorem drill_down_merge allMemories existingIds freshItems merged :
  map_opt (fun m => get m "Fact") allMemories = Some existingIds ->
  merge_new (set_of existingIds []) freshItems allMemories = Some merged ->
  exists added,
    merged = (allMemories ++ added)%list /\
    filter_opt (fun m => let? fact := get m "Fact" in
                         Some (negb (existsb (strict_eq fact) existingIds))) freshItems
    = Some added /\
    (forall m, In m added ->
               In m freshItems /\
               exists fact, get m "Fact" = Some fact /\
                            forall old, In old allMemories ->
                                        exists oldFact, get old "Fact" = Some oldFact /\
                                                        strict_eq fact oldFact = false).
Proof.
  intros Hids Hmerge.
  destruct (merge_new_appends _ _ _ Hmerge) as (added & -> & Hadded).
  assert (Hsame : forall x, existsb (strict_eq x) (set_of existingIds [])
                            = existsb (strict_eq x) existingIds).
  { intros x. pose proof (existsb_set_of x existingIds []) as H. cbn [existsb] in H.
    now rewrite !orb_false_r in H. }
  assert (Hadded' :
            filter_opt (fun m => let? fact := get m "Fact" in
                                 Some (negb (existsb (strict_eq fact) existingIds)))
                       freshItems = Some added).
  { rewrite <- Hadded. clear - Hsame. induction freshItems as [|m r IH]; [reflexivity|].
    cbn [filter_opt]. rewrite IH.
    destruct (get m "Fact") as [fact|]; [|reflexivity].
    now rewrite Hsame. }
  exists added. split; [reflexivity|]. split; [exact Hadded'|].
  intros m Hm. destruct (filter_opt_kept _ _ Hadded' m Hm) as [Hin Hp]. cbv beta in Hp.
  split; [exact Hin|].
  destruct (get m "Fact") as [fact|]; [|discriminate Hp].
  exists fact. split; [reflexivity|]. intros old Hold.
  injection Hp as Hp. apply negb_true_iff in Hp.
  assert (Hdef : exists oldFact, get old "Fact" = Some oldFact).
  { clear - Hids Hold. revert existingIds Hids.
    induction allMemories as [|x l IH]; [contradiction|]. cbn. intros ids H.
    destruct (get x "Fact") as [y|] eqn:Hx; [|discriminate H].
    destruct (map_opt (fun m => get m "Fact") l) as [ys|]; [|discriminate H].
    destruct Hold as [->|Hold]; [eauto|]. eapply IH; eauto. }
  destruct Hdef as [oldFact Hof]. exists oldFact. split; [exact Hof|].
  apply (existsb_strict_eq_false _ _ _ Hp).
  exact (map_opt_In _ _ _ Hids Hold Hof).
Qed.

Lemma drill_down_merge_witness :
  exists added,
    [VObj [("Entity", VStr "Brent"); ("Fact", VStr "Brent is tall.")];
     VObj [("Entity", VStr "Cody"); ("Fact", VStr "Cody is quiet.")];
     VObj [("Entity", VStr "Cody"); ("Fact", VStr "Cody is quiet.")]]
    = ([VObj [("Entity", VStr "Brent"); ("Fact", VStr "Brent is tall.")]] ++ added)%list /\
    added = [VObj [("Entity", VStr "Cody"); ("Fact", VStr "Cody is quiet.")];
             VObj [("Entity", VStr "Cody"); ("Fact", VStr "Cody is quiet.")]].
Proof.
  destruct (@drill_down_merge
              [VObj [("Entity", VStr "Brent"); ("Fact", VStr "Brent is tall.")]]
              [VStr "Brent is tall."]
              [VObj [("Entity", VStr "Brent"); ("Fact", VStr "Brent is tall.")];
               VObj [("Entity", VStr "Cody"); ("Fact", VStr "Cody is quiet.")];
               VObj [("Entity", VStr "Cody"); ("Fact", VStr "Cody is quiet.")]]
              [VObj [("Entity", VStr "Brent"); ("Fact", VStr "Brent is tall.")];
               VObj [("Entity", VStr "Cody"); ("Fact", VStr "Cody is quiet.")];
               VObj [("Entity", VStr "Cody"); ("Fact", VStr "Cody is quiet.")]])
    as (added & Hmerged & Hadded & _).
  - reflexivity.
  - reflexivity.
  - exists added. split; [exact Hmerged|].
    vm_compute in Hadded. injection Hadded as <-. reflexivity.
Defined.

(** ** Search keys of the global retrieval *)

(** X21.  Every key sent to the global retrieval is truthy and has a length
    greater than 2.  The keys are pairwise distinct, unless the filtered key
    set came out empty and the keys are the fallback words of the user's
    text: its words of more than 3 characters outside the short stop list,
    in order, repeated if the text repeats them. *)
Theorem search_keys_long host userText history isQuestionMode analysis keys :
  search_keys host userText history isQuestionMode analysis = Some keys ->
  (forall k, In k keys ->
             truthy k = true /\
             exists len, get k "length" = Some len /\ js_gt host len 2 = true) /\
  ((forall x, (List.length (filter (strict_eq x) keys) <= 1)%nat) \/
   keys = str_values (filter (fun w => (3 <? strlen w) && negb (string_in w fallback_stop))
                             (split space_char userText))).
Proof.
  unfold search_keys. intros H. cbv zeta in H.
  repeat match type of H with
         | match ?c with Some _ => _ | None => _ end = Some _ =>
             let E := fresh "E" in destruct c eqn:E; [|discriminate H]
         end.
  match type of H with
  | match ?sk with [] => _ | _ => _ end = _ => destruct sk as [|k0 ks] eqn:Hsk
  end; injection H as <-.
  - split; [|right; reflexivity].
    intros k Hk. unfold str_values in Hk. apply in_map_iff in Hk as (w & <- & Hw).
    apply filter_In in Hw as [_ Hw]. apply andb_true_iff in Hw as [Hlen _].
    apply Z.ltb_lt in Hlen. split.
    + destruct w; [cbn in Hlen; lia|reflexivity].
    + exists (VNum (strlen w)). split; [reflexivity|].
      cbn. apply Z.ltb_lt. lia.
  - match goal with
    | E : filter_opt _ _ = Some (k0 :: ks) |- _ => rename E into Hkept
    end.
    split; [|left].
    + intros k Hk. destruct (filter_opt_kept _ _ Hkept k Hk) as [_ Hp]. cbv beta in Hp.
      destruct (truthy k); [|discriminate Hp]. split; [reflexivity|].
      destruct (get k "length") as [len|]; [|discriminate Hp].
      exists len. split; [reflexivity|]. congruence.
    + intros x. etransitivity; [exact (filter_opt_fewer _ (strict_eq x) _ Hkept)|].
      apply set_of_once.
Qed.

Lemma search_keys_long_witness :
  search_keys store_host "tell me about Jemi" [] false analysis_doc
  = Some [VStr "Tell Me About Jemi"; VStr "Zoo"; VStr "History"] /\
  (forall k, In k [VStr "Tell Me About Jemi"; VStr "Zoo"; VStr "History"] ->
             truthy k = true).
Proof.
  assert (H : search_keys store_host "tell me about Jemi" [] false analysis_doc
              = Some [VStr "Tell Me About Jemi"; VStr "Zoo"; VStr "History"])
    by (vm_compute; reflexivity).
  split; [exact H|]. intros k Hk.
  exact (proj1 (proj1 (@search_keys_long store_host _ _ _ _ _ H) k Hk)).
Defined.

(** ** The analysis *)

(** X22.  The analysis step never raises, and the handler that would keep
    the initial default is never reached.  The step makes the engine call and
    nothing else, and hands on the [parsed] document of the engine's result as
    it is, except that keywords given as a string are replaced by an array:
    the pieces of the string between commas, trimmed.  So the analysis is
    the parsed safe-mode object, which has neither keywords nor entries (after
    three failed attempts), or the validated document with an array of
    keywords. *)
Theorem analysis_stage_keywords host w :
  exists synthResult w' parsed analysis,
    fetchWithCognitiveRetry host validator_search_keywords "Hybrid Analysis" w
    = (Normal synthResult, w') /\
    get synthResult "parsed" = Some parsed /\
    analysis_stage host w = (Normal analysis, w') /\
    ((synthResult = safe_mode /\ analysis = parsed) \/
     exists fields,
       parsed = VObj fields /\
       ((exists items, assoc "search_keywords" fields = VArr items /\ analysis = parsed) \/
        (exists s items,
            assoc "search_keywords" fields = VStr s /\
            analysis = VObj (set_assoc "search_keywords" (VArr items) fields) /\
            (ascii_text s = true ->
             items = str_values (map trim (split comma_char s)))))).
Proof.
  unfold analysis_stage, try_catch. unfold bind at 1.
  destruct (fetchWithCognitiveRetry_outcome host validator_search_keywords
              "Hybrid Analysis" w) as (retries & r & Hrun & _ & _ & Hlast).
  rewrite Hrun.
  destruct Hlast as [Hret|(-> & _ & ->)].
  2:{ exists safe_mode, (after_engine "Hybrid Analysis" 2 w), safe_mode_parsed,
        safe_mode_parsed.
      split; [reflexivity|]. split; [reflexivity|]. split; [reflexivity|].
      left. split; reflexivity. }
  destruct (attempt_cases host validator_search_keywords (retries + inference_calls w))
    as [[e He]|(s & data & content & parsed & verdict & _ & _ & _ & _ & Hv & Ht & Hr)];
    [congruence|].
  rewrite Hret in Hr. injection Hr as ->.
  unfold bind. cbn [get assoc String.eqb Ascii.eqb Bool.eqb orTypeError ret].
  unfold validator_search_keywords in Hv.
  destruct parsed as [| |b|n|s0|l|fields]; cbn [get] in Hv; try discriminate Hv;
    try (injection Hv as <-; cbn in Ht; discriminate Ht).
  injection Hv as <-. cbn [get orTypeError ret].
  destruct (assoc "search_keywords" fields) as [| |b|n|s0|items|fs] eqn:Hk;
    cbn in Ht; try discriminate Ht.
  - eexists; eexists; exists (VObj fields); eexists.
    split; [reflexivity|]. split; [reflexivity|]. split; [reflexivity|].
    right. exists fields. split; [reflexivity|]. right.
    exists s0, (str_values (map trim (split comma_char s0))).
    split; [exact Hk|]. split; [reflexivity|]. intros _. reflexivity.
  - eexists; eexists; exists (VObj fields); eexists.
    split; [reflexivity|]. split; [reflexivity|]. split; [reflexivity|].
    right. exists fields. split; [reflexivity|]. left.
    exists items. split; [exact Hk|reflexivity].
Qed.

(** ** Director SEARCH: a storage failure *)

Lemma js_or_truthy a b : truthy b = true -> truthy (js_or a b) = true.
Proof. intros H. unfold js_or. destruct (truthy a) eqn:E; [exact E|exact H]. Qed.

Lemma store_request_fails host body w e :
  storage_error (storage host (store_calls w)) = Some e ->
  store_request host body w = (Throw e, after_store body w).
Proof.
  unfold store_request. destruct (storage host (store_calls w)); cbn; intros H;
    try discriminate H; injection H as <-; reflexivity.
Qed.

(** X23.  The SEARCH case has no handler around its storage requests.  With
    a storage address and a SEARCH classification, when the first storage
    request of the case fails (the service is unreachable, or its body is not
    JSON), the turn raises that error: no reply is returned, unlike the CHAT
    case, which answers with its fixed reply. *)
Theorem search_storage_failure_raises host userText apiKey modelHigh history isQuestionMode
        w result w2 aiRes e :
  store_configured host = true ->
  fetchWithCognitiveRetry host validator_intent "DirectorAI"
    (add_event (EStoreDispatch (log_chat "user" (VStr userText))) w)
  = (Normal result, w2) ->
  get result "parsed" = Some aiRes ->
  get aiRes "intent" = Some (VStr "SEARCH") ->
  storage_error (storage host (store_calls w2)) = Some e ->
  exists body,
    processMemoryChat host userText apiKey modelHigh history isQuestionMode true w
    = (Throw e, after_store body w2).
Proof.
  intros Hconf Hrun Hparsed Hintent Herr.
  destruct (get_defined aiRes "intent" "positive_constraints" Hintent) as [pc Hpc].
  destruct (get_defined aiRes "intent" "negative_constraints" Hintent) as [nc Hnc].
  assert (Htruthy : truthy (js_or pc (VArr [])) = true) by (apply js_or_truthy; reflexivity).
  destruct (get_truthy (js_or pc (VArr [])) "length" Htruthy) as [len Hlen].
  assert (Hsearch :
            exists body, director_search host userText aiRes w2
                         = (Throw e, after_store body w2)).
  { unfold director_search. unfold bind at 1. rewrite Hpc. cbn [orTypeError ret].
    unfold bind at 1. rewrite Hnc. cbn [orTypeError ret].
    unfold bind at 1. unfold ambiguity_check. unfold bind at 1. rewrite Hlen.
    cbn [orTypeError ret].
    destruct (js_gt host len 0).
    - unfold bind at 1. rewrite (@store_request_fails host _ w2 e Herr).
      eexists; reflexivity.
    - cbn [ret]. unfold bind at 1. rewrite (@store_request_fails host _ w2 e Herr).
      eexists; reflexivity. }
  destruct Hsearch as [body Hsearch]. exists body.
  unfold processMemoryChat, call_function. unfold bind at 1.
  rewrite Hconf. unfold store_dispatch. rewrite emit_at.
  unfold director_mode. unfold bind at 1. rewrite Hrun.
  unfold bind at 1. rewrite Hparsed. cbn [orTypeError ret].
  unfold bind at 1. rewrite Hintent. cbn [orTypeError ret].
  unfold bind at 1. cbn [strict_eq String.eqb Ascii.eqb Bool.eqb andb ret].
  unfold bind at 1. rewrite Hconf. cbn [andb]. rewrite Hsearch. reflexivity.
Qed.

Lemma search_storage_failure_raises_witness :
  fst (processMemoryChat search_unreachable_host "a beach without John" "key" "model" []
                         false true fresh_world)
  = Throw NetworkError.
Proof.
  pose (w1 := add_event (EStoreDispatch (log_chat "user" (VStr "a beach without John")))
                        fresh_world).
  pose (run := fetchWithCognitiveRetry search_unreachable_host validator_intent
                                       "DirectorAI" w1).
  destruct (@search_storage_failure_raises search_unreachable_host "a beach without John"
              "key" "model" [] false fresh_world
              (match fst run with Normal r => r | _ => VUndef end) (snd run)
              search_doc NetworkError) as [body Hbody].
  - reflexivity.
  - vm_compute; reflexivity.
  - vm_compute; reflexivity.
  - reflexivity.
  - reflexivity.
  - rewrite Hbody. reflexivity.
Defined.

(** ** Generation and the redundancy guard *)

(** The reflexive search, with its handler, always yields a generation
    result: the one it was given, or that one with [parsed] and [cleaned]
    replaced by those of the correction. *)
Lemma reflexive_check_result host generationResult keywords w :
  exists r w',
    try_catch (reflexive_check host generationResult keywords)
              (fun _ => ret generationResult) w
    = (Normal r, w') /\
    (r = generationResult \/
     exists parsed cleaned,
       is_object parsed = true /\
       r = set_field (set_field generationResult "parsed" parsed) "cleaned" cleaned).
Proof.
  assert (Hkeep : forall w' : World,
             exists r w'',
               (@Normal value generationResult, w') = (Normal r, w'') /\
               (r = generationResult \/
                exists parsed cleaned,
                  is_object parsed = true /\
                  r = set_field (set_field generationResult "parsed" parsed)
                                "cleaned" cleaned)).
  { intros w'. exists generationResult, w'. split; [reflexivity|left; reflexivity]. }
  unfold try_catch, reflexive_check. unfold bind at 1. unfold store_request.
  destruct (storage host (store_calls w)) as [| |checkRes]; try apply Hkeep.
  unfold bind at 1.
  destruct (found_memories host checkRes) as [[relevant|]|]; cbn [orTypeError ret throw];
    try apply Hkeep.
  unfold bind at 1.
  destruct (js_join newline relevant); cbn [orTypeError ret throw]; try apply Hkeep.
  unfold bind at 1.
  match goal with
  | |- context [fetchWithCognitiveRetry host validator_is_redundant "RedundancyCheck" ?w0] =>
      destruct (engine_parsed_object host RedundancyCheck w0)
        as (sanityCheck & w1 & verdict & Hrun & Hverdict & Hobj)
  end.
  cbn [validator_of label_of] in Hrun.
  rewrite Hrun. unfold bind at 1. rewrite Hverdict.
  cbn [orTypeError ret].
  destruct (get_defined sanityCheck "parsed" "parsed" Hverdict) as [_ _].
  destruct verdict as [| | | | | |fields]; try discriminate Hobj.
  unfold bind at 1. cbn [get orTypeError ret].
  destruct (truthy (assoc "is_redundant" fields)); [|apply Hkeep].
  destruct (engine_parsed_object host CorrectionGeneration w1)
    as (retryResult & w2 & parsed & Hretry & Hparsed & Hpobj).
  cbn [validator_of label_of] in Hretry.
  unfold bind at 1. rewrite Hretry. unfold bind at 1. rewrite Hparsed.
  cbn [orTypeError ret].
  destruct (get_defined retryResult "parsed" "cleaned" Hparsed) as [cleaned Hcleaned].
  unfold bind at 1. rewrite Hcleaned. cbn [orTypeError ret].
  eexists; eexists. split; [reflexivity|]. right. exists parsed, cleaned. auto.
Qed.

(** X24.  The generation step either yields a generation result whose
    [parsed] field holds an object, or raises a TypeError; and it can raise
    only in question mode with a storage address, when the generated response
    is truthy but not a string, right after the Generation call: the words
    of the response are taken outside the guard's handler.  Outside question
    mode, or with no storage address, the step never raises. *)
Theorem generation_stage_outcome host isQuestionMode w :
  (exists r w' parsed,
      generation_stage host isQuestionMode w = (Normal r, w') /\
      get r "parsed" = Some parsed /\ is_object parsed = true) \/
  (exists g w' parsed response,
      fetchWithCognitiveRetry host validator_response_mood "Generation" w
      = (Normal g, w') /\
      get g "parsed" = Some parsed /\ get parsed "response" = Some response /\
      truthy response = true /\ is_string response = false /\
      isQuestionMode = true /\ store_configured host = true /\
      generation_stage host isQuestionMode w = (Throw TypeError, w')).
Proof.
  destruct (engine_parsed_object host Generation w)
    as (g & w1 & parsed & Hrun & Hparsed & Hobj).
  cbn [validator_of label_of] in Hrun.
  destruct (generation_stage host isQuestionMode w) as [c w'] eqn:Hgen.
  unfold generation_stage in Hgen. unfold bind at 1 in Hgen. rewrite Hrun in Hgen.
  unfold bind at 1 in Hgen. rewrite Hparsed in Hgen. cbn [orTypeError ret] in Hgen.
  assert (Hsame : (@Normal value g, w1) = (c, w') ->
                  exists r w'' parsed0,
                    (c, w') = (Normal r, w'') /\
                    get r "parsed" = Some parsed0 /\ is_object parsed0 = true).
  { intros E. exists g, w1, parsed. auto. }
  destruct isQuestionMode; [|left; exact (Hsame Hgen)].
  destruct (store_configured host) eqn:Hconf; [|left; exact (Hsame Hgen)].
  cbn [andb] in Hgen.
  destruct parsed as [| | | | | |fields]; try discriminate Hobj.
  unfold bind at 1 in Hgen. cbn [get orTypeError ret] in Hgen.
  destruct (truthy (assoc "response" fields)) eqn:Htruthy; [|left; exact (Hsame Hgen)].
  unfold bind at 1 in Hgen.
  destruct (assoc "response" fields) as [| |b|n|s|l|fs] eqn:Hresponse;
    try (cbn in Htruthy; discriminate Htruthy);
    cbn [as_string orTypeError ret throw] in Hgen;
    try (right; exists g, w1, (VObj fields); eexists;
         split; [exact Hrun|]; split; [exact Hparsed|];
         split; [cbn [get]; rewrite Hresponse; reflexivity|];
         split; [exact Htruthy|]; split; [reflexivity|];
         split; [reflexivity|]; split; [reflexivity|];
         symmetry; exact Hgen).
  destruct (responseKeywords s) as [|k ks]; [left; exact (Hsame Hgen)|].
  destruct (reflexive_check_result host g (k :: ks) w1)
    as (r & w2 & Hcheck & [->|(parsed' & cleaned & Hpobj & ->)]).
  - left. rewrite Hcheck in Hgen. exists g, w2, (VObj fields). auto.
  - left. rewrite Hcheck in Hgen.
    exists (set_field (set_field g "parsed" parsed') "cleaned" cleaned), w2, parsed'.
    split; [symmetry; exact Hgen|]. split; [|exact Hpobj].
    destruct g as [| | | | | |gfields]; try discriminate Hparsed;
      try (cbn in Hparsed; destruct (String.eqb "parsed" "length"); discriminate Hparsed).
    cbn [set_field get]. rewrite assoc_set_other by reflexivity.
    now rewrite assoc_set_same.
Qed.

(** * Director SEARCH and the mood sanitizer, on whole turns *)

Lemma assoc_of_get v k x : get v k = Some x -> assoc_of v k = x.
Proof. intros H. unfold assoc_of. now rewrite H. Qed.

(** The filter and the reply of the SEARCH case leave by [return] or by
    [throw]. *)
Lemma search_tail_leaves host o aiRes finalKeywords w a w' :
  (filtered <- orTypeError o ;; search_reply host aiRes finalKeywords filtered) w
  <> (Normal a, w').
Proof.
  unfold bind at 1. destruct o as [filtered|]; cbn [orTypeError ret throw]; [|discriminate].
  unfold search_reply, bind.
  destruct (get filtered "found"); cbn [orTypeError ret throw]; [|discriminate].
  destruct (get finalKeywords "length"); cbn [orTypeError ret throw]; [|discriminate].
  destruct (_ && _).
  - destruct (js_join " and " finalKeywords); cbn [orTypeError ret throw return_];
      discriminate.
  - destruct (get filtered "files"); cbn [orTypeError ret throw]; [|discriminate].
    destruct (get filtered "debug_query"); cbn [orTypeError ret throw]; [|discriminate].
    destruct (get aiRes "response"); cbn [orTypeError ret throw return_]; discriminate.
Qed.

(** A Director turn whose classification is SEARCH, up to the answer of the
    search request: what is left is the client-side filter and the reply. *)
Lemma director_search_turn host userText apiKey modelHigh history isQuestionMode
      w result w1 aiRes finalKeywords w2 searchRes :
  store_configured host = true ->
  fetchWithCognitiveRetry host validator_intent "DirectorAI"
    (add_event (EStoreDispatch (log_chat "user" (VStr userText))) w)
  = (Normal result, w1) ->
  get result "parsed" = Some aiRes ->
  get aiRes "intent" = Some (VStr "SEARCH") ->
  ambiguity_check host (js_or (assoc_of aiRes "positive_constraints") (VArr [])) w1
  = (Normal finalKeywords, w2) ->
  storage host (store_calls w2) = StoreAnswers searchRes ->
  processMemoryChat host userText apiKey modelHigh history isQuestionMode true w
  = call_function
      (filtered <- orTypeError
         (enforce_excludes host (js_or (assoc_of aiRes "negative_constraints") (VArr []))
                           searchRes) ;;
       search_reply host aiRes finalKeywords filtered)
      (after_store (director_search_request userText finalKeywords
                      (js_or (assoc_of aiRes "negative_constraints") (VArr []))) w2).
Proof.
  intros Hconf Hrun Hparsed Hintent Hamb Hanswer.
  destruct (get_defined aiRes "intent" "positive_constraints" Hintent) as [pc Hpc].
  destruct (get_defined aiRes "intent" "negative_constraints" Hintent) as [nc Hnc].
  rewrite (assoc_of_get _ _ Hpc) in Hamb. rewrite (assoc_of_get _ _ Hnc).
  assert (Hsearch :
            director_search host userText aiRes w1
            = (filtered <- orTypeError
                 (enforce_excludes host (js_or nc (VArr [])) searchRes) ;;
               search_reply host aiRes finalKeywords filtered)
                (after_store (director_search_request userText finalKeywords
                                                      (js_or nc (VArr []))) w2)).
  { unfold director_search. unfold bind at 1. rewrite Hpc. cbn [orTypeError ret].
    unfold bind at 1. rewrite Hnc. cbn [orTypeError ret].
    unfold bind at 1. rewrite Hamb.
    unfold bind at 1. unfold store_request. rewrite Hanswer. reflexivity. }
  unfold processMemoryChat, call_function. unfold bind at 1.
  rewrite Hconf. unfold store_dispatch. rewrite emit_at.
  unfold director_mode. unfold bind at 1. rewrite Hrun.
  unfold bind at 1. rewrite Hparsed. cbn [orTypeError ret].
  unfold bind at 1. rewrite Hintent. cbn [orTypeError ret].
  unfold bind at 1. cbn [strict_eq String.eqb Ascii.eqb Bool.eqb andb ret].
  unfold bind at 1. rewrite Hconf. cbn [andb]. rewrite Hsearch.
  match goal with
  | |- context [bind (orTypeError ?o) _ ?w0] =>
      pose proof (@search_tail_leaves host o aiRes finalKeywords w0) as Hleave
  end.
  match goal with
  | |- context [bind ?m ?k ?w0] => destruct (bind m k w0) as [[a| | |] w']
  end; try reflexivity.
  exfalso. exact (Hleave a w' eq_refl).
Qed.

(** C7.  Director mode with a storage address and a SEARCH classification,
    once the ambiguity check has settled the final list of positive
    constraints and the storage service has answered the search request.
    With the found flag as it stands after the client-side filter, the turn
    returns the cooperative fallback (action SHOW_DECKS carrying all
    constraints, no files, mood QUESTION) exactly when the flag is falsy and
    the list has more than one element; with a falsy flag and at most one
    constraint it returns the ordinary PLAY_MEDIA reply "No matching footage
    found." with mood SAD; with a truthy flag, the PLAY_MEDIA reply with mood
    CRYPTIC. *)
Theorem C7_cooperative_fallback host userText apiKey modelHigh history isQuestionMode
        w result w1 aiRes keywords w2 searchRes filtered found :
  store_configured host = true ->
  fetchWithCognitiveRetry host validator_intent "DirectorAI"
    (add_event (EStoreDispatch (log_chat "user" (VStr userText))) w)
  = (Normal result, w1) ->
  get result "parsed" = Some aiRes ->
  get aiRes "intent" = Some (VStr "SEARCH") ->
  ambiguity_check host (js_or (assoc_of aiRes "positive_constraints") (VArr [])) w1
  = (Normal (VArr keywords), w2) ->
  storage host (store_calls w2) = StoreAnswers searchRes ->
  enforce_excludes host (js_or (assoc_of aiRes "negative_constraints") (VArr [])) searchRes
  = Some filtered ->
  get filtered "found" = Some found ->
  exists reply,
    processMemoryChat host userText apiKey modelHigh history isQuestionMode true w
    = (Normal reply,
       after_store (director_search_request userText (VArr keywords)
                      (js_or (assoc_of aiRes "negative_constraints") (VArr []))) w2) /\
    (truthy found = false -> (1 < List.length keywords)%nat ->
     reply = cooperative_fallback keywords) /\
    (truthy found = false -> (List.length keywords <= 1)%nat ->
     reply = play_media (assoc_of filtered "files") (assoc_of filtered "debug_query")
                        (VStr "No matching footage found.") (VStr "SAD")) /\
    (truthy found = true ->
     reply = play_media (assoc_of filtered "files") (assoc_of filtered "debug_query")
                        (js_or (assoc_of aiRes "response") (VStr "Archive accessed."))
                        (VStr "CRYPTIC")) /\
    (get reply "directorAction" = Some (VStr "SHOW_DECKS") <->
     truthy found = false /\ (1 < List.length keywords)%nat).
Proof.
  intros Hconf Hrun Hparsed Hintent Hamb Hanswer Henf Hfound.
  rewrite (@director_search_turn host userText apiKey modelHigh history isQuestionMode
             w result w1 aiRes (VArr keywords) w2 searchRes
             Hconf Hrun Hparsed Hintent Hamb Hanswer).
  destruct (get_defined aiRes "intent" "response" Hintent) as [response Hresponse].
  match goal with
  | |- context [call_function _ ?w0] =>
      destruct (@search_reply_cases host aiRes keywords filtered found response w0
                  Hfound Hresponse)
        as (reply & files & dq & Hreply & Hfiles & Hdq & Hcoop & Hplain & Hfoundc & Hiff)
  end.
  exists reply. split.
  { unfold call_function. unfold bind at 1. rewrite Henf. cbn [orTypeError ret].
    now rewrite Hreply. }
  rewrite (assoc_of_get _ _ Hfiles), (assoc_of_get _ _ Hdq), (assoc_of_get _ _ Hresponse).
  split; [exact Hcoop|]. split; [exact Hplain|]. split; [exact Hfoundc|exact Hiff].
Qed.

Lemma C7_cooperative_fallback_witness :
  fst (processMemoryChat pair_host "Show me Cody and Brent" "key" "model" [] false true
                         fresh_world)
  = Normal (cooperative_fallback [VStr "Cody"; VStr "Brent"]).
Proof.
  pose (w0 := add_event (EStoreDispatch (log_chat "user" (VStr "Show me Cody and Brent")))
                        fresh_world).
  pose (run := fetchWithCognitiveRetry pair_host validator_intent "DirectorAI" w0).
  pose (amb := ambiguity_check pair_host (VArr [VStr "Cody"; VStr "Brent"]) (snd run)).
  destruct (@C7_cooperative_fallback pair_host "Show me Cody and Brent" "key" "model" []
              false fresh_world
              (completed VUndef (fst run)) (snd run) pair_doc
              [VStr "Cody"; VStr "Brent"] (snd amb)
              (VObj [("found", VBool false); ("files", VArr [])])
              (VObj [("found", VBool false); ("files", VArr [])]) (VBool false))
    as (reply & Hrun & Hcoop & _).
  - reflexivity.
  - vm_compute; reflexivity.
  - vm_compute; reflexivity.
  - reflexivity.
  - vm_compute; reflexivity.
  - vm_compute; reflexivity.
  - vm_compute; reflexivity.
  - reflexivity.
  - rewrite Hrun. cbn [fst]. f_equal. apply Hcoop; [reflexivity|cbn; lia].
Defined.



(** ** The mood sanitizer on a whole turn *)





























